(** * QuantumTunellingApp: the numerical integrator of [numerics.py]

    A shallow embedding of the class [NumericalCalculation]: the constructor
    [__init__], the helpers [_gauss] and [_get_numerical_parameters], the
    stepping method [calculate_timestep] and the accessor [get_packet].

    - Python floats and numpy [float64] values are IEEE binary64 numbers:
      Rocq's primitive floats.
    - [complex128] values are kept abstract (a type [C] with its arithmetic),
      as are the C library's [pow], the values of [scipy.constants] and the
      SuperLU factorisation behind [scipy.sparse.linalg.splu].
    - Exceptions are explicit: every operation lives in a small monad that
      either raises or returns, and that counts the calls to [splu]. *)

From Stdlib Require Import ZArith List Lia Bool Floats.
From Stdlib Require Import Permutation Sorted.
From Stdlib Require Ascii DecimalN String DecimalString DecimalZ.
From Stdlib Require QArith Qcanon.
Import ListNotations.
Set Warnings "-inexact-float,-register-all".

(** ** Exceptions and the monad *)

Inductive exn : Type :=
| ZeroDivisionError
| ValueError
| OverflowError
| IndexError
| RuntimeError.

Inductive result (T : Type) : Type :=
| OK (v : T)
| Raise (err : exn).
Arguments OK {T} v.
Arguments Raise {T} err.

(** A computation reads the number of [splu] calls made so far and either
    raises or returns a value with the new count. *)
Definition M (T : Type) : Type := nat -> result (T * nat).

Definition ret {T} (v : T) : M T := fun c => OK (v, c).
Definition raise {T} (err : exn) : M T := fun _ => Raise err.
Definition bind {T U} (m : M T) (f : T -> M U) : M U :=
  fun c => match m c with
           | OK (v, c') => f v c'
           | Raise err => Raise err
           end.
Definition lift {T} (r : result T) : M T :=
  fun c => match r with OK v => OK (v, c) | Raise err => Raise err end.
Definition count_splu : M unit := fun c => OK (tt, S c).

Declare Scope py_scope.
Delimit Scope py_scope with py.
Notation "v <- m ;; k" := (bind m (fun v => k))
  (at level 61, m at next level, right associativity) : py_scope.
Notation "m ;;; k" := (bind m (fun _ => k))
  (at level 61, right associativity) : py_scope.
Open Scope py_scope.

Fixpoint mapM {T U} (f : T -> M U) (l : list T) : M (list U) :=
  match l with
  | [] => ret []
  | v :: l' => u <- f v ;; us <- mapM f l' ;; ret (u :: us)
  end.

(** ** Python and numpy scalars *)

Module Py.
Open Scope float_scope.

Definition is_zero (f : float) : bool := PrimFloat.eqb f 0.

(** [float(i)] for an integer [i] below 2^63 in absolute value, as array
    sizes and indices are; exact up to 2^53. *)
Definition float_of_Z (z : Z) : float :=
  match z with
  | Z0 => 0
  | Zpos _ => PrimFloat.of_uint63 (Uint63.of_Z z)
  | Zneg q => - PrimFloat.of_uint63 (Uint63.of_Z (Zpos q))
  end.

(** [a / b] on Python floats. *)
Definition truediv (a b : float) : M float :=
  if is_zero b then raise ZeroDivisionError else ret (a / b).

(** The integer part of a finite float, rounded towards zero; [None] for
    NaN and the infinities. *)
Definition trunc (f : float) : option Z :=
  match Prim2SF f with
  | S754_zero _ => Some 0%Z
  | S754_finite s m e =>
      let mag := match e with
                 | Zneg q => Z.shiftr (Zpos m) (Zpos q)
                 | _ => Z.shiftl (Zpos m) e
                 end in
      Some (if s then (- mag)%Z else mag)
  | S754_infinity _ => None
  | S754_nan => None
  end.

(** [int(f)]. *)
Definition int (f : float) : M Z :=
  match Prim2SF f with
  | S754_nan => raise ValueError
  | S754_infinity _ => raise OverflowError
  | _ => match trunc f with Some z => ret z | None => raise ValueError end
  end.

(** The largest integer not above a finite float. *)
Definition floor (f : float) : option Z :=
  match Prim2SF f with
  | S754_zero _ => Some 0%Z
  | S754_finite s m e => Some (Z.shiftl (if s then Zneg m else Zpos m) e)
  | S754_infinity _ => None
  | S754_nan => None
  end.

Definition is_finite (f : float) : bool :=
  match Prim2SF f with
  | S754_zero _ | S754_finite _ _ _ => true
  | _ => false
  end.

Definition is_inf (f : float) : bool :=
  match Prim2SF f with
  | S754_infinity _ => true
  | _ => false
  end.
End Py.

(** ** Lists as one-dimensional arrays *)

(** [l[1:-1]] *)
Definition interior {T} (l : list T) : list T :=
  firstn (length l - 2) (skipn 1 l).

(** [l[i] = v] for an index in range; no change otherwise (the callers check
    the range and raise). *)
Fixpoint list_set {T} (l : list T) (i : nat) (v : T) : list T :=
  match l, i with
  | [], _ => []
  | _ :: l', O => v :: l'
  | u :: l', S i' => u :: list_set l' i' v
  end.

(** A numpy index [i] into an axis of length [len]: negative indices count
    from the end, anything else out of range raises. *)
Definition norm_index (len : nat) (i : Z) : M nat :=
  if ((0 <=? i) && (i <? Z.of_nat len))%Z then ret (Z.to_nat i)
  else if ((- Z.of_nat len <=? i) && (i <? 0))%Z then ret (Z.to_nat (i + Z.of_nat len))
  else raise IndexError.

Module np.
Open Scope float_scope.

Definition pi : float := 0x1.921fb54442d18p+1.

(** [np.arange(lo, hi)] on integers. *)
Definition arange (lo hi : Z) : list Z :=
  map (fun i => (lo + Z.of_nat i)%Z) (seq 0 (Z.to_nat (hi - lo))).

(** [np.linspace(start, stop, num)] with the default [endpoint=True]: the
    array it returns for [0 <= num] ... *)
Definition linspace_array (start stop : float) (num : Z) : list float :=
  let div := (num - 1)%Z in
  let delta := stop - start in
  let y := map (fun i => Py.float_of_Z (Z.of_nat i)) (seq 0 (Z.to_nat num)) in
  let y :=
    if (0 <? div)%Z then
      let step := delta / Py.float_of_Z div in
      if Py.is_zero step
      then map (fun v => (v / Py.float_of_Z div) * delta) y
      else map (fun v => v * step) y
    else map (fun v => v * delta) y in
  let y := map (fun v => v + start) y in
  if (1 <? num)%Z then removelast y ++ [stop] else y.

(** The largest size of an array in bytes, the largest value of the C type
    [npy_intp], and the largest number of [float64] items (of eight bytes)
    that fit below it. *)
Definition max_bytes : Z := (2 ^ 63 - 1)%Z.
Definition max_float64 : Z := (max_bytes / 8)%Z.

(** ... and the checks before it: of the sign of [num], and of the size of
    the array [np.arange(0, num)] the points are computed from, which numpy
    refuses with a [ValueError] when it is beyond the largest size.  An
    array of an accepted size is taken to fit into the memory of the
    machine: there is no [MemoryError]. *)
Definition linspace (start stop : float) (num : Z) : M (list float) :=
  if (num <? 0)%Z then raise ValueError
  else if (max_float64 <? num)%Z then raise ValueError
  else ret (linspace_array start stop num).

(** [np.where(cond, a, b)] for scalars [a], [b]. *)
Definition where_ {T} (cond : list bool) (a b : T) : list T :=
  map (fun c : bool => if c then a else b) cond.
End np.


(** ** The integrator *)

(** The seven arguments of [NumericalCalculation.__init__], as the front end
    passes them: floats in nm, nm, fs, eV, eV, pm and as. *)
Record params : Type := {
  arg_size_packet : float;
  arg_size_barrier : float;
  arg_duration_time : float;
  arg_energy_packet : float;
  arg_potential_barrier_height : float;
  arg_dx : float;
  arg_dt : float
}.

(** What the program takes from its libraries and the platform. *)
Class Numerics : Type := {
  (** [scipy.constants]: reduced Planck constant, electron mass, elementary
      charge. *)
  hbar : float;
  m_e : float;
  e : float;
  (** The C library's [pow] on doubles. *)
  fpow : float -> float -> float;
  (** [complex128]: the imaginary unit [1j], the promotion of a float, the
      arithmetic, [np.exp], and the test against zero used when a dense
      array is stored in a sparse format. *)
  C : Type;
  cj : C;
  of_float : float -> C;
  cneg : C -> C;
  cadd : C -> C -> C;
  csub : C -> C -> C;
  cmul : C -> C -> C;
  cdiv : C -> C -> C;
  cexp : C -> C;
  c_is_zero : C -> bool;
  (** SuperLU: the factors computed from a matrix ([RuntimeError] when the
      factor is exactly singular), and the entries of the solution computed
      from the factors and a right-hand side. *)
  factors : Type;
  factorize : list (list C) -> result factors;
  solve_at : factors -> list C -> nat -> C
}.

Section Integrator.

Context {num : Numerics}.

Definition matrix : Type := list (list C).

Record SuperLU : Type := {
  shape : nat;
  lu_factors : factors
}.

Open Scope float_scope.

(** [complex(0)], the entries of [np.zeros(., dtype=complex)]. *)
Definition c0 : C := of_float 0.

(** [x ** y] on Python floats. *)
Definition py_pow (u v : float) : M float :=
  let w := fpow u v in
  if Py.is_finite u && Py.is_finite v && Py.is_inf w
  then raise OverflowError else ret w.

(** [z / d] for a Python complex [z] and a Python float [d]. *)
Definition py_cdiv (z : C) (d : float) : M C :=
  if Py.is_zero d then raise ZeroDivisionError else ret (cdiv z (of_float d)).

(** *** Two-dimensional arrays *)

Definition get (m : matrix) (i j : nat) : C := nth j (nth i m []) c0.

Definition mat_set (m : matrix) (i j : nat) (v : C) : matrix :=
  list_set m i (list_set (nth i m []) j v).

(** [np.zeros((n, n), dtype=complex)] and [np.zeros(n, dtype=complex)] *)
Definition zeros2 (n : Z) : M matrix :=
  if (n <? 0)%Z then raise ValueError
  else ret (repeat (repeat c0 (Z.to_nat n)) (Z.to_nat n)).

Definition zeros1 (n : Z) : M (list C) :=
  if (n <? 0)%Z then raise ValueError else ret (repeat c0 (Z.to_nat n)).

(** [m[I, J] = vals] for index arrays [I], [J] and an array of values, on a
    square [m]; the index arrays of the program always have one length. *)
Fixpoint setitem_pairs (m : matrix) (I J : list Z) (vals : list C) : M matrix :=
  match I, J, vals with
  | [], [], [] => ret m
  | i :: I', j :: J', v :: vals' =>
      i' <- norm_index (length m) i ;;
      j' <- norm_index (length m) j ;;
      setitem_pairs (mat_set m i' j' v) I' J' vals'
  | [], [], _ :: _ => raise ValueError
  | _ :: _, _ :: _, [] => raise ValueError
  | _, _, _ => raise IndexError
  end.

(** [m[I, J] = v] for a scalar [v]. *)
Definition setitem_scalar (m : matrix) (I J : list Z) (v : C) : M matrix :=
  setitem_pairs m I J (repeat v (length I)).

(** [l[i] = v] *)
Definition setitem1 (l : list C) (i : Z) (v : C) : M (list C) :=
  i' <- norm_index (length l) i ;; ret (list_set l i' v).

(** [u + v] on one-dimensional arrays, with numpy's broadcasting of an
    array of length one. *)
Definition np_add (u v : list C) : M (list C) :=
  if (length u =? length v)%nat
  then ret (map (fun uv => cadd (fst uv) (snd uv)) (combine u v))
  else if (length u =? 1)%nat then ret (map (fun vi => cadd (hd c0 u) vi) v)
  else if (length v =? 1)%nat then ret (map (fun ui => cadd ui (hd c0 v)) u)
  else raise ValueError.

(** One row of a sparse matrix times a vector: the sum, from zero and in
    column order, over the stored (nonzero) entries of the row. *)
Definition sparse_dot (row v : list C) : C :=
  fold_left (fun acc av => if c_is_zero (fst av) then acc
                           else cadd acc (cmul (fst av) (snd av)))
            (combine row v) c0.

(** [m @ v] for a square sparse matrix [m]. *)
Definition matvec (m : matrix) (v : list C) : M (list C) :=
  if (length v =? length m)%nat
  then ret (map (fun row => sparse_dot row v) m)
  else raise ValueError.

(** [splu(m)] *)
Definition splu (m : matrix) : M SuperLU :=
  count_splu ;;;
  f <- lift (factorize m) ;;
  ret {| shape := length m; lu_factors := f |}.

(** [lu.solve(rhs)]: an array of the shape of [rhs]. *)
Definition lu_solve (lu : SuperLU) (rhs : list C) : M (list C) :=
  if (length rhs =? shape lu)%nat
  then ret (map (solve_at (lu_factors lu) rhs) (seq 0 (length rhs)))
  else raise ValueError.

(** [l[1:-1] = v], with numpy's broadcasting of an array of length one. *)
Definition setitem_interior (l v : list C) : M (list C) :=
  let len := length (interior l) in
  if (length v =? len)%nat
  then ret (firstn 1 l ++ v ++ skipn (1 + len) l)
  else if (length v =? 1)%nat
  then ret (firstn 1 l ++ repeat (hd c0 v) len ++ skipn (1 + len) l)
  else raise ValueError.

(** *** The class [NumericalCalculation] *)

Record NumericalCalculation : Type := {
  size_packet : float;
  size_barrier : float;
  time_duration : float;
  energy_packet : float;
  potential_barrier_height : float;
  dx : float;
  dt : float;
  x_packet : float;
  x_barrier : float;
  x_min : float;
  x_max : float;
  division_x : Z;
  x : list float;
  division_time : Z;
  t : list float;
  V : list float;
  k : float;
  dk : float;
  K : list float;
  A : matrix;
  B : matrix;
  b : list C;
  lu : SuperLU;
  packet : list C;
  rhs_eq : list C
}.

(** [_gauss], on one grid point; it reads [x_packet], [size_packet] and [k]
    of the instance. *)
Definition _gauss (xp sp kp : float) (xi : float) : M C :=
  sp2 <- py_pow sp 2 ;;
  let env := (- fpow (xi - xp) 2) / (4 * sp2) in
  let z := cexp (cadd (of_float env) (cmul (cmul cj (of_float kp)) (of_float xi))) in
  sp2' <- py_pow sp 2 ;;
  norm <- py_pow (2 * np.pi * sp2') 0.25 ;;
  ret (cdiv z (of_float norm)).

(** [r = 1j * self.dt / self.dx ** 2 * hbar / (4 * m_e)] *)
Definition r_coeff (dt_ dx_ : float) : M C :=
  let z := cmul cj (of_float dt_) in
  dx2 <- py_pow dx_ 2 ;;
  z1 <- py_cdiv z dx2 ;;
  py_cdiv (cmul z1 (of_float hbar)) (4 * m_e).

(** [q = -1j * self.dt / hbar * self.V[1:-1] + 1 - 2 * r] *)
Definition q_coeff (dt_ : float) (V_ : list float) (r : C) : M (list C) :=
  z <- py_cdiv (cmul (cneg cj) (of_float dt_)) hbar ;;
  ret (map (fun vi => csub (cadd (cmul z (of_float vi)) (of_float 1))
                           (cmul (of_float 2) r))
           (interior V_)).

(** [_get_numerical_parameters]: it reads [division_x], [dt], [dx] and [V]
    of the instance and sets [A], [B], [b] and [lu]. *)
Definition _get_numerical_parameters (division_x_ : Z) (dt_ dx_ : float)
    (V_ : list float) : M (matrix * matrix * list C * SuperLU) :=
  let n := (division_x_ - 2)%Z in
  A0 <- zeros2 n ;;
  B0 <- zeros2 n ;;
  b0 <- zeros1 n ;;
  r <- r_coeff dt_ dx_ ;;
  q <- q_coeff dt_ V_ r ;;
  A1 <- setitem_scalar A0 (np.arange 0 n) (np.arange 0 n)
          (cadd (of_float 1) (cmul (of_float 2) r)) ;;
  A2 <- setitem_scalar A1 (np.arange 0 (n - 1)) (np.arange 1 n) (cneg r) ;;
  A3 <- setitem_scalar A2 (np.arange 1 n) (np.arange 0 (n - 1)) (cneg r) ;;
  B1 <- setitem_pairs B0 (np.arange 0 n) (np.arange 0 n) q ;;
  B2 <- setitem_scalar B1 (np.arange 0 (n - 1)) (np.arange 1 n) r ;;
  B3 <- setitem_scalar B2 (np.arange 1 n) (np.arange 0 (n - 1)) r ;;
  b1 <- setitem1 b0 0 (of_float 0) ;;
  b2 <- setitem1 b1 (-1) (of_float 0) ;;
  lu_ <- splu A3 ;;
  ret (A3, B3, b2, lu_).

(** [NumericalCalculation.__init__] *)
Definition __init__ (a : params) : M NumericalCalculation :=
  let size_packet_ := arg_size_packet a * 1e-9 in
  let size_barrier_ := arg_size_barrier a * 1e-9 in
  let time_duration_ := arg_duration_time a * 1e-15 in
  let energy_packet_ := arg_energy_packet a * e in
  let potential_barrier_height_ := arg_potential_barrier_height a * e in
  let dx_ := arg_dx a * 1e-12 in
  let dt_ := arg_dt a * 1e-18 in
  let sigma := 6 * size_packet_ in
  let x_packet_ := 2 * sigma in
  let x_barrier_ := x_packet_ + sigma in
  let x_min_ := 0 in
  let x_max_ := x_barrier_ + 4 * sigma in
  qx <- Py.truediv (x_max_ - x_min_) dx_ ;;
  division_x_ <- Py.int qx ;;
  x_ <- np.linspace x_min_ x_max_ division_x_ ;;
  qt <- Py.truediv time_duration_ dt_ ;;
  division_time_ <- Py.int qt ;;
  t_ <- np.linspace 0 time_duration_ division_time_ ;;
  let V_ := np.where_
              (map (fun xi => (x_barrier_ <=? xi) && (xi <=? x_barrier_ + size_barrier_)) x_)
              potential_barrier_height_ 0 in
  let k_ := sqrt (2 * m_e * energy_packet_) / hbar in
  dk_ <- Py.truediv (2 * np.pi) (x_max_ - x_min_) ;;
  lin <- np.linspace (-1) 1 division_x_ ;;
  let K_ := map (fun v => dk_ * v) lin in
  num <- _get_numerical_parameters division_x_ dt_ dx_ V_ ;;
  let '(A_, B_, b_, lu_) := num in
  packet_ <- mapM (_gauss x_packet_ size_packet_ k_) x_ ;;
  Bp <- matvec B_ (interior packet_) ;;
  rhs_eq_ <- np_add Bp b_ ;;
  ret {| size_packet := size_packet_; size_barrier := size_barrier_;
         time_duration := time_duration_; energy_packet := energy_packet_;
         potential_barrier_height := potential_barrier_height_;
         dx := dx_; dt := dt_;
         x_packet := x_packet_; x_barrier := x_barrier_;
         x_min := x_min_; x_max := x_max_;
         division_x := division_x_; x := x_;
         division_time := division_time_; t := t_;
         V := V_; k := k_; dk := dk_; K := K_;
         A := A_; B := B_; b := b_; lu := lu_;
         packet := packet_; rhs_eq := rhs_eq_ |}.

(** The two fields [calculate_timestep] assigns. *)
Definition set_packet_rhs (self : NumericalCalculation) (p r : list C)
    : NumericalCalculation :=
  {| size_packet := size_packet self; size_barrier := size_barrier self;
     time_duration := time_duration self; energy_packet := energy_packet self;
     potential_barrier_height := potential_barrier_height self;
     dx := dx self; dt := dt self;
     x_packet := x_packet self; x_barrier := x_barrier self;
     x_min := x_min self; x_max := x_max self;
     division_x := division_x self; x := x self;
     division_time := division_time self; t := t self;
     V := V self; k := k self; dk := dk self; K := K self;
     A := A self; B := B self; b := b self; lu := lu self;
     packet := p; rhs_eq := r |}.

(** [calculate_timestep] *)
Definition calculate_timestep (self : NumericalCalculation) : M NumericalCalculation :=
  sol <- lu_solve (lu self) (rhs_eq self) ;;
  packet' <- setitem_interior (packet self) sol ;;
  Bp <- matvec (B self) (interior packet') ;;
  rhs' <- np_add Bp (b self) ;;
  ret (set_packet_rhs self packet' rhs').

(** [get_packet]: a copy of the state vector. *)
Definition get_packet (self : NumericalCalculation) : list C := packet self.

(** [n] calls of [calculate_timestep] in sequence, as the simulation loop
    issues them. *)
Fixpoint advance (n : nat) (self : NumericalCalculation) : M NumericalCalculation :=
  match n with
  | O => ret self
  | S n' => self' <- calculate_timestep self ;; advance n' self'
  end.

End Integrator.

(** ** An instance for evaluation

    Complex values are kept as the expressions that compute them, so that
    the constructor and the stepping method run on concrete parameters and
    every entry of a result shows how the program obtained it. *)

Module Sym.
Open Scope float_scope.

Inductive cx : Type :=
| CFloat (f : float)
| CJ
| CNeg (z : cx)
| CAdd (u v : cx)
| CSub (u v : cx)
| CMul (u v : cx)
| CDiv (u v : cx)
| CExp (z : cx)
| CSolve (m : list (list cx)) (rhs : list cx) (i : nat).

Definition is_zero (z : cx) : bool :=
  match z with
  | CFloat f => Py.is_zero f
  | _ => false
  end.

(** [pow] on the two exponents the program uses. *)
Definition pow (u v : float) : float :=
  if PrimFloat.eqb v 2 then u * u
  else if PrimFloat.eqb v 0.25 then sqrt (sqrt u)
  else nan.

(** The CODATA 2018 values of [scipy.constants]. *)
Definition numerics : Numerics := {|
  hbar := 1.0545718176461565e-34;
  m_e := 9.1093837015e-31;
  e := 1.602176634e-19;
  fpow := pow;
  C := cx;
  cj := CJ;
  of_float := CFloat;
  cneg := CNeg;
  cadd := CAdd;
  csub := CSub;
  cmul := CMul;
  cdiv := CDiv;
  cexp := CExp;
  c_is_zero := is_zero;
  factors := list (list cx);
  factorize := fun m => OK m;
  solve_at := CSolve
|}.
End Sym.

(** The default values of the front end ([SimulationConfig.DEFAULT_VALUES]). *)
Definition default_params : params := {|
  arg_size_packet := 1;
  arg_size_barrier := 1;
  arg_duration_time := 30;
  arg_energy_packet := 1;
  arg_potential_barrier_height := 1;
  arg_dx := 10;
  arg_dt := 10
|}.

(** The smallest grid: three points, the interior one inside a wide
    barrier. *)
Definition three_point_params : params := {|
  arg_size_packet := 1;
  arg_size_barrier := 10;
  arg_duration_time := 30;
  arg_energy_packet := 1;
  arg_potential_barrier_height := 1;
  arg_dx := 13000;
  arg_dt := 10
|}.

(** A coarse grid: five points, one of them inside a wide barrier. *)
Definition coarse_params : params := {|
  arg_size_packet := 1;
  arg_size_barrier := 10;
  arg_duration_time := 30;
  arg_energy_packet := 1;
  arg_potential_barrier_height := 1;
  arg_dx := 8000;
  arg_dt := 10
|}.

(** ** The values the constructor computes

    The expressions of the source without their exception checks, used to
    state what a successful construction has built. *)

Section Values.
Context {num : Numerics}.
Open Scope float_scope.

(** [1j * dt / dx ** 2 * hbar / (4 * m_e)] *)
Definition r_value (dt_ dx_ : float) : C :=
  cdiv (cmul (cdiv (cmul cj (of_float dt_)) (of_float (fpow dx_ 2)))
             (of_float hbar))
       (of_float (4 * m_e)).

(** [-1j * dt / hbar * v + 1 - 2 * r] *)
Definition q_value (dt_ : float) (r : C) (vi : float) : C :=
  csub (cadd (cmul (cdiv (cmul (cneg cj) (of_float dt_)) (of_float hbar))
                   (of_float vi))
             (of_float 1))
       (cmul (of_float 2) r).

(** [exp(-(x - xp)**2 / (4*sp**2) + 1j*k*x) / (2*pi*sp**2)**0.25] *)
Definition gauss_value (xp sp kp xi : float) : C :=
  cdiv (cexp (cadd (of_float ((- fpow (xi - xp) 2) / (4 * fpow sp 2)))
                   (cmul (cmul cj (of_float kp)) (of_float xi))))
       (of_float (fpow (2 * np.pi * fpow sp 2) 0.25)).

(** The [n] by [n] array with [diag i] at [(i, i)], [off] at [(i, i+1)] and
    [(i+1, i)], and zero elsewhere. *)
Definition tridiag (n : nat) (diag : nat -> C) (off : C) : matrix :=
  map (fun i =>
         map (fun j => if (i =? j)%nat then diag i
                       else if ((j =? S i) || (i =? S j))%nat%bool then off
                       else c0)
             (seq 0 n))
      (seq 0 n).

(** [A] and [B] for [n] interior points, from [r] and the array [q]. *)
Definition A_value (n : nat) (r : C) : matrix :=
  tridiag n (fun _ => cadd (of_float 1) (cmul (of_float 2) r)) (cneg r).

Definition B_value (n : nat) (q : list C) (r : C) : matrix :=
  tridiag n (fun i => nth i q c0) r.

Definition is_square (n : nat) (m : matrix) : Prop :=
  length m = n /\ Forall (fun row => length row = n) m.

(** The arguments in SI units, and the positions derived from them. *)
Definition si_size_packet (a : params) : float := arg_size_packet a * 1e-9.
Definition si_size_barrier (a : params) : float := arg_size_barrier a * 1e-9.
Definition si_time_duration (a : params) : float := arg_duration_time a * 1e-15.
Definition si_energy_packet (a : params) : float := arg_energy_packet a * e.
Definition si_barrier_height (a : params) : float :=
  arg_potential_barrier_height a * e.
Definition si_dx (a : params) : float := arg_dx a * 1e-12.
Definition si_dt (a : params) : float := arg_dt a * 1e-18.

Definition sigma_of (a : params) : float := 6 * si_size_packet a.
Definition x_packet_of (a : params) : float := 2 * sigma_of a.
Definition x_barrier_of (a : params) : float := x_packet_of a + sigma_of a.
Definition x_max_of (a : params) : float := x_barrier_of a + 4 * sigma_of a.

(** [int((x_max - x_min) / dx)] and [int(time_duration / dt)], when the
    quotients are finite. *)
Definition division_x_of (a : params) : option Z :=
  Py.trunc ((x_max_of a - 0) / si_dx a).
Definition division_time_of (a : params) : option Z :=
  Py.trunc (si_time_duration a / si_dt a).

Definition k_of (a : params) : float :=
  sqrt (2 * m_e * si_energy_packet a) / hbar.

Definition x_of (a : params) (N : Z) : list float :=
  np.linspace_array 0 (x_max_of a) N.

Definition V_of (a : params) (N : Z) : list float :=
  np.where_
    (map (fun xi => (x_barrier_of a <=? xi)
                    && (xi <=? x_barrier_of a + si_size_barrier a))
         (x_of a N))
    (si_barrier_height a) 0.

Definition A_of (a : params) (N : Z) : matrix :=
  A_value (Z.to_nat (N - 2)) (r_value (si_dt a) (si_dx a)).

Definition B_of (a : params) (N : Z) : matrix :=
  let r := r_value (si_dt a) (si_dx a) in
  B_value (Z.to_nat (N - 2)) (map (q_value (si_dt a) r) (interior (V_of a N))) r.

Definition packet_of (a : params) (N : Z) : list C :=
  map (gauss_value (x_packet_of a) (si_size_packet a) (k_of a)) (x_of a N).

(** [B @ v + b] for arrays of one length *)
Definition rhs_value (m : matrix) (v bv : list C) : list C :=
  map (fun uv => cadd (fst uv) (snd uv))
      (combine (map (fun row => sparse_dot row v) m) bv).

(** The instance a construction returns: [N] and [T] are the two grid sizes
    and [f] the factors of [A]. *)
Definition built (a : params) (N T : Z) (f : factors) : NumericalCalculation :=
  {| size_packet := si_size_packet a; size_barrier := si_size_barrier a;
     time_duration := si_time_duration a; energy_packet := si_energy_packet a;
     potential_barrier_height := si_barrier_height a;
     dx := si_dx a; dt := si_dt a;
     x_packet := x_packet_of a; x_barrier := x_barrier_of a;
     x_min := 0; x_max := x_max_of a;
     division_x := N; x := x_of a N;
     division_time := T; t := np.linspace_array 0 (si_time_duration a) T;
     V := V_of a N; k := k_of a;
     dk := (2 * np.pi) / (x_max_of a - 0);
     K := map (fun v => ((2 * np.pi) / (x_max_of a - 0)) * v)
              (np.linspace_array (-1) 1 N);
     A := A_of a N; B := B_of a N;
     b := repeat c0 (Z.to_nat (N - 2));
     lu := {| shape := Z.to_nat (N - 2); lu_factors := f |};
     packet := packet_of a N;
     rhs_eq := rhs_value (B_of a N) (interior (packet_of a N))
                         (repeat c0 (Z.to_nat (N - 2))) |}.

(** When [u ** v] raises [OverflowError]. *)
Definition pow_overflows (u v : float) : bool :=
  Py.is_finite u && Py.is_finite v && Py.is_inf (fpow u v).

(** The arithmetic of a construction raises nothing: no division by zero
    and no overflow in a power. *)
Definition arithmetic_ok (a : params) : bool :=
  negb (Py.is_zero (si_dx a))
  && negb (Py.is_zero (si_dt a))
  && negb (Py.is_zero (x_max_of a - 0))
  && negb (pow_overflows (si_dx a) 2)
  && negb (Py.is_zero (fpow (si_dx a) 2))
  && negb (Py.is_zero (4 * m_e))
  && negb (Py.is_zero hbar)
  && negb (pow_overflows (si_size_packet a) 2)
  && negb (pow_overflows (2 * np.pi * fpow (si_size_packet a) 2) 0.25).

(** The step of [np.linspace(start, stop, num)]. *)
Definition linspace_step (start stop : float) (num : Z) : float :=
  (stop - start) / Py.float_of_Z (num - 1).

(** The array sizes of an instance fit together: [n + 2] grid points for
    [n] interior unknowns. *)
Definition consistent (self : NumericalCalculation) : Prop :=
  exists n : nat,
    length (packet self) = (n + 2)%nat /\ length (B self) = n
    /\ length (b self) = n /\ shape (lu self) = n /\ length (rhs_eq self) = n.

(** [rhs_eq] is what [B @ packet[1:-1] + b] evaluates to. *)
Definition cache_valid (self : NumericalCalculation) : Prop :=
  forall c,
    (Bp <- matvec (B self) (interior (packet self)) ;; np_add Bp (b self)) c
    = OK (rhs_eq self, c).

(** The product of a row and a vector: the sum over all entries of the row,
    from zero and in column order; and the product [m . v] of a matrix and
    a vector. *)
Definition dot (row v : list C) : C :=
  fold_left (fun acc av => cadd acc (cmul (fst av) (snd av))) (combine row v) c0.

Definition mat_vec (m : matrix) (v : list C) : list C :=
  map (fun row => dot row v) m.

(** What the program uses SuperLU for: the array [splu(m).solve(rhs)] is the
    solution [x] of [m . x = rhs].  With the arithmetic of [complex128]
    SuperLU keeps this promise up to rounding; a solver that computes
    exactly keeps it as it stands. *)
Definition solves (m : matrix) (f : factors) : Prop :=
  forall rhs, length rhs = length m ->
    mat_vec m (map (solve_at f rhs) (seq 0 (length rhs))) = rhs.

Definition exact_solver : Prop :=
  forall m f, factorize m = OK f -> solves m f.

End Values.

(** ** Concrete parameters and the instances built from them *)

(** A grid too coarse: two points. *)
Definition two_point_params : params := {|
  arg_size_packet := 1;
  arg_size_barrier := 1;
  arg_duration_time := 30;
  arg_energy_packet := 1;
  arg_potential_barrier_height := 1;
  arg_dx := 20000;
  arg_dt := 10
|}.

(** A time step longer than the duration: no time point at all. *)
Definition short_params : params := {|
  arg_size_packet := 1;
  arg_size_barrier := 10;
  arg_duration_time := 1;
  arg_energy_packet := 1;
  arg_potential_barrier_height := 1;
  arg_dx := 8000;
  arg_dt := 2000
|}.

(** Negative energy, barrier height and barrier size. *)
Definition negative_params : params := {|
  arg_size_packet := 1;
  arg_size_barrier := -1;
  arg_duration_time := 30;
  arg_energy_packet := -1;
  arg_potential_barrier_height := -1;
  arg_dx := 8000;
  arg_dt := 10
|}.

Definition coarse_instance : @NumericalCalculation Sym.numerics :=
  @built Sym.numerics coarse_params 5 3000 (@A_of Sym.numerics coarse_params 5).

Definition default_instance : @NumericalCalculation Sym.numerics :=
  @built Sym.numerics default_params 4200 3000
         (@A_of Sym.numerics default_params 4200).

(** ** Further parameters for evaluation *)

(** A spatial step of zero. *)
Definition zero_dx_params : params := {|
  arg_size_packet := 1;
  arg_size_barrier := 1;
  arg_duration_time := 30;
  arg_energy_packet := 1;
  arg_potential_barrier_height := 1;
  arg_dx := 0;
  arg_dt := 10
|}.

(** A time step of zero. *)
Definition zero_dt_params : params := {|
  arg_size_packet := 1;
  arg_size_barrier := 1;
  arg_duration_time := 30;
  arg_energy_packet := 1;
  arg_potential_barrier_height := 1;
  arg_dx := 8000;
  arg_dt := 0
|}.

(** A packet of size zero: the domain has no extent. *)
Definition zero_size_params : params := {|
  arg_size_packet := 0;
  arg_size_barrier := 1;
  arg_duration_time := 30;
  arg_energy_packet := 1;
  arg_potential_barrier_height := 1;
  arg_dx := 10;
  arg_dt := 10
|}.

(** One grid point. *)
Definition one_point_params : params := {|
  arg_size_packet := 1;
  arg_size_barrier := 1;
  arg_duration_time := 30;
  arg_energy_packet := 1;
  arg_potential_barrier_height := 1;
  arg_dx := 30000;
  arg_dt := 10
|}.

(** A negative time step. *)
Definition negative_dt_params : params := {|
  arg_size_packet := 1;
  arg_size_barrier := 1;
  arg_duration_time := 30;
  arg_energy_packet := 1;
  arg_potential_barrier_height := 1;
  arg_dx := 8000;
  arg_dt := -10
|}.

(** [float("nan")] as spatial step, [float("inf")] as packet size. *)
Definition nan_dx_params : params := {|
  arg_size_packet := 1;
  arg_size_barrier := 1;
  arg_duration_time := 30;
  arg_energy_packet := 1;
  arg_potential_barrier_height := 1;
  arg_dx := nan;
  arg_dt := 10
|}.

Definition inf_size_params : params := {|
  arg_size_packet := infinity;
  arg_size_barrier := 1;
  arg_duration_time := 30;
  arg_energy_packet := 1;
  arg_potential_barrier_height := 1;
  arg_dx := 10;
  arg_dt := 10
|}.

(** A time step of 1e-20 as: about 3e24 time points, on a grid of two
    points. *)
Definition tiny_dt_params : params := {|
  arg_size_packet := 1;
  arg_size_barrier := 1;
  arg_duration_time := 30;
  arg_energy_packet := 1;
  arg_potential_barrier_height := 1;
  arg_dx := 20000;
  arg_dt := 1e-20
|}.

(** No barrier: a height of zero. *)
Definition free_params : params := {|
  arg_size_packet := 1;
  arg_size_barrier := 10;
  arg_duration_time := 30;
  arg_energy_packet := 1;
  arg_potential_barrier_height := 0;
  arg_dx := 8000;
  arg_dt := 10
|}.

Section Stencil.
Context {num : Numerics}.

(** One stored entry [a] of a sparse row, met with the vector entry [v]
    while the sum stands at [acc]. *)
Definition add_term (acc a v : C) : C :=
  if c_is_zero a then acc else cadd acc (cmul a v).

(** Row [i] of [B] times the interior of the state vector [p], written out:
    the left neighbour (absent in the first row), the point itself, the
    right neighbour (absent in the last row). *)
Definition three_point (n : nat) (r : C) (q : nat -> C) (p : list C) (i : nat) : C :=
  let left := if (0 <? i)%nat then add_term c0 r (nth i p c0) else c0 in
  let mid := add_term left (q i) (nth (S i) p c0) in
  if (S i <? n)%nat then add_term mid r (nth (S (S i)) p c0) else mid.

(** [B @ p[1:-1] + b] written out for the state vector [p]: one three-point
    sum per interior point, plus the zero of [b]. *)
Definition stencil_rhs (n : nat) (r : C) (q : nat -> C) (p : list C) : list C :=
  map (fun i => cadd (three_point n r q p i) c0) (seq 0 n).

End Stencil.

(** ** An instance that computes exactly

    The complex numbers with rational real and imaginary part hold the
    value of every finite float, and their arithmetic is exact.  The solver
    of this instance inverts a matrix by elimination and accepts the result
    only after it has multiplied it back; the systems it solves, it solves
    exactly. *)

Module Exact.
Import QArith Qcanon.
Local Open Scope Qc_scope.

Definition cx : Type := (Qc * Qc)%type.

Definition zero : cx := (0, 0).
Definition one : cx := (1, 0).
Definition j : cx := (0, 1).
Definition add (u v : cx) : cx := (fst u + fst v, snd u + snd v).
Definition neg (u : cx) : cx := (- fst u, - snd u).
Definition sub (u v : cx) : cx := (fst u - fst v, snd u - snd v).
Definition mul (u v : cx) : cx :=
  (fst u * fst v - snd u * snd v, fst u * snd v + snd u * fst v).
Definition inv (u : cx) : cx :=
  let d := fst u * fst u + snd u * snd u in (fst u / d, - snd u / d).
Definition div (u v : cx) : cx := mul u (inv v).

Definition eqb (u v : cx) : bool :=
  Qeq_bool (fst u) (fst v) && Qeq_bool (snd u) (snd v).

Definition is_zero (u : cx) : bool := eqb u zero.

(** The value of a finite float, [(-1)^s * m * 2^e]; zero for the others. *)
Definition Q_of_float (f : float) : Q :=
  match Prim2SF f with
  | S754_finite s m ex =>
      let mag := match ex with
                 | Zneg q => Qmake (Zpos m) (2 ^ q)%positive
                 | _ => Qmake (Zpos m * 2 ^ ex)%Z 1
                 end in
      if s then Qopp mag else mag
  | _ => 0%Q
  end.

Definition from_float (f : float) : cx := (Q2Qc (Q_of_float f), 0).

(** The exponential has no exact value here: the instance takes the first
    terms of its series, [1 + z + z^2 / 2]. *)
Definition exp (z : cx) : cx :=
  add (add one z) (div (mul z z) (Q2Qc (2 # 1), 0)).

(** *** The solver *)

(** The sum of a list, and the product of a row and a vector. *)
Definition total (l : list cx) : cx := fold_right add zero l.

Definition row_dot (row v : list cx) : cx :=
  fold_left (fun acc av => add acc (mul (fst av) (snd av))) (combine row v) zero.

Definition delta (i k : nat) : cx := if (i =? k)%nat then one else zero.

Definition identity (n : nat) : list (list cx) :=
  map (fun i => map (delta i) (seq 0 n)) (seq 0 n).

(** Elimination on the rows of [(m | 1)], column by column, without
    exchange of rows: [None] when it meets a pivot that is zero. *)
Fixpoint eliminate (fuel col : nat) (rows : list (list cx))
    : option (list (list cx)) :=
  match fuel with
  | O => Some rows
  | S fuel' =>
      let prow := nth col rows [] in
      let pivot := nth col prow zero in
      if is_zero pivot then None
      else
        let prow' := map (mul (inv pivot)) prow in
        let clear (i : nat) (row : list cx) : list cx :=
          if (i =? col)%nat then prow'
          else map (fun xp => sub (fst xp) (mul (nth col row zero) (snd xp)))
                   (combine row prow') in
        eliminate fuel' (S col)
                  (map (fun ir => clear (fst ir) (snd ir))
                       (combine (seq 0 (length rows)) rows))
  end.

Definition invert (m : list (list cx)) : list (list cx) :=
  let n := length m in
  match eliminate n 0 (map (fun rw => fst rw ++ snd rw) (combine m (identity n))) with
  | Some rows => map (skipn n) rows
  | None => []
  end.

Definition column (k : nat) (m : list (list cx)) : list cx :=
  map (fun row => nth k row zero) m.

Definition square (n : nat) (m : list (list cx)) : bool :=
  (length m =? n)%nat && forallb (fun row => (length row =? n)%nat) m.

(** [m . w = 1], for square [m] and [w] of one size *)
Definition is_inverse (m w : list (list cx)) : bool :=
  let n := length m in
  square n m && square n w
  && forallb (fun i =>
                forallb (fun k => eqb (row_dot (nth i m []) (column k w)) (delta i k))
                        (seq 0 n))
             (seq 0 n).

(** The factors are the inverse, once it is checked. *)
Definition checked_inverse (m : list (list cx)) : result (list (list cx)) :=
  let w := invert m in
  if is_inverse m w then OK w else Raise RuntimeError.

Definition solution_entry (w : list (list cx)) (rhs : list cx) (i : nat) : cx :=
  row_dot (nth i w []) rhs.

Definition numerics : Numerics := {|
  hbar := 1.0545718176461565e-34%float;
  m_e := 9.1093837015e-31%float;
  e := 1.602176634e-19%float;
  fpow := Sym.pow;
  C := cx;
  cj := j;
  of_float := from_float;
  cneg := neg;
  cadd := add;
  csub := sub;
  cmul := mul;
  cdiv := div;
  cexp := exp;
  c_is_zero := is_zero;
  factors := list (list cx);
  factorize := checked_inverse;
  solve_at := solution_entry
|}.

End Exact.


(** ** The simulation loop of [workers.py]

    [SimulationWorker.run] drives an instance: it plots the initial state,
    steps [division_time] times, plots every [export_ith_image]-th state and
    reports progress.  What it sends out (the calls of
    [Visualization.plot_wave_packet] and the Qt signals) is kept as a list
    of events.  The flag [self.running], which [stop] clears from another
    thread, is read through [running]: the value the [n]-th read of the
    flag finds. *)

Section Worker.
Context {num : Numerics}.

Inductive event : Type :=
| PlotWavePacket (packet_ : list C) (time_step_index : Z)
| Progress (percent : Z)
| Finished
| Interrupted.

(** [i % j] on Python integers. *)
Definition py_mod (i j : Z) : M Z :=
  if (j =? 0)%Z then raise ZeroDivisionError else ret (i mod j)%Z.

(** [i / j] on Python integers below 2^53 in absolute value. *)
Definition py_int_truediv (i j : Z) : M float :=
  if (j =? 0)%Z then raise ZeroDivisionError
  else ret (Py.float_of_Z i / Py.float_of_Z j)%float.

(** [_emit_progress]: the percentage it emits. *)
Definition _emit_progress (i t_steps : Z) : M event :=
  quot <- py_int_truediv i t_steps ;;
  p <- Py.int (quot * 100)%float ;;
  ret (Progress p).

(** The body of the [for] loop of [run], over the indices still to come:
    [reads] counts the reads of [self.running] so far. *)
Fixpoint run_loop (running : nat -> bool) (export_ith_image t_steps : Z)
    (indices : list Z) (reads : nat) (calc : NumericalCalculation)
    (log : list event) : M (NumericalCalculation * list event * nat) :=
  match indices with
  | [] => ret (calc, log, reads)
  | i :: indices' =>
      if negb (running reads) then ret (calc, log, S reads)
      else
        calc' <- calculate_timestep calc ;;
        rem <- py_mod i export_ith_image ;;
        let log1 := if (rem =? 0)%Z
                    then log ++ [PlotWavePacket (get_packet calc') i]
                    else log in
        ev <- _emit_progress i t_steps ;;
        run_loop running export_ith_image t_steps indices' (S reads) calc'
                 (log1 ++ [ev])
  end.

(** [SimulationWorker.run] *)
Definition run (running : nat -> bool) (export_ith_image : Z)
    (calc : NumericalCalculation) : M (NumericalCalculation * list event) :=
  let log0 := [PlotWavePacket (get_packet calc) 0] in
  let t_steps := division_time calc in
  res <- run_loop running export_ith_image t_steps
           (np.arange 1 (t_steps + 1)) 0 calc log0 ;;
  let '(calc', log, reads) := res in
  if running reads
  then ret (calc', log ++ [Finished; Progress 100])
  else ret (calc', log ++ [Interrupted]).

(** The frames and the percentages among the events. *)
Definition frames (log : list event) : list (Z * list C) :=
  flat_map (fun ev => match ev with
                      | PlotWavePacket p i => [(i, p)]
                      | _ => []
                      end) log.

Definition percentages (log : list event) : list Z :=
  flat_map (fun ev => match ev with Progress p => [p] | _ => [] end) log.

(** [int(i / t_steps * 100)], when the product is finite. *)
Definition percent_of (i t_steps : Z) : option Z :=
  Py.trunc (Py.float_of_Z i / Py.float_of_Z t_steps * 100)%float.

(** Every percentage of a run of [t_steps] steps is defined. *)
Definition percentages_defined (t_steps : Z) : bool :=
  forallb (fun i => match percent_of i t_steps with Some _ => true | None => false end)
          (np.arange 1 (t_steps + 1)).

End Worker.

(** A brief run on the coarse grid: four time steps. *)
Definition brief_params : params := {|
  arg_size_packet := 1;
  arg_size_barrier := 10;
  arg_duration_time := 0.04;
  arg_energy_packet := 1;
  arg_potential_barrier_height := 1;
  arg_dx := 8000;
  arg_dt := 10
|}.

Definition brief_instance : @NumericalCalculation Sym.numerics :=
  @built Sym.numerics brief_params 5 4 (@A_of Sym.numerics brief_params 5).

(** The flag [self.running] when [stop] is never called, and when it is
    called so that the third read of the flag is the first to find it
    cleared. *)
Definition never_stopped : nat -> bool := fun _ => true.
Definition stopped_at_third_read : nat -> bool := fun r => (r <? 2)%nat.

(** ** Frame files: [visualization.py] writes them, [workers.py] lists them

    [Visualization.plot_wave_packet] saves the frame of time step [i] as
    [frame_{i:04d}.png]; [ExportVideoWorker.__init__] lists the image
    folder, keeps the names that look like frames and sorts them by their
    number.  Names are strings of ASCII characters: beyond ASCII, Python's
    [isdigit] accepts digits that [int] refuses, and names with such
    characters are not covered here. *)

Module Str.
Import Ascii.
Local Open Scope char_scope.

Definition str : Type := list ascii.

(** A character of ASCII has a code below 128; an ASCII name has no other
    character. *)
Definition is_ascii (ch : ascii) : bool := (N_of_ascii ch <? 128)%N.

Definition ascii_name (f : str) : bool := forallb is_ascii f.

(** [s.startswith(prefix)] *)
Fixpoint startswith (prefix s : str) : bool :=
  match prefix, s with
  | [], _ => true
  | _ :: _, [] => false
  | p :: prefix', ch :: s' => Ascii.eqb p ch && startswith prefix' s'
  end.

(** [s.split(sep)] for a separator of one character *)
Fixpoint split (sep : ascii) (s : str) : list str :=
  match s with
  | [] => [[]]
  | ch :: s' =>
      if Ascii.eqb ch sep then [] :: split sep s'
      else match split sep s' with
           | part :: parts => (ch :: part) :: parts
           | [] => [[ch]]
           end
  end.

Definition digit_of_char (ch : ascii) : option (Decimal.uint -> Decimal.uint) :=
  match ch with
  | "0" => Some Decimal.D0
  | "1" => Some Decimal.D1
  | "2" => Some Decimal.D2
  | "3" => Some Decimal.D3
  | "4" => Some Decimal.D4
  | "5" => Some Decimal.D5
  | "6" => Some Decimal.D6
  | "7" => Some Decimal.D7
  | "8" => Some Decimal.D8
  | "9" => Some Decimal.D9
  | _ => None
  end.

Definition is_digit_char (ch : ascii) : bool :=
  match digit_of_char ch with Some _ => true | None => false end.

(** [s.isdigit()] on a string of ASCII characters, whose digits are [0] to
    [9] *)
Definition isdigit (s : str) : bool :=
  match s with
  | [] => false
  | _ :: _ => forallb is_digit_char s
  end.

Fixpoint uint_of_digits (s : str) : option Decimal.uint :=
  match s with
  | [] => Some Decimal.Nil
  | ch :: s' =>
      match digit_of_char ch, uint_of_digits s' with
      | Some d, Some u => Some (d u)
      | _, _ => None
      end
  end.

Fixpoint digits_of_uint (u : Decimal.uint) : str :=
  match u with
  | Decimal.Nil => []
  | Decimal.D0 u' => "0" :: digits_of_uint u'
  | Decimal.D1 u' => "1" :: digits_of_uint u'
  | Decimal.D2 u' => "2" :: digits_of_uint u'
  | Decimal.D3 u' => "3" :: digits_of_uint u'
  | Decimal.D4 u' => "4" :: digits_of_uint u'
  | Decimal.D5 u' => "5" :: digits_of_uint u'
  | Decimal.D6 u' => "6" :: digits_of_uint u'
  | Decimal.D7 u' => "7" :: digits_of_uint u'
  | Decimal.D8 u' => "8" :: digits_of_uint u'
  | Decimal.D9 u' => "9" :: digits_of_uint u'
  end.

(** [int(s)] on a string of digits; the other strings [int] accepts (signs,
    blanks, underscores) do not pass [isdigit] and never reach it here. *)
Definition int (s : str) : M Z :=
  if isdigit s then
    match uint_of_digits s with
    | Some u => ret (Z.of_N (N.of_uint u))
    | None => raise ValueError
    end
  else raise ValueError.

(** [f"{i:04d}"]: the decimal digits, filled with zeros to four characters,
    the sign of a negative number counted in. *)
Definition format_04d (i : Z) : str :=
  let digits := digits_of_uint (N.to_uint (Z.abs_N i)) in
  if (i <? 0)%Z then "-" :: repeat "0" (3 - length digits) ++ digits
  else repeat "0" (4 - length digits) ++ digits.

(** The file name in [fig_name] of [plot_wave_packet]. *)
Definition frame_file (time_step_index : Z) : str :=
  ["f"; "r"; "a"; "m"; "e"; "_"] ++ format_04d time_step_index
  ++ ["."; "p"; "n"; "g"].

(** [l[i]] *)
Definition getitem {T} (l : list T) (i : nat) : M T :=
  match nth_error l i with
  | Some v => ret v
  | None => raise IndexError
  end.

(** [f.split('_')[1].split('.')[0]] *)
Definition number_part (f : str) : M str :=
  second <- getitem (split "_" f) 1 ;;
  getitem (split "." second) 0.

(** The condition of the list comprehension: [and] evaluates its right
    side only for names that start with [frame_]. *)
Definition is_frame (f : str) : M bool :=
  if startswith ["f"; "r"; "a"; "m"; "e"; "_"] f
  then (part <- number_part f ;; ret (isdigit part))
  else ret false.

(** The sort key: [int(x.split('_')[1].split('.')[0])] *)
Definition frame_number (f : str) : M Z :=
  part <- number_part f ;; int part.

Fixpoint filterM {T} (keep : T -> M bool) (l : list T) : M (list T) :=
  match l with
  | [] => ret []
  | v :: l' =>
      b <- keep v ;;
      rest <- filterM keep l' ;;
      ret (if b then v :: rest else rest)
  end.

(** [sorted(l, key=...)]: the keys are computed first; the sort is stable,
    and every stable sort returns the same list, here by insertion. *)
Fixpoint insert_by_key {T} (kv : Z * T) (l : list (Z * T)) : list (Z * T) :=
  match l with
  | [] => [kv]
  | kw :: l' =>
      if (fst kv <=? fst kw)%Z then kv :: l else kw :: insert_by_key kv l'
  end.

Fixpoint sort_by_key {T} (l : list (Z * T)) : list (Z * T) :=
  match l with
  | [] => []
  | kv :: l' => insert_by_key kv (sort_by_key l')
  end.

Definition sorted {T} (l : list T) (key : T -> M Z) : M (list T) :=
  keys <- mapM key l ;;
  ret (map snd (sort_by_key (combine keys l))).

(** What the filter and the key compute, where they raise nothing: the text
    between the first underscore and the following dot, whether a name
    looks like a frame, and its number. *)
Definition number_text (f : str) : str :=
  nth 0 (split "." (nth 1 (split "_" f) [])) [].

Definition looks_like_frame (f : str) : bool :=
  startswith ["f"; "r"; "a"; "m"; "e"; "_"] f && isdigit (number_text f).

Definition number_value (f : str) : Z :=
  match uint_of_digits (number_text f) with
  | Some u => Z.of_N (N.of_uint u)
  | None => 0
  end.

(** [self.image_names] of [ExportVideoWorker.__init__], for the names
    [os.listdir] returned. *)
Definition image_names (listing : list str) : M (list str) :=
  kept <- filterM is_frame listing ;;
  sorted kept frame_number.

(** The name [_initialize_video_writer] reads first: [self.image_names[0]]. *)
Definition first_image (listing : list str) : M str :=
  names <- image_names listing ;;
  getitem names 0.

End Str.

(** ** The parameter form of [gui.py]

    [SimulationConfig], the construction of the entry fields in
    [QuantumTunnellingAppUI._initialize_entries], [get_parameter_values]
    and the construction of the integrator from the values read.  A
    [QLineEdit] is known by the order of its creation; the window keeps the
    text of every one, the dictionary [self.entries] and the rows of the
    form layouts, which are what the window shows. *)

Module Gui.
Import String.
Local Open Scope string_scope.

Inductive pyexn : Type :=
| KeyError
| Builtin (err : exn).

Inductive outcome (T : Type) : Type :=
| Returns (v : T)
| Raises (err : pyexn).
Arguments Returns {T} v.
Arguments Raises {T} err.

Definition and_then {T U} (r : outcome T) (f : T -> outcome U) : outcome U :=
  match r with
  | Returns v => f v
  | Raises err => Raises err
  end.

Notation "v <~ r ;; k" := (and_then r (fun v => k))
  (at level 61, r at next level, right associativity).

(** Dictionaries with string keys, in insertion order. *)
Fixpoint lookup {V} (d : list (string * V)) (key : string) : option V :=
  match d with
  | [] => None
  | (key', v) :: d' => if String.eqb key' key then Some v else lookup d' key
  end.

(** [d[key]] *)
Definition getitem {V} (d : list (string * V)) (key : string) : outcome V :=
  match lookup d key with
  | Some v => Returns v
  | None => Raises KeyError
  end.

(** [d[key] = v] *)
Fixpoint setitem {V} (d : list (string * V)) (key : string) (v : V)
    : list (string * V) :=
  match d with
  | [] => [(key, v)]
  | (key', v') :: d' =>
      if String.eqb key' key then (key', v) :: d'
      else (key', v') :: setitem d' key v
  end.

(** *** [SimulationConfig] *)

Definition PARAMETERS : list (string * string) := [
  ("Packet size [nm]:", "size_packet");
  ("Barrier size [nm]:", "size_barrier");
  ("Time duration [fs]:", "duration_time");
  ("Packet energy [eV]:", "energy_packet");
  ("Barrier height [eV]:", "potential_barrier_height");
  ("dx [pm]:", "dx");
  ("dt [as]:", "dt");
  ("Export every i-th image:", "export_ith_image");
  ("Video duration [s]:", "video_duration")
].

Definition DEFAULT_VALUES : list (string * Z) := [
  ("size_packet", 1%Z);
  ("size_barrier", 1%Z);
  ("duration_time", 30%Z);
  ("energy_packet", 1%Z);
  ("potential_barrier_height", 1%Z);
  ("dx", 10%Z);
  ("dt", 10%Z);
  ("export_ith_image", 20%Z);
  ("video_duration", 10%Z)
].

Definition CATEGORY_GROUPS : list (string * list string) := [
  ("packet", ["size_packet"; "energy_packet"]);
  ("barrier", ["size_barrier"; "potential_barrier_height"]);
  ("simulation", ["duration_time"; "dx"; "dt"]);
  ("export", ["export_ith_image"; "video_duration"])
].

Definition get_default_value (key : string) : outcome Z :=
  getitem DEFAULT_VALUES key.

Definition get_category_group_params (key : string) : outcome (list string) :=
  getitem CATEGORY_GROUPS key.

(** [str(i)] for an integer *)
Definition str (i : Z) : string :=
  DecimalString.NilZero.string_of_int (Z.to_int i).

(** *** [QuantumTunnellingAppUI] *)

Record window : Type := {
  line_edits : list string;
  entries : list (string * nat);
  group_layouts : list (string * list (string * nat))
}.

(** [_create_entry]: a new [QLineEdit] with the default text, registered
    under the key. *)
Definition _create_entry (key default_value : string) (win : window)
    : nat * window :=
  let entry := List.length (line_edits win) in
  (entry, {| line_edits := (line_edits win ++ [default_value])%list;
             entries := setitem (entries win) key entry;
             group_layouts := group_layouts win |}).

(** [key in members] *)
Definition member (key : string) (members : list string) : bool :=
  existsb (String.eqb key) members.

(** [_add_entry_row_in_group_layout] *)
Definition _add_entry_row_in_group_layout (item : string * string)
    (group_key : string) (win : window) : outcome window :=
  let (label, key) := item in
  default <~ get_default_value key ;;
  let default_value := str default in
  let (entry, win1) := _create_entry key default_value win in
  members <~ get_category_group_params group_key ;;
  if member key members then
    rows <~ getitem (group_layouts win1) group_key ;;
    Returns {| line_edits := line_edits win1;
               entries := entries win1;
               group_layouts := setitem (group_layouts win1) group_key
                                        (rows ++ [(label, entry)])%list |}
  else Returns win1.

Fixpoint for_each {T} (l : list T) (body : T -> window -> outcome window)
    (win : window) : outcome window :=
  match l with
  | [] => Returns win
  | v :: l' => win1 <~ body v win ;; for_each l' body win1
  end.

(** [_initialize_entries], on the window of [__init__] with its empty
    [self.entries]: a layout per group, then an entry for every parameter
    and every group. *)
Definition _initialize_entries : outcome window :=
  let group_keys := map fst CATEGORY_GROUPS in
  let win0 := {| line_edits := []; entries := [];
                 group_layouts := map (fun g => (g, [])) group_keys |} in
  for_each PARAMETERS
    (fun item => for_each group_keys (_add_entry_row_in_group_layout item))
    win0.

(** The window [_initialize_entries] builds. *)
Definition initial_window : window :=
  Eval vm_compute in
    match _initialize_entries with
    | Returns win => win
    | Raises _ => {| line_edits := []; entries := []; group_layouts := [] |}
    end.

(** The entry is in a row of a layout: the window shows it. *)
Definition displayed (win : window) (entry : nat) : bool :=
  existsb (fun layout => existsb (fun row => Nat.eqb (snd row) entry) (snd layout))
          (group_layouts win).

(** The user types [text] into the entry. *)
Definition user_types (win : window) (edit : nat * string) : window :=
  {| line_edits := list_set (line_edits win) (fst edit) (snd edit);
     entries := entries win;
     group_layouts := group_layouts win |}.

(** The values of the dictionary [get_parameter_values] returns. *)
Inductive pyval : Type :=
| PyFloat (f : float)
| PyInt (i : Z).

Section Reading.

(** [float(text)], with its [ValueError]. *)
Variable py_float : string -> result float.

Definition lift_result {T} (r : result T) : outcome T :=
  match r with
  | OK v => Returns v
  | Raise err => Raises (Builtin err)
  end.

Fixpoint read_entries (win : window) (items : list (string * nat))
    : outcome (list (string * pyval)) :=
  match items with
  | [] => Returns []
  | (key, entry) :: items' =>
      f <~ lift_result (py_float (nth entry (line_edits win) "")) ;;
      rest <~ read_entries win items' ;;
      Returns ((key, PyFloat f) :: rest)
  end.

Definition as_float (v : pyval) : float :=
  match v with
  | PyFloat f => f
  | PyInt i => Py.float_of_Z i
  end.

(** [int(v)] *)
Definition py_int (v : pyval) : outcome Z :=
  match v with
  | PyInt i => Returns i
  | PyFloat f =>
      match Py.int f 0 with
      | OK (i, _) => Returns i
      | Raise err => Raises (Builtin err)
      end
  end.

(** [get_parameter_values] *)
Definition get_parameter_values (win : window) : outcome (list (string * pyval)) :=
  params <~ read_entries win (entries win) ;;
  v <~ getitem params "export_ith_image" ;;
  i <~ py_int v ;;
  Returns (setitem params "export_ith_image" (PyInt i)).

Context {num : Numerics}.

(** [_initialize_numerical_calculation] *)
Definition _initialize_numerical_calculation (values : list (string * pyval))
    (c : nat) : outcome (NumericalCalculation * nat) :=
  size_packet_ <~ getitem values "size_packet" ;;
  size_barrier_ <~ getitem values "size_barrier" ;;
  duration_time_ <~ getitem values "duration_time" ;;
  energy_packet_ <~ getitem values "energy_packet" ;;
  potential_barrier_height_ <~ getitem values "potential_barrier_height" ;;
  dx_ <~ getitem values "dx" ;;
  dt_ <~ getitem values "dt" ;;
  lift_result
    (__init__ {| arg_size_packet := as_float size_packet_;
                 arg_size_barrier := as_float size_barrier_;
                 arg_duration_time := as_float duration_time_;
                 arg_energy_packet := as_float energy_packet_;
                 arg_potential_barrier_height := as_float potential_barrier_height_;
                 arg_dx := as_float dx_;
                 arg_dt := as_float dt_ |} c).

End Reading.

(** The keys of the seven parameters of the integrator. *)
Definition physics_keys : list string :=
  ["size_packet"; "size_barrier"; "duration_time"; "energy_packet";
   "potential_barrier_height"; "dx"; "dt"].

(** [float] on the texts of non-negative integers only, for evaluation. *)
Definition float_of_digits (text : string) : result float :=
  match DecimalString.NilZero.uint_of_string text with
  | Some u => OK (Py.float_of_Z (Z.of_N (N.of_uint u)))
  | None => Raise ValueError
  end.

End Gui.

(** ** The scales of [visualization.py]

    [Visualization.__init__] starts with three computations on the
    instance it is given, before it touches the plotting library. *)

Section Visualization.
Context {num : Numerics}.

(** [abs] of a [complex128], and numpy's maximum of a non-empty array. *)
Variable cabs : C -> float.
Variable maximum : list float -> float.

(** [np.max(a)] *)
Definition np_max (l : list float) : M float :=
  match l with
  | [] => raise ValueError
  | _ :: _ => ret (maximum l)
  end.

(** [self.packet_max], [self.scale_packet] and
    [self.scale_potential_barrier] *)
Definition visualization_scales (calc : NumericalCalculation)
    : M (float * float * float) :=
  packet_max <- np_max (map cabs (packet calc)) ;;
  let scale_packet := (1 / packet_max)%float in
  scale_potential_barrier <- Py.truediv 1 (potential_barrier_height calc) ;;
  ret (packet_max, scale_packet, scale_potential_barrier).

End Visualization.

(** * Properties *)

(** ** The monad *)

Lemma bind_OK {T U} (m : M T) (f : T -> M U) c v c' :
  bind m f c = OK (v, c') ->
  exists u c1, m c = OK (u, c1) /\ f u c1 = OK (v, c').
Proof.
  unfold bind. destruct (m c) as [[u c1]|err]; intros H.
  - exists u, c1. split; [reflexivity | exact H].
  - discriminate H.
Qed.

Lemma bind_ret {T U} (m : M T) (f : T -> M U) c u :
  m c = OK (u, c) -> bind m f c = f u c.
Proof. unfold bind. intros ->. reflexivity. Qed.

Lemma bind_step {T U} (m : M T) (f : T -> M U) c u c1 :
  m c = OK (u, c1) -> bind m f c = f u c1.
Proof. unfold bind. intros ->. reflexivity. Qed.

Lemma ret_OK {T} (u v : T) c c' : ret u c = OK (v, c') -> u = v /\ c = c'.
Proof. unfold ret. intros H. injection H as -> ->. split; reflexivity. Qed.

(** ** Arrays *)

Section Lists.
Context {T : Type}.

Lemma length_list_set (l : list T) i v : length (list_set l i v) = length l.
Proof.
  revert i. induction l as [|u l IH]; intros [|i]; simpl; try reflexivity.
  now rewrite IH.
Qed.

Lemma nth_list_set (l : list T) i v j d :
  i < length l ->
  nth j (list_set l i v) d = if (j =? i)%nat then v else nth j l d.
Proof.
  revert i j. induction l as [|u l IH]; intros i j Hi; simpl in Hi; [lia|].
  destruct i as [|i]; destruct j as [|j]; simpl; try reflexivity.
  apply IH. lia.
Qed.

Lemma list_set_same (l : list T) i d :
  list_set l i (nth i l d) = l.
Proof.
  revert i. induction l as [|u l IH]; intros [|i]; simpl; try reflexivity.
  now rewrite IH.
Qed.

Lemma length_interior (l : list T) : length (interior l) = length l - 2.
Proof.
  unfold interior. rewrite length_firstn, length_skipn. lia.
Qed.

Lemma nth_interior (l : list T) i d :
  i < length l - 2 -> nth i (interior l) d = nth (S i) l d.
Proof.
  intros Hi. unfold interior.
  rewrite nth_firstn.
  destruct (Nat.ltb_spec i (length l - 2)) as [_|Hge]; [|lia].
  rewrite nth_skipn. reflexivity.
Qed.

End Lists.

(** Case analysis on the comparisons of natural numbers in the goal, one at
    a time, dropping the impossible cases. *)
Ltac case_nat :=
  repeat match goal with
         | |- context [Nat.eqb ?u ?v] => destruct (Nat.eqb_spec u v); try lia
         | |- context [Nat.leb ?u ?v] => destruct (Nat.leb_spec u v); try lia
         | |- context [Nat.ltb ?u ?v] => destruct (Nat.ltb_spec u v); try lia
         end.

Section Arrays.
Context {num : Numerics}.

Lemma is_square_row n (m : matrix) i :
  is_square n m -> i < n -> length (nth i m []) = n.
Proof.
  intros [Hlen Hrows] Hi.
  rewrite Forall_forall in Hrows. apply Hrows. apply nth_In. lia.
Qed.

Lemma is_square_zeros n : is_square n (repeat (repeat c0 n) n).
Proof.
  split; [apply repeat_length|].
  apply Forall_forall. intros row Hin.
  apply repeat_spec in Hin. subst row. apply repeat_length.
Qed.

Lemma get_zeros n i j : get (repeat (repeat c0 n) n) i j = c0.
Proof.
  unfold get.
  destruct (Nat.lt_ge_cases i n) as [Hi|Hi].
  - rewrite nth_repeat_lt by exact Hi.
    destruct (Nat.lt_ge_cases j n) as [Hj|Hj].
    + now rewrite nth_repeat_lt.
    + apply nth_overflow. now rewrite repeat_length.
  - rewrite (nth_overflow (repeat (repeat c0 n) n)) by now rewrite repeat_length.
    now destruct j.
Qed.

Lemma is_square_mat_set n (m : matrix) i j v :
  is_square n m -> i < n -> is_square n (mat_set m i j v).
Proof.
  intros Hsq Hi. pose proof Hsq as [Hlen Hrows]. unfold mat_set. split.
  - now rewrite length_list_set.
  - apply Forall_forall. intros row Hin.
    apply (In_nth _ _ []) in Hin. destruct Hin as (p & Hp & <-).
    rewrite length_list_set in Hp.
    rewrite nth_list_set by lia.
    destruct (Nat.eqb_spec p i) as [->|Hne].
    + rewrite length_list_set. now apply is_square_row.
    + apply is_square_row; [exact Hsq | lia].
Qed.

Lemma get_mat_set n (m : matrix) i j v i' j' :
  is_square n m -> i < n -> j < n ->
  get (mat_set m i j v) i' j'
  = if ((i' =? i) && (j' =? j))%nat%bool then v else get m i' j'.
Proof.
  intros Hsq Hi Hj. pose proof Hsq as [Hlen _]. unfold get, mat_set.
  rewrite nth_list_set by lia.
  destruct (Nat.eqb_spec i' i) as [->|Hne]; simpl; [|reflexivity].
  rewrite nth_list_set by (rewrite (is_square_row n m i Hsq Hi); exact Hj).
  reflexivity.
Qed.

Lemma norm_index_nat len i c :
  i < len -> norm_index len (Z.of_nat i) c = OK (i, c).
Proof.
  intros Hi. unfold norm_index.
  replace ((0 <=? Z.of_nat i)%Z && (Z.of_nat i <? Z.of_nat len)%Z) with true.
  - unfold ret. now rewrite Nat2Z.id.
  - symmetry. apply andb_true_intro. split; [apply Z.leb_le | apply Z.ltb_lt]; lia.
Qed.

(** Writing [vals] along the diagonal that starts at [(a + s, b + s)]. *)
Lemma setitem_pairs_diagonal a b n : forall len s vals (m : matrix) c,
  is_square n m -> a + s + len <= n -> b + s + len <= n -> length vals = len ->
  exists m',
    setitem_pairs m
      (map (fun i => (Z.of_nat a + Z.of_nat i)%Z) (seq s len))
      (map (fun i => (Z.of_nat b + Z.of_nat i)%Z) (seq s len)) vals c = OK (m', c)
    /\ is_square n m'
    /\ forall i j,
        get m' i j
        = if ((a + s <=? i) && (i <? a + s + len) && (j + a =? i + b))%nat%bool
          then nth (i - a - s) vals c0 else get m i j.
Proof.
  induction len as [|len IH]; intros s vals m c Hsq Ha Hb Hlen.
  - destruct vals; [|discriminate]. exists m. simpl. split; [reflexivity|].
    split; [exact Hsq|]. intros i j.
    destruct (Nat.leb_spec (a + s) i); destruct (Nat.ltb_spec i (a + s + 0));
      simpl; try reflexivity; lia.
  - destruct vals as [|v vals]; [discriminate|]. simpl in Hlen.
    pose proof Hsq as [Hm _].
    assert (Hset : is_square n (mat_set m (a + s) (b + s) v))
      by (apply is_square_mat_set; [exact Hsq | lia]).
    destruct (IH (S s) vals _ c Hset) as (m' & Hrun & Hsq' & Hget); try lia.
    exists m'. split; [|split; [exact Hsq'|]].
    + cbn [seq map setitem_pairs].
      rewrite <- !Nat2Z.inj_add.
      rewrite (bind_ret _ _ c (a + s)) by (apply norm_index_nat; lia).
      rewrite (bind_ret _ _ c (b + s)) by (apply norm_index_nat; lia).
      exact Hrun.
    + intros i j. rewrite Hget.
      rewrite (get_mat_set n) by (try exact Hsq; lia).
      destruct (Nat.leb_spec (a + S s) i); destruct (Nat.ltb_spec i (a + S s + len));
        destruct (Nat.leb_spec (a + s) i); destruct (Nat.ltb_spec i (a + s + S len));
        destruct (Nat.eqb_spec (j + a) (i + b)); destruct (Nat.eqb_spec i (a + s));
        destruct (Nat.eqb_spec j (b + s)); simpl; try reflexivity; try lia.
      * replace (i - a - s) with (S (i - a - S s)) by lia. reflexivity.
      * replace (i - a - s) with 0 by lia. reflexivity.
Qed.

End Arrays.

Lemma nth_map_seq {T} (f : nat -> T) n i d :
  i < n -> nth i (map f (seq 0 n)) d = f i.
Proof.
  intros Hi.
  rewrite (nth_indep _ d (f 0)) by now rewrite length_map, length_seq.
  rewrite (map_nth f (seq 0 n) 0 i). now rewrite seq_nth.
Qed.

Lemma arange_from (a len : nat) :
  np.arange (Z.of_nat a) (Z.of_nat a + Z.of_nat len)
  = map (fun i => (Z.of_nat a + Z.of_nat i)%Z) (seq 0 len).
Proof.
  unfold np.arange.
  replace (Z.to_nat (Z.of_nat a + Z.of_nat len - Z.of_nat a)) with len by lia.
  reflexivity.
Qed.

Section Assembly.
Context {num : Numerics}.

Lemma is_square_tridiag n diag off : is_square n (tridiag n diag off).
Proof.
  unfold tridiag. split.
  - now rewrite length_map, length_seq.
  - apply Forall_forall. intros row Hin.
    apply in_map_iff in Hin. destruct Hin as (i & <- & _).
    now rewrite length_map, length_seq.
Qed.

Lemma get_tridiag n diag off i j :
  i < n -> j < n ->
  get (tridiag n diag off) i j
  = if (i =? j)%nat then diag i
    else if ((j =? S i) || (i =? S j))%nat%bool then off else c0.
Proof.
  intros Hi Hj. unfold get, tridiag.
  rewrite (nth_map_seq _ n i) by exact Hi.
  now rewrite (nth_map_seq _ n j) by exact Hj.
Qed.

Lemma square_ext n (m m' : matrix) :
  is_square n m -> is_square n m' ->
  (forall i j, i < n -> j < n -> get m i j = get m' i j) ->
  m = m'.
Proof.
  intros Hsq Hsq' Hget.
  pose proof Hsq as [Hlen _]. pose proof Hsq' as [Hlen' _].
  apply (nth_ext _ _ [] []); [congruence|].
  intros i Hi. rewrite Hlen in Hi.
  apply (nth_ext _ _ c0 c0).
  - now rewrite (is_square_row n m), (is_square_row n m').
  - intros j Hj. rewrite (is_square_row n m) in Hj by assumption.
    now apply Hget.
Qed.

(** The three indexed assignments of [_get_numerical_parameters] on a zero
    array build the tridiagonal array. *)
Lemma assemble_tridiag n (dvals : list C) (off : C) c :
  1 <= n -> length dvals = n ->
  exists m1 m2,
    setitem_pairs (repeat (repeat c0 n) n)
      (np.arange 0 (Z.of_nat n)) (np.arange 0 (Z.of_nat n)) dvals c = OK (m1, c)
    /\ setitem_scalar m1 (np.arange 0 (Z.of_nat n - 1)) (np.arange 1 (Z.of_nat n)) off c
       = OK (m2, c)
    /\ setitem_scalar m2 (np.arange 1 (Z.of_nat n)) (np.arange 0 (Z.of_nat n - 1)) off c
       = OK (tridiag n (fun i => nth i dvals c0) off, c).
Proof.
  intros Hn Hd.
  assert (E0 : np.arange 0 (Z.of_nat n)
               = map (fun i => (Z.of_nat 0 + Z.of_nat i)%Z) (seq 0 n))
    by (rewrite <- arange_from; reflexivity).
  assert (E1 : np.arange 0 (Z.of_nat n - 1)
               = map (fun i => (Z.of_nat 0 + Z.of_nat i)%Z) (seq 0 (n - 1))).
  { rewrite <- arange_from. unfold np.arange. f_equal. f_equal. lia. }
  assert (E2 : np.arange 1 (Z.of_nat n)
               = map (fun i => (Z.of_nat 1 + Z.of_nat i)%Z) (seq 0 (n - 1))).
  { rewrite <- arange_from. unfold np.arange. f_equal. f_equal. lia. }
  destruct (setitem_pairs_diagonal 0 0 n n 0 dvals _ c (is_square_zeros n))
    as (m1 & R1 & S1 & G1); try lia.
  destruct (setitem_pairs_diagonal 0 1 n (n - 1) 0 (repeat off (n - 1)) m1 c S1)
    as (m2 & R2 & S2 & G2); try lia; [apply repeat_length|].
  destruct (setitem_pairs_diagonal 1 0 n (n - 1) 0 (repeat off (n - 1)) m2 c S2)
    as (m3 & R3 & S3 & G3); try lia; [apply repeat_length|].
  exists m1, m2. unfold setitem_scalar. rewrite E0, E1, E2.
  rewrite !length_map, !length_seq.
  split; [exact R1|]. split; [exact R2|].
  rewrite R3. f_equal. f_equal.
  apply (square_ext n); [exact S3 | apply is_square_tridiag |].
  intros i j Hi Hj.
  rewrite G3, G2, G1, get_zeros, get_tridiag by assumption.
  replace (i - 1 - 0) with (i - 1) by lia.
  replace (i - 0 - 0) with i by lia.
  case_nat; cbn [andb orb]; try reflexivity; apply nth_repeat_lt; lia.
Qed.

End Assembly.

(** ** The primitives: when they return, and what *)

Ltac inv_bind H :=
  let u := fresh "u" in
  let c1 := fresh "c" in
  let H1 := fresh "H" in
  apply bind_OK in H; destruct H as (u & c1 & H1 & H).

Tactic Notation "bind_inv" hyp(H) "as" ident(u) ident(c1) ident(H1) :=
  apply bind_OK in H; destruct H as (u & c1 & H1 & H).

Lemma truediv_inv u v c q c' :
  Py.truediv u v c = OK (q, c') ->
  Py.is_zero v = false /\ q = (u / v)%float /\ c' = c.
Proof.
  unfold Py.truediv. destruct (Py.is_zero v); [discriminate|].
  intros H. apply ret_OK in H. destruct H as [<- <-]. auto.
Qed.

Lemma truediv_ok u v c :
  Py.is_zero v = false -> Py.truediv u v c = OK ((u / v)%float, c).
Proof. unfold Py.truediv. now intros ->. Qed.

Lemma int_inv f c z c' :
  Py.int f c = OK (z, c') -> Py.trunc f = Some z /\ c' = c.
Proof.
  unfold Py.int, Py.trunc.
  destruct (Prim2SF f); try discriminate;
    intros H; apply ret_OK in H; destruct H as [<- <-]; auto.
Qed.

Lemma int_ok f c z : Py.trunc f = Some z -> Py.int f c = OK (z, c).
Proof.
  unfold Py.int, Py.trunc.
  destruct (Prim2SF f); try discriminate; intros H; injection H as <-; reflexivity.
Qed.

Lemma linspace_inv u v n c l c' :
  np.linspace u v n c = OK (l, c') ->
  (0 <= n <= np.max_float64)%Z /\ l = np.linspace_array u v n /\ c' = c.
Proof.
  unfold np.linspace. destruct (Z.ltb_spec n 0) as [Hn|Hn]; [discriminate|].
  destruct (Z.ltb_spec np.max_float64 n) as [Hm|Hm]; [discriminate|].
  intros H. apply ret_OK in H. destruct H as [<- <-]. auto.
Qed.

Lemma linspace_ok u v n c :
  (0 <= n <= np.max_float64)%Z ->
  np.linspace u v n c = OK (np.linspace_array u v n, c).
Proof.
  intros Hn. unfold np.linspace. destruct (Z.ltb_spec n 0); [lia|].
  destruct (Z.ltb_spec np.max_float64 n); [lia|reflexivity].
Qed.

Lemma max_float64_eq : np.max_float64 = 1152921504606846975%Z.
Proof. reflexivity. Qed.

Lemma linspace_too_big u v n c :
  (np.max_float64 < n)%Z -> np.linspace u v n c = Raise ValueError.
Proof.
  intros Hn. unfold np.linspace. destruct (Z.ltb_spec n 0); [reflexivity|].
  destruct (Z.ltb_spec np.max_float64 n); [reflexivity|lia].
Qed.

Lemma linspace_negative u v n c :
  (n < 0)%Z -> np.linspace u v n c = Raise ValueError.
Proof.
  intros Hn. unfold np.linspace. destruct (Z.ltb_spec n 0); [reflexivity|lia].
Qed.

Lemma length_linspace_array u v n :
  length (np.linspace_array u v n) = Z.to_nat n.
Proof.
  unfold np.linspace_array.
  set (y0 := map _ (seq 0 (Z.to_nat n))).
  assert (Hy0 : length y0 = Z.to_nat n) by (unfold y0; now rewrite length_map, length_seq).
  set (y1 := if (0 <? n - 1)%Z then _ else _).
  assert (Hy1 : length y1 = Z.to_nat n).
  { unfold y1. destruct (0 <? n - 1)%Z; [destruct (Py.is_zero _)|];
      now rewrite length_map. }
  destruct (Z.ltb_spec 1 n) as [Hn|Hn]; [|now rewrite length_map].
  rewrite length_app, removelast_firstn_len, length_firstn, length_map, Hy1.
  simpl. lia.
Qed.

Lemma trunc_floor f z :
  Py.trunc f = Some z -> (0 < z)%Z -> Py.floor f = Some z.
Proof.
  unfold Py.trunc, Py.floor. destruct (Prim2SF f) as [s| s| |s m ex];
    try discriminate.
  - intros H. injection H as <-. lia.
  - intros H Hz. injection H as <-. f_equal.
    assert (Hmag : (0 <= match ex with
                         | Zneg q => Z.shiftr (Zpos m) (Zpos q)
                         | _ => Z.shiftl (Zpos m) ex
                         end)%Z).
    { destruct ex; [apply Z.shiftl_nonneg | apply Z.shiftl_nonneg
                    | apply Z.shiftr_nonneg]; lia. }
    destruct s; [lia|]. destruct ex; reflexivity.
Qed.

Lemma nth_removelast {T} (l : list T) i d :
  i < length l - 1 -> nth i (removelast l) d = nth i l d.
Proof.
  intros Hi. rewrite removelast_firstn_len, nth_firstn.
  destruct (Nat.ltb_spec i (Nat.pred (length l))); [reflexivity | lia].
Qed.

Lemma nth_linspace_last u v n :
  (1 < n)%Z -> nth (Z.to_nat n - 1) (np.linspace_array u v n) 0%float = v.
Proof.
  intros Hn. unfold np.linspace_array.
  destruct (Z.ltb_spec 1 n) as [_|]; [|lia].
  set (y := map _ _).
  assert (Hy : length y = Z.to_nat n).
  { unfold y. rewrite length_map.
    destruct (0 <? n - 1)%Z; [destruct (Py.is_zero _)|];
      now rewrite !length_map, length_seq. }
  rewrite app_nth2; rewrite removelast_firstn_len, length_firstn, Hy.
  - replace (Z.to_nat n - 1 - Nat.min (Nat.pred (Z.to_nat n)) (Z.to_nat n))
      with 0 by lia. reflexivity.
  - lia.
Qed.

(** The points before the last one are multiples of the step, shifted by
    the start. *)
Lemma nth_linspace_array u v n i :
  (Z.of_nat i < n - 1)%Z ->
  nth i (np.linspace_array u v n) 0%float
  = ((if Py.is_zero (linspace_step u v n)
      then (Py.float_of_Z (Z.of_nat i) / Py.float_of_Z (n - 1)) * (v - u)
      else Py.float_of_Z (Z.of_nat i) * linspace_step u v n) + u)%float.
Proof.
  intros Hi. unfold np.linspace_array, linspace_step.
  destruct (Z.ltb_spec 1 n) as [_|]; [|lia].
  destruct (Z.ltb_spec 0 (n - 1)) as [_|]; [|lia].
  rewrite app_nth1.
  2:{ rewrite removelast_firstn_len, length_firstn, length_map.
      destruct (Py.is_zero _); rewrite !length_map, length_seq; lia. }
  rewrite nth_removelast.
  2:{ rewrite length_map.
      destruct (Py.is_zero _); rewrite !length_map, length_seq; lia. }
  destruct (Py.is_zero _); rewrite !map_map;
    now rewrite (nth_map_seq _ (Z.to_nat n) i) by lia.
Qed.

Section Primitives.
Context {num : Numerics}.

Lemma py_pow_inv u v c w c' :
  py_pow u v c = OK (w, c') ->
  pow_overflows u v = false /\ w = fpow u v /\ c' = c.
Proof.
  unfold py_pow, pow_overflows.
  destruct (Py.is_finite u && Py.is_finite v && Py.is_inf (fpow u v));
    [discriminate|].
  intros H. apply ret_OK in H. destruct H as [<- <-]. auto.
Qed.

Lemma py_pow_ok u v c :
  pow_overflows u v = false -> py_pow u v c = OK (fpow u v, c).
Proof. unfold py_pow, pow_overflows. now intros ->. Qed.

Lemma py_cdiv_inv z d c w c' :
  py_cdiv z d c = OK (w, c') ->
  Py.is_zero d = false /\ w = cdiv z (of_float d) /\ c' = c.
Proof.
  unfold py_cdiv. destruct (Py.is_zero d); [discriminate|].
  intros H. apply ret_OK in H. destruct H as [<- <-]. auto.
Qed.

Lemma py_cdiv_ok z d c :
  Py.is_zero d = false -> py_cdiv z d c = OK (cdiv z (of_float d), c).
Proof. unfold py_cdiv. now intros ->. Qed.

Lemma zeros2_inv n c m c' :
  zeros2 n c = OK (m, c') ->
  (0 <= n)%Z /\ m = repeat (repeat c0 (Z.to_nat n)) (Z.to_nat n) /\ c' = c.
Proof.
  unfold zeros2. destruct (Z.ltb_spec n 0) as [Hn|Hn]; [discriminate|].
  intros H. apply ret_OK in H. destruct H as [<- <-]. auto.
Qed.

Lemma zeros2_ok n c :
  (0 <= n)%Z -> zeros2 n c = OK (repeat (repeat c0 (Z.to_nat n)) (Z.to_nat n), c).
Proof. intros Hn. unfold zeros2. destruct (Z.ltb_spec n 0); [lia|reflexivity]. Qed.

Lemma zeros1_inv n c l c' :
  zeros1 n c = OK (l, c') ->
  (0 <= n)%Z /\ l = repeat c0 (Z.to_nat n) /\ c' = c.
Proof.
  unfold zeros1. destruct (Z.ltb_spec n 0) as [Hn|Hn]; [discriminate|].
  intros H. apply ret_OK in H. destruct H as [<- <-]. auto.
Qed.

Lemma zeros1_ok n c :
  (0 <= n)%Z -> zeros1 n c = OK (repeat c0 (Z.to_nat n), c).
Proof. intros Hn. unfold zeros1. destruct (Z.ltb_spec n 0); [lia|reflexivity]. Qed.

Lemma r_coeff_inv u v c r c' :
  r_coeff u v c = OK (r, c') ->
  pow_overflows v 2 = false /\ Py.is_zero (fpow v 2) = false
  /\ Py.is_zero (4 * m_e) = false /\ r = r_value u v /\ c' = c.
Proof.
  unfold r_coeff. intros H.
  inv_bind H. apply py_pow_inv in H0. destruct H0 as (Hp & -> & ->).
  inv_bind H. apply py_cdiv_inv in H0. destruct H0 as (Hz & -> & ->).
  apply py_cdiv_inv in H. destruct H as (Hm & -> & ->).
  unfold r_value. auto.
Qed.

Lemma r_coeff_ok u v c :
  pow_overflows v 2 = false -> Py.is_zero (fpow v 2) = false ->
  Py.is_zero (4 * m_e) = false ->
  r_coeff u v c = OK (r_value u v, c).
Proof.
  intros Hp Hz Hm. unfold r_coeff.
  rewrite (bind_ret _ _ c _ (py_pow_ok _ _ c Hp)).
  rewrite (bind_ret _ _ c _ (py_cdiv_ok _ _ c Hz)).
  now rewrite (py_cdiv_ok _ _ c Hm).
Qed.

Lemma q_coeff_inv u Vl r c q c' :
  q_coeff u Vl r c = OK (q, c') ->
  Py.is_zero hbar = false /\ q = map (q_value u r) (interior Vl) /\ c' = c.
Proof.
  unfold q_coeff. intros H.
  inv_bind H. apply py_cdiv_inv in H0. destruct H0 as (Hz & -> & ->).
  apply ret_OK in H. destruct H as [<- <-]. auto.
Qed.

Lemma q_coeff_ok u Vl r c :
  Py.is_zero hbar = false ->
  q_coeff u Vl r c = OK (map (q_value u r) (interior Vl), c).
Proof.
  intros Hz. unfold q_coeff.
  now rewrite (bind_ret _ _ c _ (py_cdiv_ok _ _ c Hz)).
Qed.

Lemma splu_inv m c l c' :
  splu m c = OK (l, c') ->
  exists f, factorize m = OK f
            /\ l = {| shape := length m; lu_factors := f |} /\ c' = S c.
Proof.
  unfold splu, bind, count_splu, lift, ret.
  destruct (factorize m) as [f|err]; [|discriminate].
  intros H. injection H as <- <-. exists f. auto.
Qed.

Lemma splu_ok m c f :
  factorize m = OK f ->
  splu m c = OK ({| shape := length m; lu_factors := f |}, S c).
Proof. unfold splu, bind, count_splu, lift, ret. now intros ->. Qed.

End Primitives.

Section NumericalParameters.
Context {num : Numerics}.

Lemma tridiag_ext n (d d' : nat -> C) off :
  (forall i, i < n -> d i = d' i) -> tridiag n d off = tridiag n d' off.
Proof.
  intros Hd. unfold tridiag. apply map_ext_in. intros i Hi.
  apply in_seq in Hi. apply map_ext. intros j.
  destruct (i =? j)%nat; [apply Hd; lia | reflexivity].
Qed.

Lemma length_arange0 (n : nat) : length (np.arange 0 (Z.of_nat n)) = n.
Proof.
  unfold np.arange. rewrite length_map, length_seq. lia.
Qed.

Lemma list_set_zero n i : list_set (repeat c0 n) i c0 = repeat c0 n.
Proof.
  rewrite <- (nth_repeat c0 n i) at 2. apply list_set_same.
Qed.

Lemma setitem1_first_inv (l : list C) v c l' c' :
  setitem1 l 0 v c = OK (l', c') ->
  0 < length l /\ l' = list_set l 0 v /\ c' = c.
Proof.
  unfold setitem1, norm_index. intros H.
  destruct (length l) as [|len] eqn:E; [discriminate H|].
  cbn in H. injection H as <- <-. split; [lia|auto].
Qed.

Lemma setitem1_first_ok (l : list C) v c :
  0 < length l -> setitem1 l 0 v c = OK (list_set l 0 v, c).
Proof.
  unfold setitem1, norm_index. intros H.
  destruct (length l) as [|len] eqn:E; [lia|]. reflexivity.
Qed.

Lemma setitem1_last_ok (l : list C) v c :
  0 < length l -> setitem1 l (-1) v c = OK (list_set l (length l - 1) v, c).
Proof.
  unfold setitem1, norm_index. intros H.
  replace ((0 <=? -1)%Z && (-1 <? Z.of_nat (length l))%Z) with false by reflexivity.
  replace ((- Z.of_nat (length l) <=? -1)%Z && (-1 <? 0)%Z) with true.
  - unfold bind, ret. do 3 f_equal. lia.
  - symmetry. rewrite andb_true_r. apply Z.leb_le. lia.
Qed.

(** The assignments of [A]: a scalar on each of the three diagonals. *)
Lemma assemble_A n (d off : C) c :
  1 <= n ->
  exists m1 m2,
    setitem_scalar (repeat (repeat c0 n) n)
      (np.arange 0 (Z.of_nat n)) (np.arange 0 (Z.of_nat n)) d c = OK (m1, c)
    /\ setitem_scalar m1 (np.arange 0 (Z.of_nat n - 1)) (np.arange 1 (Z.of_nat n)) off c
       = OK (m2, c)
    /\ setitem_scalar m2 (np.arange 1 (Z.of_nat n)) (np.arange 0 (Z.of_nat n - 1)) off c
       = OK (tridiag n (fun _ => d) off, c).
Proof.
  intros Hn.
  destruct (assemble_tridiag n (repeat d n) off c Hn (repeat_length d n))
    as (m1 & m2 & R1 & R2 & R3).
  exists m1, m2. unfold setitem_scalar at 1. rewrite length_arange0.
  split; [exact R1|]. split; [exact R2|].
  rewrite R3. do 2 f_equal. apply tridiag_ext. intros i Hi.
  now apply nth_repeat_lt.
Qed.

Lemma get_numerical_parameters_ok N u v Vl c f :
  (3 <= N)%Z -> length Vl = Z.to_nat N ->
  pow_overflows v 2 = false -> Py.is_zero (fpow v 2) = false ->
  Py.is_zero (4 * m_e) = false -> Py.is_zero hbar = false ->
  factorize (A_value (Z.to_nat (N - 2)) (r_value u v)) = OK f ->
  _get_numerical_parameters N u v Vl c
  = OK ((A_value (Z.to_nat (N - 2)) (r_value u v),
         B_value (Z.to_nat (N - 2))
                 (map (q_value u (r_value u v)) (interior Vl)) (r_value u v),
         repeat c0 (Z.to_nat (N - 2)),
         {| shape := Z.to_nat (N - 2); lu_factors := f |}), S c).
Proof.
  intros HN HV Hp Hz Hm Hh Hf. unfold _get_numerical_parameters.
  set (n := Z.to_nat (N - 2)).
  assert (En : (N - 2)%Z = Z.of_nat n) by (unfold n; lia).
  assert (Hn : 1 <= n) by (unfold n; lia).
  assert (H0 : (0 <= N - 2)%Z) by lia.
  rewrite (bind_ret _ _ c _ (zeros2_ok _ c H0)).
  rewrite (bind_ret _ _ c _ (zeros2_ok _ c H0)).
  rewrite (bind_ret _ _ c _ (zeros1_ok _ c H0)).
  rewrite (bind_ret _ _ c _ (r_coeff_ok u v c Hp Hz Hm)).
  rewrite (bind_ret _ _ c _ (q_coeff_ok u Vl _ c Hh)).
  fold n. rewrite En.
  set (r := r_value u v). set (q := map (q_value u r) (interior Vl)).
  destruct (assemble_A n (cadd (of_float 1) (cmul (of_float 2) r)) (cneg r) c Hn)
    as (a1 & a2 & RA1 & RA2 & RA3).
  rewrite (bind_ret _ _ c _ RA1), (bind_ret _ _ c _ RA2), (bind_ret _ _ c _ RA3).
  assert (Hq : length q = n).
  { unfold q. rewrite length_map, length_interior, HV. unfold n. lia. }
  destruct (assemble_tridiag n q r c Hn Hq) as (b1 & b2 & RB1 & RB2 & RB3).
  rewrite (bind_ret _ _ c _ RB1), (bind_ret _ _ c _ RB2), (bind_ret _ _ c _ RB3).
  assert (L0 : 0 < length (repeat c0 n)) by (rewrite repeat_length; lia).
  rewrite (bind_ret _ _ c _ (setitem1_first_ok _ (of_float 0) c L0)).
  assert (L1 : 0 < length (list_set (repeat c0 n) 0 (of_float 0)))
    by (rewrite length_list_set; exact L0).
  rewrite (bind_ret _ _ c _ (setitem1_last_ok _ (of_float 0) c L1)).
  fold (A_value n r) in *.
  rewrite (bind_step _ _ c _ _ (splu_ok _ c f Hf)).
  unfold ret. do 2 f_equal.
  assert (Eb : list_set (list_set (repeat c0 n) 0 (of_float 0))
                 (length (list_set (repeat c0 n) 0 (of_float 0)) - 1) (of_float 0)
               = repeat c0 n).
  { change (of_float 0) with c0. now rewrite !list_set_zero. }
  rewrite Eb. f_equal.
  destruct (is_square_tridiag n (fun _ => cadd (of_float 1) (cmul (of_float 2) r)) (cneg r))
    as [Hlen _].
  fold n. fold r. unfold A_value. now rewrite Hlen.
Qed.

Lemma get_numerical_parameters_inv N u v Vl c Am Bm bv l c' :
  length Vl = Z.to_nat N ->
  _get_numerical_parameters N u v Vl c = OK ((Am, Bm, bv, l), c') ->
  (3 <= N)%Z
  /\ pow_overflows v 2 = false /\ Py.is_zero (fpow v 2) = false
  /\ Py.is_zero (4 * m_e) = false /\ Py.is_zero hbar = false
  /\ exists f,
      factorize (A_value (Z.to_nat (N - 2)) (r_value u v)) = OK f
      /\ Am = A_value (Z.to_nat (N - 2)) (r_value u v)
      /\ Bm = B_value (Z.to_nat (N - 2))
                      (map (q_value u (r_value u v)) (interior Vl)) (r_value u v)
      /\ bv = repeat c0 (Z.to_nat (N - 2))
      /\ l = {| shape := Z.to_nat (N - 2); lu_factors := f |}
      /\ c' = S c.
Proof.
  intros HV H. pose proof H as Hrun. unfold _get_numerical_parameters in H.
  bind_inv H as A0 c1 HA0. apply zeros2_inv in HA0. destruct HA0 as (Hn0 & -> & ->).
  bind_inv H as B0 c1 HB0. apply zeros2_inv in HB0. destruct HB0 as (_ & -> & ->).
  bind_inv H as b0 c1 Hb0. apply zeros1_inv in Hb0. destruct Hb0 as (_ & -> & ->).
  bind_inv H as r c1 Hr. apply r_coeff_inv in Hr.
  destruct Hr as (Hp & Hz & Hm & -> & ->).
  bind_inv H as q c1 Hq. apply q_coeff_inv in Hq. destruct Hq as (Hh & -> & ->).
  set (n := Z.to_nat (N - 2)) in *.
  assert (En : (N - 2)%Z = Z.of_nat n) by (unfold n; lia).
  destruct (Nat.eq_dec n 0) as [E0|Hn].
  - (* two grid points: the assignment [b[0] = 0] raises *)
    exfalso.
    assert (Hq0 : map (q_value u (r_value u v)) (interior Vl) = []).
    { apply length_zero_iff_nil. rewrite length_map, length_interior, HV.
      unfold n in E0. lia. }
    rewrite Hq0, En, E0 in H. cbn in H. discriminate H.
  - assert (HN : (3 <= N)%Z) by lia.
    split; [exact HN|]. do 4 (split; [assumption|]).
    destruct (factorize (A_value n (r_value u v))) as [f|err] eqn:Hf.
    + exists f. split; [reflexivity|].
      rewrite (get_numerical_parameters_ok N u v Vl c f HN HV Hp Hz Hm Hh Hf) in Hrun.
      injection Hrun as <- <- <- <- <-. auto.
    + exfalso. clear Hrun. rewrite En in H.
      set (r := r_value u v) in *.
      destruct (assemble_A n (cadd (of_float 1) (cmul (of_float 2) r)) (cneg r) c
                  ltac:(lia)) as (a1 & a2 & RA1 & RA2 & RA3).
      rewrite (bind_ret _ _ c _ RA1), (bind_ret _ _ c _ RA2),
        (bind_ret _ _ c _ RA3) in H.
      do 5 (inv_bind H).
      bind_inv H as l0 c6 Hl. apply splu_inv in Hl. destruct Hl as (f & Hf' & _).
      unfold A_value in Hf. rewrite Hf in Hf'. discriminate Hf'.
Qed.

End NumericalParameters.

Section Constructor.
Context {num : Numerics}.

Lemma gauss_inv xp sp kp xi c z c' :
  _gauss xp sp kp xi c = OK (z, c') ->
  pow_overflows sp 2 = false
  /\ pow_overflows (2 * np.pi * fpow sp 2) 0.25 = false
  /\ z = gauss_value xp sp kp xi /\ c' = c.
Proof.
  unfold _gauss. intros H.
  bind_inv H as s1 c1 H1. apply py_pow_inv in H1. destruct H1 as (Hp & -> & ->).
  bind_inv H as s2 c1 H1. apply py_pow_inv in H1. destruct H1 as (_ & -> & ->).
  bind_inv H as s3 c1 H1. apply py_pow_inv in H1. destruct H1 as (Hq & -> & ->).
  apply ret_OK in H. destruct H as [<- <-]. unfold gauss_value. auto.
Qed.

Lemma gauss_ok xp sp kp xi c :
  pow_overflows sp 2 = false ->
  pow_overflows (2 * np.pi * fpow sp 2) 0.25 = false ->
  _gauss xp sp kp xi c = OK (gauss_value xp sp kp xi, c).
Proof.
  intros Hp Hq. unfold _gauss.
  rewrite (bind_ret _ _ c _ (py_pow_ok _ _ c Hp)).
  rewrite (bind_ret _ _ c _ (py_pow_ok _ _ c Hp)).
  now rewrite (bind_ret _ _ c _ (py_pow_ok _ _ c Hq)).
Qed.

Lemma mapM_gauss_ok xp sp kp l c :
  pow_overflows sp 2 = false ->
  pow_overflows (2 * np.pi * fpow sp 2) 0.25 = false ->
  mapM (_gauss xp sp kp) l c = OK (map (gauss_value xp sp kp) l, c).
Proof.
  intros Hp Hq. induction l as [|xi l IH]; [reflexivity|].
  cbn [mapM map].
  rewrite (bind_ret _ _ c _ (gauss_ok xp sp kp xi c Hp Hq)).
  now rewrite (bind_ret _ _ c _ IH).
Qed.

Lemma mapM_gauss_inv xp sp kp l c p c' :
  l <> [] ->
  mapM (_gauss xp sp kp) l c = OK (p, c') ->
  pow_overflows sp 2 = false
  /\ pow_overflows (2 * np.pi * fpow sp 2) 0.25 = false
  /\ p = map (gauss_value xp sp kp) l /\ c' = c.
Proof.
  intros Hl H. destruct l as [|xi l]; [congruence|].
  pose proof H as Hrun. cbn [mapM] in H.
  bind_inv H as z c1 Hz. apply gauss_inv in Hz. destruct Hz as (Hp & Hq & _).
  rewrite (mapM_gauss_ok xp sp kp (xi :: l) c Hp Hq) in Hrun.
  injection Hrun as <- <-. auto.
Qed.

Lemma matvec_ok (m : matrix) v c :
  length v = length m ->
  matvec m v c = OK (map (fun row => sparse_dot row v) m, c).
Proof. intros H. unfold matvec. now rewrite H, Nat.eqb_refl. Qed.

Lemma np_add_ok (u v : list C) c :
  length u = length v ->
  np_add u v c = OK (map (fun uv => cadd (fst uv) (snd uv)) (combine u v), c).
Proof. intros H. unfold np_add. now rewrite H, Nat.eqb_refl. Qed.

Lemma rhs_ok (m : matrix) (v bv : list C) c :
  length v = length m -> length bv = length m ->
  (Bp <- matvec m v ;; np_add Bp bv) c = OK (rhs_value m v bv, c).
Proof.
  intros Hv Hb.
  rewrite (bind_ret _ _ c _ (matvec_ok m v c Hv)).
  rewrite np_add_ok by now rewrite length_map.
  reflexivity.
Qed.

Lemma length_rhs_value (m : matrix) (v bv : list C) :
  length bv = length m -> length (rhs_value m v bv) = length m.
Proof.
  intros Hb. unfold rhs_value.
  rewrite length_map, length_combine, length_map, Hb. lia.
Qed.

Lemma length_x_of a N : length (x_of a N) = Z.to_nat N.
Proof. apply length_linspace_array. Qed.

Lemma length_V_of a N : length (V_of a N) = Z.to_nat N.
Proof. unfold V_of, np.where_. now rewrite !length_map, length_x_of. Qed.

Lemma length_packet_of a N : length (packet_of a N) = Z.to_nat N.
Proof. unfold packet_of. now rewrite length_map, length_x_of. Qed.

Lemma length_A_of a N : length (A_of a N) = Z.to_nat (N - 2).
Proof. unfold A_of, A_value. apply is_square_tridiag. Qed.

Lemma length_B_of a N : length (B_of a N) = Z.to_nat (N - 2).
Proof. unfold B_of, B_value. apply is_square_tridiag. Qed.

Lemma arithmetic_ok_iff a :
  arithmetic_ok a = true <->
  Py.is_zero (si_dx a) = false /\ Py.is_zero (si_dt a) = false
  /\ Py.is_zero (x_max_of a - 0) = false
  /\ pow_overflows (si_dx a) 2 = false
  /\ Py.is_zero (fpow (si_dx a) 2) = false
  /\ Py.is_zero (4 * m_e) = false
  /\ Py.is_zero hbar = false
  /\ pow_overflows (si_size_packet a) 2 = false
  /\ pow_overflows (2 * np.pi * fpow (si_size_packet a) 2) 0.25 = false.
Proof.
  unfold arithmetic_ok. rewrite !andb_true_iff, !negb_true_iff. tauto.
Qed.

(** Construction returns, and returns [built], when the arithmetic raises
    nothing, the grid has at least three points, the number of time points
    is not negative, numpy accepts the sizes of both grids and SuperLU
    factorises [A]. *)
Lemma init_ok a N T f c :
  arithmetic_ok a = true ->
  division_x_of a = Some N -> division_time_of a = Some T ->
  (3 <= N <= np.max_float64)%Z -> (0 <= T <= np.max_float64)%Z ->
  factorize (A_of a N) = OK f ->
  __init__ a c = OK (built a N T f, S c).
Proof.
  intros Hok HN HT [H3 HNm] H0 Hf.
  apply arithmetic_ok_iff in Hok.
  destruct Hok as (Zdx & Zdt & Zx & Pdx & Zdx2 & Zm & Zh & Psp & Pn).
  unfold __init__.
  fold (si_size_packet a) (si_size_barrier a) (si_time_duration a)
       (si_energy_packet a) (si_barrier_height a) (si_dx a) (si_dt a).
  fold (sigma_of a). fold (x_packet_of a). fold (x_barrier_of a).
  fold (x_max_of a). fold (k_of a).
  rewrite (bind_ret _ _ c _ (truediv_ok _ _ c Zdx)).
  rewrite (bind_ret _ _ c _ (int_ok _ c N HN)).
  rewrite (bind_ret _ _ c _ (linspace_ok _ _ N c ltac:(lia))).
  rewrite (bind_ret _ _ c _ (truediv_ok _ _ c Zdt)).
  rewrite (bind_ret _ _ c _ (int_ok _ c T HT)).
  rewrite (bind_ret _ _ c _ (linspace_ok _ _ T c H0)).
  rewrite (bind_ret _ _ c _ (truediv_ok _ _ c Zx)).
  rewrite (bind_ret _ _ c _ (linspace_ok _ _ N c ltac:(lia))).
  fold (x_of a N). fold (V_of a N).
  rewrite (bind_step _ _ c _ _
             (get_numerical_parameters_ok N (si_dt a) (si_dx a) (V_of a N) c f
                H3 (length_V_of a N) Pdx Zdx2 Zm Zh Hf)).
  rewrite (bind_ret _ _ (S c) _ (mapM_gauss_ok _ _ _ _ (S c) Psp Pn)).
  fold (packet_of a N). fold (A_of a N). fold (B_of a N).
  assert (Hv : length (interior (packet_of a N)) = length (B_of a N))
    by (rewrite length_interior, length_packet_of, length_B_of; lia).
  assert (Hb : length (repeat c0 (Z.to_nat (N - 2))) = length (B_of a N))
    by now rewrite repeat_length, length_B_of.
  pose proof (rhs_ok _ _ _ (S c) Hv Hb) as Hrhs.
  apply bind_OK in Hrhs. destruct Hrhs as (Bp & c1 & HBp & Hadd).
  rewrite (bind_step _ _ (S c) _ _ HBp), (bind_step _ _ c1 _ _ Hadd).
  reflexivity.
Qed.

(** Conversely, every instance a construction returns is [built], from
    parameters that meet these conditions; the count of [splu] calls has
    gone up by one. *)
Lemma init_inv a c self c' :
  __init__ a c = OK (self, c') ->
  exists N T f,
    arithmetic_ok a = true
    /\ division_x_of a = Some N /\ division_time_of a = Some T
    /\ (3 <= N)%Z /\ (0 <= T)%Z
    /\ factorize (A_of a N) = OK f
    /\ self = built a N T f /\ c' = S c.
Proof.
  intros H. pose proof H as Hrun. unfold __init__ in H.
  fold (si_size_packet a) (si_size_barrier a) (si_time_duration a)
       (si_energy_packet a) (si_barrier_height a) (si_dx a) (si_dt a) in H.
  fold (sigma_of a) in H. fold (x_packet_of a) in H. fold (x_barrier_of a) in H.
  fold (x_max_of a) in H. fold (k_of a) in H.
  bind_inv H as qx c1 H1. apply truediv_inv in H1. destruct H1 as (Zdx & -> & ->).
  bind_inv H as N c1 H1. apply int_inv in H1. destruct H1 as (HN & ->).
  bind_inv H as xs c1 H1. apply linspace_inv in H1. destruct H1 as (HN0 & -> & ->).
  bind_inv H as qt c1 H1. apply truediv_inv in H1. destruct H1 as (Zdt & -> & ->).
  bind_inv H as T c1 H1. apply int_inv in H1. destruct H1 as (HT & ->).
  bind_inv H as ts c1 H1. apply linspace_inv in H1. destruct H1 as (HTm & -> & ->).
  bind_inv H as dkv c1 H1. apply truediv_inv in H1. destruct H1 as (Zx & -> & ->).
  bind_inv H as lin c1 H1. apply linspace_inv in H1. destruct H1 as (_ & -> & ->).
  fold (x_of a N) in H. fold (V_of a N) in H.
  bind_inv H as res c1 H1. destruct res as [[[Am Bm] bv] l].
  apply get_numerical_parameters_inv in H1; [|apply length_V_of].
  destruct H1 as (H3 & Pdx & Zdx2 & Zm & Zh & f & Hf & _).
  bind_inv H as p c2 H1.
  apply mapM_gauss_inv in H1.
  2:{ intros E. apply (f_equal (@length _)) in E.
      rewrite length_x_of in E. simpl in E. lia. }
  destruct H1 as (Psp & Pn & _).
  clear H. exists N, T, f.
  assert (Hok : arithmetic_ok a = true).
  { apply arithmetic_ok_iff. repeat split; assumption. }
  rewrite (init_ok a N T f c Hok HN HT ltac:(lia) HTm Hf) in Hrun.
  injection Hrun as <- <-.
  repeat split; try assumption; lia.
Qed.

End Constructor.

(** ** One step, and any number of steps *)

Section Stepping.
Context {num : Numerics}.

Lemma splice_interior (p sol : list C) n :
  length p = n + 2 -> length sol = n ->
  let p' := firstn 1 p ++ sol ++ skipn (1 + n) p in
  length p' = n + 2 /\ interior p' = sol
  /\ nth 0 p' c0 = nth 0 p c0 /\ nth (n + 1) p' c0 = nth (n + 1) p c0.
Proof.
  intros Hp Hs. destruct p as [|z p]; [simpl in Hp; lia|].
  simpl in Hp. cbn [firstn skipn Nat.add app].
  assert (Hk : length (skipn n p) = 1) by (rewrite length_skipn; lia).
  split; [|split; [|split]].
  - simpl. rewrite length_app, Hk. lia.
  - unfold interior. cbn [length skipn].
    rewrite length_app, Hk, Hs.
    replace (S (n + 1) - 2) with (n + 0) by lia.
    rewrite <- Hs at 1. rewrite firstn_app_2. simpl. apply app_nil_r.
  - reflexivity.
  - replace (n + 1) with (S n) by lia. cbn [nth].
    rewrite app_nth2 by lia. rewrite Hs, Nat.sub_diag.
    rewrite nth_skipn. now rewrite Nat.add_0_r.
Qed.

Lemma step_ok self c :
  consistent self ->
  exists self',
    calculate_timestep self c = OK (self', c)
    /\ lu_solve (lu self) (rhs_eq self) c = OK (interior (packet self'), c)
    /\ self' = set_packet_rhs self (packet self') (rhs_eq self')
    /\ length (packet self') = length (packet self)
    /\ nth 0 (packet self') c0 = nth 0 (packet self) c0
    /\ nth (length (packet self) - 1) (packet self') c0
       = nth (length (packet self) - 1) (packet self) c0
    /\ consistent self' /\ cache_valid self'.
Proof.
  intros (n & Hp & HB & Hb & Hlu & Hr).
  set (sol := map (solve_at (lu_factors (lu self)) (rhs_eq self))
                  (seq 0 (length (rhs_eq self)))).
  assert (Hsol : length sol = n) by (unfold sol; now rewrite length_map, length_seq).
  assert (Esol : lu_solve (lu self) (rhs_eq self) c = OK (sol, c)).
  { unfold lu_solve.
    replace (length (rhs_eq self) =? shape (lu self)) with true
      by (symmetry; apply Nat.eqb_eq; congruence).
    reflexivity. }
  set (p' := firstn 1 (packet self) ++ sol ++ skipn (1 + n) (packet self)).
  destruct (splice_interior (packet self) sol n Hp Hsol) as (Lp & Ip & N0 & Nl).
  fold p' in Lp, Ip, N0, Nl.
  assert (Eset : setitem_interior (packet self) sol c = OK (p', c)).
  { unfold setitem_interior. rewrite length_interior, Hp, Hsol.
    replace (n + 2 - 2) with n by lia. now rewrite Nat.eqb_refl. }
  assert (Hv : length (interior p') = length (B self)) by now rewrite Ip, Hsol, HB.
  assert (Hbl : length (b self) = length (B self)) by now rewrite Hb, HB.
  exists (set_packet_rhs self p' (rhs_value (B self) (interior p') (b self))).
  cbn [packet rhs_eq set_packet_rhs].
  split; [|split; [|split; [|split; [|split; [|split; [|split]]]]]].
  - unfold calculate_timestep.
    rewrite (bind_ret _ _ c _ Esol), (bind_ret _ _ c _ Eset).
    pose proof (rhs_ok _ _ _ c Hv Hbl) as Hrhs.
    apply bind_OK in Hrhs. destruct Hrhs as (Bp & c1 & HBp & Hadd).
    pose proof HBp as HBp'. rewrite matvec_ok in HBp' by exact Hv.
    injection HBp' as _ <-.
    rewrite (bind_ret _ _ c _ HBp), (bind_ret _ _ c _ Hadd). reflexivity.
  - now rewrite Ip.
  - reflexivity.
  - now rewrite Lp, Hp.
  - exact N0.
  - rewrite Hp. replace (n + 2 - 1) with (n + 1) by lia. exact Nl.
  - exists n. cbn. repeat split; try assumption.
    rewrite length_rhs_value; assumption.
  - intros c1. cbn. now apply rhs_ok.
Qed.

Lemma advance_ok self c : forall n,
  consistent self -> cache_valid self ->
  exists self_n,
    advance n self c = OK (self_n, c)
    /\ self_n = set_packet_rhs self (packet self_n) (rhs_eq self_n)
    /\ length (packet self_n) = length (packet self)
    /\ nth 0 (packet self_n) c0 = nth 0 (packet self) c0
    /\ nth (length (packet self) - 1) (packet self_n) c0
       = nth (length (packet self) - 1) (packet self) c0
    /\ consistent self_n /\ cache_valid self_n.
Proof.
  intros n. revert self. induction n as [|n IH]; intros self Hc Hv.
  - exists self. cbn [advance]. destruct self; cbn. repeat split; assumption.
  - destruct (step_ok self c Hc) as (s1 & R1 & _ & E1 & L1 & F1 & Z1 & C1 & V1).
    destruct (IH s1 C1 V1) as (sn & Rn & En & Ln & Fn & Zn & Cn & Vn).
    exists sn. cbn [advance]. rewrite (bind_ret _ _ c _ R1).
    split; [exact Rn|]. split.
    { rewrite En at 1. rewrite E1. reflexivity. }
    split; [congruence|]. split; [congruence|]. split.
    { rewrite <- Z1. rewrite <- L1. exact Zn. }
    split; assumption.
Qed.

Lemma consistent_built a N T f :
  (3 <= N)%Z -> consistent (built a N T f).
Proof.
  intros H3. exists (Z.to_nat (N - 2)). cbn.
  rewrite length_packet_of, length_B_of, repeat_length.
  repeat split; try lia.
  rewrite length_rhs_value; [apply length_B_of|].
  now rewrite repeat_length, length_B_of.
Qed.

Lemma cache_valid_built a N T f :
  (3 <= N)%Z -> cache_valid (built a N T f).
Proof.
  intros H3 c. cbn. apply rhs_ok.
  - rewrite length_interior, length_packet_of, length_B_of. lia.
  - now rewrite repeat_length, length_B_of.
Qed.

End Stepping.

(** ** The cache, entry by entry *)

Section SparseRows.
Context {num : Numerics}.

Lemma combine_map_seq {T U} (f : nat -> T) (l : list U) d :
  combine (map f (seq 0 (length l))) l
  = map (fun j => (f j, nth j l d)) (seq 0 (length l)).
Proof.
  apply (nth_ext _ _ (f 0, d) (f 0, d)).
  - now rewrite length_combine, !length_map, length_seq, Nat.min_id.
  - intros j Hj.
    rewrite length_combine, length_map, length_seq, Nat.min_id in Hj.
    rewrite combine_nth by now rewrite length_map, length_seq.
    rewrite (nth_map_seq f _ j (f 0) Hj).
    now rewrite (nth_map_seq (fun j => (f j, nth j l d)) _ j (f 0, d) Hj).
Qed.

(** The entries of a row that are zero are not stored: they leave the sum
    as it is. *)
Lemma fold_zero_run (g : nat -> C * C) : forall len s acc,
  (forall j, s <= j < s + len -> c_is_zero (fst (g j)) = true) ->
  fold_left (fun acc av => if c_is_zero (fst av) then acc
                           else cadd acc (cmul (fst av) (snd av)))
            (map g (seq s len)) acc = acc.
Proof.
  induction len as [|len IH]; intros s acc Hz; [reflexivity|].
  cbn [seq map fold_left]. rewrite (Hz s) by lia.
  apply IH. intros j Hj. apply Hz. lia.
Qed.

Lemma sparse_dot_tridiag n (d : nat -> C) (off : C) (v : list C) i :
  c_is_zero c0 = true -> length v = n -> i < n ->
  sparse_dot (nth i (tridiag n d off) []) v
  = (let left := if 0 <? i then add_term c0 off (nth (i - 1) v c0) else c0 in
     let mid := add_term left (d i) (nth i v c0) in
     if S i <? n then add_term mid off (nth (S i) v c0) else mid).
Proof.
  intros Hz Hv Hi. unfold sparse_dot, tridiag.
  rewrite (nth_map_seq _ n i [] Hi).
  set (entry := fun j => if i =? j then d i
                         else if (j =? S i) || (i =? S j) then off else c0).
  rewrite <- Hv. rewrite (combine_map_seq entry v c0). rewrite Hv.
  set (g := fun j => (entry j, nth j v c0)).
  set (step := fun (acc : C) (av : C * C) => _).
  assert (Hzero : forall j, j <> i -> j <> S i -> i <> S j ->
                            c_is_zero (fst (g j)) = true).
  { intros j H1 H2 H3. unfold g, entry. cbn [fst]. case_nat. exact Hz. }
  assert (Hat : forall j acc, step acc (g j) = add_term acc (entry j) (nth j v c0))
    by reflexivity.
  pose proof (fold_zero_run g) as Hrun. fold step in Hrun.
  assert (Ei : entry i = d i) by (unfold entry; now rewrite Nat.eqb_refl).
  assert (Er : S i < n -> entry (S i) = off).
  { intros _. unfold entry. case_nat. reflexivity. }
  assert (El : forall j, i = S j -> entry j = off).
  { intros j ->. unfold entry. case_nat. reflexivity. }
  assert (Hsplit : seq 0 n = seq 0 i ++ i :: seq (S i) (n - S i)).
  { replace n with (i + S (n - S i)) at 1 by lia. now rewrite seq_app. }
  rewrite Hsplit, map_app, fold_left_app. cbn [map fold_left].
  rewrite Hat, Ei.
  (* the part before the diagonal *)
  assert (Eleft : fold_left step (map g (seq 0 i)) c0
                  = if 0 <? i then add_term c0 off (nth (i - 1) v c0) else c0).
  { destruct i as [|j]; [reflexivity|].
    replace (S j) with (j + 1) at 1 by lia.
    rewrite seq_app, map_app, fold_left_app. cbn [seq map fold_left Nat.add].
    rewrite (Hrun j 0 c0) by (intros m Hm; apply Hzero; lia).
    rewrite Hat, (El j eq_refl). cbn [Nat.ltb Nat.leb].
    now replace (S j - 1) with j by lia. }
  rewrite Eleft. cbv zeta.
  (* the part after the diagonal *)
  destruct (Nat.ltb_spec (S i) n) as [Hlt|Hge].
  - assert (Hright : seq (S i) (n - S i) = S i :: seq (S (S i)) (n - S (S i))).
    { replace (n - S i) with (S (n - S (S i))) by lia. reflexivity. }
    rewrite Hright. cbn [map fold_left]. rewrite Hat, (Er Hlt).
    apply Hrun. intros m Hm. apply Hzero; lia.
  - replace (n - S i) with 0 by lia. reflexivity.
Qed.

End SparseRows.

Section CacheEntries.
Context {num : Numerics}.

Lemma nth_q_values u r (Vl : list float) i :
  i < length Vl - 2 ->
  nth i (map (q_value u r) (interior Vl)) c0
  = q_value u r (nth (S i) Vl 0%float).
Proof.
  intros Hi.
  rewrite (nth_indep _ c0 (q_value u r 0%float))
    by now rewrite length_map, length_interior.
  rewrite (map_nth (q_value u r)). now rewrite nth_interior.
Qed.

Lemma nth_rhs_value (m : matrix) (v bv : list C) i :
  length bv = length m -> i < length m ->
  nth i (rhs_value m v bv) c0 = cadd (sparse_dot (nth i m []) v) (nth i bv c0).
Proof.
  intros Hb Hi. unfold rhs_value.
  set (g := fun uv : C * C => cadd (fst uv) (snd uv)).
  rewrite (nth_indep _ c0 (g (sparse_dot [] v, c0)))
    by (rewrite length_map, length_combine, length_map, Hb; lia).
  rewrite (map_nth g).
  rewrite combine_nth by now rewrite length_map.
  unfold g. cbn [fst snd]. f_equal.
  apply (map_nth (fun row => sparse_dot row v)).
Qed.

(** On a grid of [N] points, [B @ p[1:-1] + b] is the three-point sum at
    every interior point. *)
Lemma rhs_value_stencil a N (p : list C) :
  c_is_zero c0 = true -> (3 <= N)%Z -> length p = Z.to_nat N ->
  rhs_value (B_of a N) (interior p) (repeat c0 (Z.to_nat (N - 2)))
  = stencil_rhs (Z.to_nat (N - 2)) (r_value (si_dt a) (si_dx a))
      (fun j => q_value (si_dt a) (r_value (si_dt a) (si_dx a))
                        (nth (S j) (V_of a N) 0%float)) p.
Proof.
  intros Hz H3 Hp. set (n := Z.to_nat (N - 2)).
  assert (Hlen : length (interior p) = n)
    by (rewrite length_interior, Hp; unfold n; lia).
  apply (nth_ext _ _ c0 c0).
  - rewrite length_rhs_value by now rewrite repeat_length, length_B_of.
    unfold stencil_rhs. now rewrite length_B_of, length_map, length_seq.
  - intros i Hi.
    rewrite length_rhs_value in Hi by now rewrite repeat_length, length_B_of.
    rewrite length_B_of in Hi. fold n in Hi.
    rewrite nth_rhs_value by (rewrite ?repeat_length, length_B_of; exact Hi || reflexivity).
    rewrite nth_repeat_lt by exact Hi.
    unfold stencil_rhs. rewrite (nth_map_seq _ n i c0 Hi). f_equal.
    unfold B_of, B_value. fold n.
    rewrite (sparse_dot_tridiag n _ _ _ i Hz Hlen Hi).
    unfold three_point. cbv zeta.
    rewrite nth_q_values by (rewrite length_V_of; unfold n in Hi; lia).
    rewrite (nth_interior p i) by (rewrite Hp; unfold n in Hi; lia).
    assert (Eleft : (if 0 <? i
                     then add_term c0 (r_value (si_dt a) (si_dx a))
                            (nth (i - 1) (interior p) c0)
                     else c0)
                    = (if 0 <? i
                       then add_term c0 (r_value (si_dt a) (si_dx a)) (nth i p c0)
                       else c0)).
    { destruct i as [|i']; [reflexivity|]. cbn [Nat.ltb Nat.leb].
      replace (S i' - 1) with i' by lia.
      now rewrite (nth_interior p i') by (rewrite Hp; unfold n in Hi; lia). }
    rewrite Eleft.
    destruct (Nat.ltb_spec (S i) n) as [Hlt|Hge]; [|reflexivity].
    now rewrite (nth_interior p (S i)) by (rewrite Hp; unfold n in Hlt; lia).
Qed.

(** Every state a number of steps reaches has its cache in that form. *)
Lemma cache_stencil a N T f (s : NumericalCalculation) :
  c_is_zero c0 = true -> (3 <= N)%Z ->
  s = set_packet_rhs (built a N T f) (packet s) (rhs_eq s) ->
  length (packet s) = Z.to_nat N -> cache_valid s ->
  rhs_eq s
  = stencil_rhs (Z.to_nat (N - 2)) (r_value (si_dt a) (si_dx a))
      (fun j => q_value (si_dt a) (r_value (si_dt a) (si_dx a))
                        (nth (S j) (V_of a N) 0%float)) (packet s).
Proof.
  intros Hz H3 Es Hp Hv.
  rewrite <- (rhs_value_stencil a N (packet s) Hz H3 Hp).
  pose proof (Hv 0) as Hrun.
  assert (HB : B s = B_of a N) by (rewrite Es; reflexivity).
  assert (Hb : b s = repeat c0 (Z.to_nat (N - 2))) by (rewrite Es; reflexivity).
  rewrite HB, Hb in Hrun. rewrite rhs_ok in Hrun.
  - now injection Hrun.
  - rewrite length_interior, Hp, length_B_of. lia.
  - now rewrite repeat_length, length_B_of.
Qed.

End CacheEntries.

(** ** The default parameters *)

Lemma default_division_x : division_x_of default_params = Some 4200%Z.
Proof. vm_compute. reflexivity. Qed.

Lemma default_division_time : division_time_of default_params = Some 3000%Z.
Proof. vm_compute. reflexivity. Qed.

Lemma default_step_differs :
  division_x_of default_params = Some 4200%Z
  /\ (nth 1 (x_of default_params 4200) 0 - nth 0 (x_of default_params 4200) 0
      = linspace_step 0 (x_max_of default_params) 4200)%float
  /\ linspace_step 0 (x_max_of default_params) 4200 <> si_dx default_params.
Proof.
  split; [exact default_division_x|]. split.
  - vm_compute. reflexivity.
  - intros E.
    apply (f_equal (fun v => PrimFloat.eqb v (si_dx default_params))) in E.
    vm_compute in E. discriminate E.
Qed.

(** * The claims *)

Section Claims.
Context {num : Numerics}.

(** Replaces a successful construction by the instance [built]. *)
Tactic Notation "from_init" hyp(H) "as" ident(N) ident(T) ident(f) :=
  let Hok := fresh "Hok" in
  let HN := fresh "HN" in
  let HT := fresh "HT" in
  let H3 := fresh "H3" in
  let H0 := fresh "H0" in
  let Hf := fresh "Hf" in
  apply init_inv in H;
  destruct H as (N & T & f & Hok & HN & HT & H3 & H0 & Hf & -> & ->).

(** C1: after a successful construction, with [n = N - 2] and
    [r = 1j * dt / dx**2 * hbar / (4 * m_e)] from the SI values of [dx] and
    [dt]: [A] and [B] are [n] by [n], [b] has length [n]; [A] has [1 + 2r]
    on the main diagonal, [-r] on both neighbouring diagonals and zero
    elsewhere; [B] has [q_j = -1j * dt / hbar * V_j + 1 - 2r] on the main
    diagonal, for the potential [V_j] at the [j]-th interior point, [r] on
    both neighbouring diagonals and zero elsewhere; [b] is zero. *)
Theorem system_matrices a c self c' :
  __init__ a c = OK (self, c') ->
  let n := Z.to_nat (division_x self - 2) in
  let r := r_value (dt self) (dx self) in
  dx self = (arg_dx a * 1e-12)%float /\ dt self = (arg_dt a * 1e-18)%float
  /\ Z.of_nat n = (division_x self - 2)%Z
  /\ is_square n (A self) /\ is_square n (B self) /\ length (b self) = n
  /\ (forall i j, i < n -> j < n ->
        get (A self) i j
        = if i =? j then cadd (of_float 1) (cmul (of_float 2) r)
          else if (j =? S i) || (i =? S j) then cneg r else c0)
  /\ (forall i j, i < n -> j < n ->
        get (B self) i j
        = if i =? j then q_value (dt self) r (nth (S i) (V self) 0%float)
          else if (j =? S i) || (i =? S j) then r else c0)
  /\ (forall i, i < n -> nth i (b self) c0 = c0).
Proof.
  intros H. from_init H as N T f. cbn [division_x dt dx A B b V built].
  set (n := Z.to_nat (N - 2)).
  split; [reflexivity|]. split; [reflexivity|]. split; [unfold n; lia|].
  split; [apply is_square_tridiag|]. split; [apply is_square_tridiag|].
  split; [apply repeat_length|]. split; [|split].
  - intros i j Hi Hj. unfold A_of, A_value. now rewrite get_tridiag.
  - intros i j Hi Hj. unfold B_of, B_value. rewrite get_tridiag by assumption.
    destruct (i =? j); [|reflexivity].
    apply nth_q_values. rewrite length_V_of. unfold n in Hi. lia.
  - intros i Hi. now apply nth_repeat_lt.
Qed.

(** C2: after a successful construction and after any number [n] of steps,
    [rhs_eq] is what [B @ packet[1:-1] + b] evaluates to for the current
    state vector: entry by entry the three-point sum
    [r * p[i] + q_i * p[i+1] + r * p[i+2]] over the stored entries of row
    [i] of [B], plus the zero of [b] (zero counting as zero for the sparse
    format).  The next call of [calculate_timestep] returns; it sets the
    interior entries of the state vector (indices 1 to N - 2) to
    [lu.solve(rhs_eq)], computed from the factors of [A] and the cache as
    it was before the call, and that is the solution [x] of
    [A . x = rhs_eq] when the solver keeps SuperLU's promise; it keeps the
    length of the state vector and its first and last entry; and it leaves
    [rhs_eq] equal to [B @ packet[1:-1] + b] for the new state vector, in
    the same form. *)
Theorem step_and_cache a c self c' n :
  __init__ a c = OK (self, c') ->
  let N := Z.to_nat (division_x self) in
  let r := r_value (dt self) (dx self) in
  let q := fun i => q_value (dt self) r (nth (S i) (V self) 0%float) in
  exists self_n,
    advance n self c' = OK (self_n, c')
    /\ (Bp <- matvec (B self_n) (interior (packet self_n)) ;;
        np_add Bp (b self_n)) c' = OK (rhs_eq self_n, c')
    /\ (c_is_zero c0 = true ->
        rhs_eq self_n = stencil_rhs (N - 2) r q (packet self_n))
    /\ factorize (A self_n) = OK (lu_factors (lu self_n))
    /\ exists self',
        calculate_timestep self_n c' = OK (self', c')
        /\ length (packet self') = N
        /\ length (interior (packet self')) = N - 2
        /\ lu_solve (lu self_n) (rhs_eq self_n) c'
           = OK (interior (packet self'), c')
        /\ (exact_solver ->
            mat_vec (A self_n) (interior (packet self')) = rhs_eq self_n)
        /\ nth 0 (packet self') c0 = nth 0 (packet self_n) c0
        /\ nth (N - 1) (packet self') c0 = nth (N - 1) (packet self_n) c0
        /\ (Bp <- matvec (B self') (interior (packet self')) ;;
            np_add Bp (b self')) c' = OK (rhs_eq self', c')
        /\ (c_is_zero c0 = true ->
            rhs_eq self' = stencil_rhs (N - 2) r q (packet self')).
Proof.
  intros H. from_init H as N T f.
  cbn [division_x dt dx V built].
  destruct (advance_ok (built a N T f) (S c) n
              (consistent_built a N T f H3) (cache_valid_built a N T f H3))
    as (sn & Rn & En & Ln & _ & _ & Cn & Vn).
  destruct (step_ok sn (S c) Cn) as (s1 & R1 & Sol & E1 & L1 & F1 & Fl & _ & V1).
  cbn [packet built] in Ln. rewrite length_packet_of in Ln.
  assert (L1' : length (packet s1) = Z.to_nat N) by now rewrite L1.
  assert (E1' : s1 = set_packet_rhs (built a N T f) (packet s1) (rhs_eq s1)).
  { rewrite E1 at 1. rewrite En. reflexivity. }
  assert (EA : A sn = A_of a N) by (rewrite En; reflexivity).
  assert (Elu : lu_factors (lu sn) = f) by (rewrite En; reflexivity).
  assert (Hn2 : Z.to_nat N - 2 = Z.to_nat (N - 2)) by lia.
  rewrite Hn2.
  exists sn. split; [exact Rn|]. split; [apply Vn|].
  split; [intros Hz; exact (cache_stencil a N T f sn Hz H3 En Ln Vn)|].
  split; [now rewrite EA, Elu|].
  exists s1. split; [exact R1|]. split; [exact L1'|].
  split; [rewrite length_interior, L1'; lia|].
  split; [exact Sol|]. split.
  { (* the solver was given the factors of [A] and the cache *)
    intros Hsolver.
    destruct Cn as (k & _ & _ & _ & Hshape & Hrhs).
    assert (Hlen : length (rhs_eq sn) = length (A_of a N)).
    { rewrite length_A_of, Hrhs, <- Hshape, En. reflexivity. }
    pose proof (Hsolver (A_of a N) f Hf (rhs_eq sn) Hlen) as Hx.
    unfold lu_solve in Sol.
    destruct (length (rhs_eq sn) =? shape (lu sn)); [|discriminate Sol].
    apply ret_OK in Sol. destruct Sol as [Sol _].
    rewrite EA, <- Sol, Elu. exact Hx. }
  split; [exact F1|].
  split; [rewrite Ln in Fl; exact Fl|].
  split; [apply V1|].
  intros Hz. exact (cache_stencil a N T f s1 Hz H3 E1' L1' V1).
Qed.

(** C3: a construction calls [splu] exactly once; any number [n] of steps
    after it returns without a further call, and the instance it reaches
    differs from the constructed one in [packet] and [rhs_eq] only: the
    grids, the potential, the wavenumber data, [A], [B], [b] and the
    factorisation are the constructed ones. *)
Theorem factorized_once_and_frozen a c self c' n :
  __init__ a c = OK (self, c') ->
  c' = S c
  /\ factorize (A self) = OK (lu_factors (lu self))
  /\ exists self_n,
      advance n self c' = OK (self_n, c')
      /\ self_n = set_packet_rhs self (packet self_n) (rhs_eq self_n)
      /\ x self_n = x self /\ t self_n = t self /\ V self_n = V self
      /\ k self_n = k self /\ dk self_n = dk self /\ K self_n = K self
      /\ A self_n = A self /\ B self_n = B self /\ b self_n = b self
      /\ lu self_n = lu self.
Proof.
  intros H. from_init H as N T f.
  split; [reflexivity|]. split; [exact Hf|].
  destruct (advance_ok (built a N T f) (S c) n
              (consistent_built a N T f H3) (cache_valid_built a N T f H3))
    as (sn & Rn & En & _).
  exists sn. split; [exact Rn|]. split; [exact En|].
  rewrite En. cbn [x t V k dk K A B b lu set_packet_rhs].
  repeat split; reflexivity.
Qed.

(** C5: after a successful construction and any number [n] of steps, the
    state vector [get_packet] returns has the length of the grid, and its
    first and its last entry are those of the constructed state vector: the
    Gaussian of [_gauss] at the first and at the last grid point. *)
Theorem boundary_entries_pinned a c self c' n :
  __init__ a c = OK (self, c') ->
  let last := Z.to_nat (division_x self) - 1 in
  exists self_n,
    advance n self c' = OK (self_n, c')
    /\ length (get_packet self_n) = Z.to_nat (division_x self)
    /\ nth 0 (get_packet self_n) c0 = nth 0 (get_packet self) c0
    /\ nth last (get_packet self_n) c0 = nth last (get_packet self) c0
    /\ nth 0 (get_packet self) c0
       = gauss_value (x_packet self) (size_packet self) (k self)
                     (nth 0 (x self) 0%float)
    /\ nth last (get_packet self) c0
       = gauss_value (x_packet self) (size_packet self) (k self)
                     (nth last (x self) 0%float).
Proof.
  intros H. from_init H as N T f.
  destruct (advance_ok (built a N T f) (S c) n
              (consistent_built a N T f H3) (cache_valid_built a N T f H3))
    as (sn & Rn & _ & Ln & F0 & Fl & _).
  cbn [division_x packet x x_packet size_packet k built] in *.
  unfold get_packet.
  exists sn. split; [exact Rn|].
  cbn [packet built]. rewrite length_packet_of in *.
  split; [exact Ln|]. split; [exact F0|]. split; [exact Fl|].
  assert (Hg : forall i, i < Z.to_nat N ->
             nth i (packet_of a N) c0
             = gauss_value (x_packet_of a) (si_size_packet a) (k_of a)
                           (nth i (x_of a N) 0%float)).
  { intros i Hi. unfold packet_of.
    rewrite (nth_indep _ c0 (gauss_value (x_packet_of a) (si_size_packet a)
                                         (k_of a) 0%float))
      by now rewrite length_map, length_x_of.
    apply (map_nth (gauss_value (x_packet_of a) (si_size_packet a) (k_of a))). }
  split; apply Hg; lia.
Qed.

(** C6: a successful construction has [sigma = 6 * size_packet] for the SI
    value of the packet size, [x_packet = 2 * sigma],
    [x_barrier = x_packet + sigma], [x_min = 0],
    [x_max = x_barrier + 4 * sigma], a grid size
    [N = floor((x_max - x_min) / dx)], and as grid the [N] points of
    [np.linspace(x_min, x_max, N)]: the first is [0 * step + x_min] for the
    step [(x_max - x_min) / (N - 1)] of the grid (or
    [0 / (N - 1) * (x_max - x_min) + x_min] should that step be zero), the
    last is [x_max]. *)
Theorem spatial_grid a c self c' :
  __init__ a c = OK (self, c') ->
  let sigma := (6 * size_packet self)%float in
  size_packet self = (arg_size_packet a * 1e-9)%float
  /\ x_packet self = (2 * sigma)%float
  /\ x_barrier self = (x_packet self + sigma)%float
  /\ x_min self = 0%float
  /\ x_max self = (x_barrier self + 4 * sigma)%float
  /\ Py.floor ((x_max self - x_min self) / dx self) = Some (division_x self)
  /\ x self = np.linspace_array (x_min self) (x_max self) (division_x self)
  /\ length (x self) = Z.to_nat (division_x self)
  /\ (3 <= division_x self)%Z
  /\ nth 0 (x self) 0%float
     = ((if Py.is_zero (linspace_step (x_min self) (x_max self) (division_x self))
         then (0 / Py.float_of_Z (division_x self - 1))
              * (x_max self - x_min self)
         else 0 * linspace_step (x_min self) (x_max self) (division_x self))
        + x_min self)%float
  /\ nth (Z.to_nat (division_x self) - 1) (x self) 0%float = x_max self.
Proof.
  intros H. from_init H as N T f.
  cbn [size_packet x_packet x_barrier x_min x_max dx division_x x built].
  repeat (split; [reflexivity|]).
  split; [apply trunc_floor; [exact HN | lia]|].
  split; [reflexivity|]. split; [apply length_x_of|]. split; [exact H3|].
  split; [|apply nth_linspace_last; lia].
  unfold x_of. rewrite (nth_linspace_array 0 (x_max_of a) N 0) by lia.
  reflexivity.
Qed.

(** C7: the state vector of a successful construction has one entry per
    grid point, the two boundary points included, and the entry at the grid
    point [x_i] is
    [exp(-(x_i - x_packet)**2 / (4 * size_packet**2) + 1j * k * x_i)
     / (2 * pi * size_packet**2) ** 0.25],
    with [k = sqrt(2 * m_e * E) / hbar] for the SI value [E] of the packet
    energy. *)
Theorem initial_packet a c self c' :
  __init__ a c = OK (self, c') ->
  let N := Z.to_nat (division_x self) in
  let psi := gauss_value (x_packet self) (size_packet self) (k self) in
  k self = (sqrt (2 * m_e * energy_packet self) / hbar)%float
  /\ energy_packet self = (arg_energy_packet a * e)%float
  /\ length (get_packet self) = N /\ length (x self) = N /\ 3 <= N
  /\ get_packet self = map psi (x self)
  /\ (forall i, i < N ->
        nth i (get_packet self) c0 = psi (nth i (x self) 0%float))
  /\ nth 0 (get_packet self) c0 = psi (nth 0 (x self) 0%float)
  /\ nth (N - 1) (get_packet self) c0 = psi (nth (N - 1) (x self) 0%float).
Proof.
  intros H. from_init H as N T f.
  cbn [k energy_packet division_x x_packet size_packet x packet built get_packet].
  unfold get_packet. cbn [packet built].
  assert (Hg : forall i, i < Z.to_nat N ->
             nth i (packet_of a N) c0
             = gauss_value (x_packet_of a) (si_size_packet a) (k_of a)
                           (nth i (x_of a N) 0%float)).
  { intros i Hi. unfold packet_of.
    rewrite (nth_indep _ c0 (gauss_value (x_packet_of a) (si_size_packet a)
                                         (k_of a) 0%float))
      by now rewrite length_map, length_x_of.
    apply (map_nth (gauss_value (x_packet_of a) (si_size_packet a) (k_of a))). }
  split; [reflexivity|]. split; [reflexivity|].
  split; [apply length_packet_of|]. split; [apply length_x_of|].
  split; [lia|]. split; [reflexivity|]. split; [exact Hg|].
  split; apply Hg; lia.
Qed.

(** C8: the potential of a successful construction has one float per grid
    point: the barrier height (in SI units) where the grid point [x_i] has
    [x_barrier <= x_i <= x_barrier + size_barrier], zero elsewhere; any
    number [n] of steps leaves it as constructed. *)
Theorem potential_profile a c self c' n :
  __init__ a c = OK (self, c') ->
  length (V self) = Z.to_nat (division_x self)
  /\ potential_barrier_height self
     = (arg_potential_barrier_height a * e)%float
  /\ (forall i, i < Z.to_nat (division_x self) ->
        nth i (V self) 0%float
        = if ((x_barrier self <=? nth i (x self) 0)
              && (nth i (x self) 0 <=? x_barrier self + size_barrier self))%float
          then potential_barrier_height self else 0%float)
  /\ exists self_n, advance n self c' = OK (self_n, c') /\ V self_n = V self.
Proof.
  intros H. from_init H as N T f.
  cbn [V division_x potential_barrier_height x_barrier x size_barrier built].
  split; [apply length_V_of|]. split; [reflexivity|]. split.
  - intros i Hi. unfold V_of, np.where_. rewrite map_map.
    set (g := fun xi : float =>
                if ((x_barrier_of a <=? xi)
                    && (xi <=? x_barrier_of a + si_size_barrier a))%float
                then si_barrier_height a else 0%float).
    rewrite (nth_indep _ 0%float (g 0%float))
      by now rewrite length_map, length_x_of.
    rewrite (map_nth g). reflexivity.
  - destruct (advance_ok (built a N T f) (S c) n
                (consistent_built a N T f H3) (cache_valid_built a N T f H3))
      as (sn & Rn & En & _).
    exists sn. split; [exact Rn|]. rewrite En. reflexivity.
Qed.

(** C10: the grid of a successful construction is
    [np.linspace(x_min, x_max, N)], both end points included: its step is
    [(x_max - x_min) / (N - 1)], the points before the last are the multiples
    of that step (shifted by [x_min]) and the last is [x_max]; the
    coefficient [r] in [A] and [B] is
    [1j * dt / dx**2 * hbar / (4 * m_e)] for the configured [dx] in SI units.
    The two differ in general: with the default parameters the grid has 4200
    points, the first two of them one step apart, and that step is not
    [dx]. *)
Theorem grid_step_is_not_dx a c self c' :
  __init__ a c = OK (self, c') ->
  let N := division_x self in
  let step := linspace_step (x_min self) (x_max self) N in
  step = ((x_max self - x_min self) / Py.float_of_Z (N - 1))%float
  /\ (forall i, (Z.of_nat i < N - 1)%Z ->
        nth i (x self) 0%float
        = ((if Py.is_zero step
            then (Py.float_of_Z (Z.of_nat i) / Py.float_of_Z (N - 1))
                 * (x_max self - x_min self)
            else Py.float_of_Z (Z.of_nat i) * step) + x_min self)%float)
  /\ nth (Z.to_nat N - 1) (x self) 0%float = x_max self
  /\ dx self = (arg_dx a * 1e-12)%float
  /\ get (A self) 0 0
     = cadd (of_float 1) (cmul (of_float 2) (r_value (dt self) (dx self)))
  /\ r_value (dt self) (dx self)
     = cdiv (cmul (cdiv (cmul cj (of_float (dt self)))
                        (of_float (fpow (dx self) 2)))
                  (of_float hbar))
            (of_float (4 * m_e))
  /\ (division_x_of default_params = Some 4200%Z
      /\ (nth 1 (x_of default_params 4200) 0 - nth 0 (x_of default_params 4200) 0
          = linspace_step 0 (x_max_of default_params) 4200)%float
      /\ linspace_step 0 (x_max_of default_params) 4200 <> si_dx default_params).
Proof.
  intros H. from_init H as N T f.
  cbn [division_x x_min x_max x dx dt A built].
  split; [reflexivity|]. split; [|split; [|split; [|split; [|split]]]].
  - intros i Hi. unfold x_of. now apply nth_linspace_array.
  - apply nth_linspace_last. lia.
  - reflexivity.
  - unfold A_of, A_value. rewrite get_tridiag by lia. reflexivity.
  - reflexivity.
  - exact default_step_differs.
Qed.

(** C9, as the code has it: constructed with the default parameters, the
    number of time points is [int(30 fs / 10 as)] = 3000 and the grid has
    4200 points; the state vector has length 4200 after the construction
    and after one call of [calculate_timestep], which returns. *)
Theorem default_scenario c self c' :
  __init__ default_params c = OK (self, c') ->
  division_time self = 3000%Z
  /\ division_x self = 4200%Z
  /\ Z.of_nat (length (get_packet self)) = 4200%Z
  /\ exists self1,
      calculate_timestep self c' = OK (self1, c')
      /\ Z.of_nat (length (get_packet self1)) = 4200%Z.
Proof.
  intros H. from_init H as N T f.
  assert (EN : N = 4200%Z).
  { pose proof default_division_x as E. rewrite HN in E. now injection E. }
  assert (ET : T = 3000%Z).
  { pose proof default_division_time as E. rewrite HT in E. now injection E. }
  cbn [division_time division_x built]. unfold get_packet.
  split; [exact ET|]. split; [exact EN|].
  destruct (step_ok (built default_params N T f) (S c)
              (consistent_built default_params N T f H3))
    as (s1 & R1 & _ & _ & L1 & _).
  cbn [packet built] in *. rewrite length_packet_of in L1.
  split; [rewrite length_packet_of; lia|].
  exists s1. split; [exact R1|]. rewrite L1. lia.
Qed.

(** C4, as the code has it: the constructor validates nothing itself, and
    there is no [InvalidConfiguration]; a construction raises (one of the
    exceptions of [exn], from the arithmetic, numpy or SuperLU), returning
    no instance, whenever the parameters give fewer than three grid points
    or a negative number of time points. *)
Theorem degenerate_grid_raises a c :
  (forall N T, division_x_of a = Some N -> division_time_of a = Some T ->
               (N < 3 \/ T < 0)%Z) ->
  exists err, __init__ a c = Raise err.
Proof.
  intros Hdeg. destruct (__init__ a c) as [[self c']|err] eqn:H.
  - exfalso. from_init H as N T f.
    destruct (Hdeg N T HN HT); lia.
  - exists err. reflexivity.
Qed.

End Claims.

(** * The exact instance keeps the promise of the solver *)

Module ExactFacts.
Import QArith Qcanon.
Local Open Scope Qc_scope.
Import Exact.

Lemma eqb_eq u v : eqb u v = true -> u = v.
Proof.
  destruct u as [a b], v as [c d]. unfold eqb. cbn [fst snd].
  intros H. apply andb_prop in H. destruct H as [H1 H2].
  apply Qeq_bool_iff in H1, H2. apply Qc_is_canon in H1, H2. now subst.
Qed.

(** The arithmetic is that of a commutative ring. *)
Lemma add_0_l u : add zero u = u.
Proof. destruct u as [a b]. unfold add, zero. cbn [fst snd]. f_equal; ring. Qed.

Lemma add_0_r u : add u zero = u.
Proof. destruct u as [a b]. unfold add, zero. cbn [fst snd]. f_equal; ring. Qed.

Lemma add_comm u v : add u v = add v u.
Proof. unfold add. f_equal; ring. Qed.

Lemma add_assoc u v w : add u (add v w) = add (add u v) w.
Proof. unfold add. cbn [fst snd]. f_equal; ring. Qed.

Lemma mul_0_l u : mul zero u = zero.
Proof. unfold mul, zero. cbn [fst snd]. f_equal; ring. Qed.

Lemma mul_0_r u : mul u zero = zero.
Proof. unfold mul, zero. cbn [fst snd]. f_equal; ring. Qed.

Lemma mul_1_l u : mul one u = u.
Proof. destruct u as [a b]. unfold mul, one. cbn [fst snd]. f_equal; ring. Qed.

Lemma mul_assoc u v w : mul u (mul v w) = mul (mul u v) w.
Proof. unfold mul. cbn [fst snd]. f_equal; ring. Qed.

Lemma mul_add_distr_l u v w : mul u (add v w) = add (mul u v) (mul u w).
Proof. unfold mul, add. cbn [fst snd]. f_equal; ring. Qed.

Lemma mul_add_distr_r u v w : mul (add u v) w = add (mul u w) (mul v w).
Proof. unfold mul, add. cbn [fst snd]. f_equal; ring. Qed.

(** *** Sums *)

Lemma fold_left_total {T} (g : T -> cx) l acc :
  fold_left (fun acc v => add acc (g v)) l acc = add acc (total (map g l)).
Proof.
  revert acc. induction l as [|v l IH]; intros acc; cbn [fold_left map total fold_right].
  - now rewrite add_0_r.
  - rewrite IH. fold (total (map g l)). now rewrite add_assoc.
Qed.

Lemma total_add {T} (g h : T -> cx) l :
  total (map (fun v => add (g v) (h v)) l) = add (total (map g l)) (total (map h l)).
Proof.
  induction l as [|v l IH]; cbn [map total fold_right].
  - now rewrite add_0_l.
  - fold (total (map (fun v => add (g v) (h v)) l)).
    fold (total (map g l)). fold (total (map h l)). rewrite IH.
    rewrite <- !add_assoc. f_equal.
    rewrite !add_assoc. f_equal. apply add_comm.
Qed.

Lemma total_scale_l {T} u (g : T -> cx) l :
  total (map (fun v => mul u (g v)) l) = mul u (total (map g l)).
Proof.
  induction l as [|v l IH]; cbn [map total fold_right].
  - now rewrite mul_0_r.
  - fold (total (map (fun v => mul u (g v)) l)). fold (total (map g l)).
    now rewrite IH, mul_add_distr_l.
Qed.

Lemma total_scale_r {T} u (g : T -> cx) l :
  total (map (fun v => mul (g v) u) l) = mul (total (map g l)) u.
Proof.
  induction l as [|v l IH]; cbn [map total fold_right].
  - now rewrite mul_0_l.
  - fold (total (map (fun v => mul (g v) u) l)). fold (total (map g l)).
    now rewrite IH, mul_add_distr_r.
Qed.

Lemma total_zero {T} (l : list T) : total (map (fun _ => zero) l) = zero.
Proof.
  induction l as [|v l IH]; cbn [map total fold_right]; [reflexivity|].
  fold (total (map (fun _ : T => zero) l)). now rewrite IH, add_0_l.
Qed.

Lemma total_swap {T U} (g : T -> U -> cx) l1 l2 :
  total (map (fun u => total (map (fun v => g u v) l2)) l1)
  = total (map (fun v => total (map (fun u => g u v) l1)) l2).
Proof.
  induction l1 as [|u l1 IH]; cbn [map total fold_right].
  - now rewrite total_zero.
  - fold (total (map (fun u => total (map (fun v => g u v) l2)) l1)).
    rewrite IH. rewrite <- total_add. reflexivity.
Qed.

Lemma total_ext {T} (g h : T -> cx) l :
  (forall v, In v l -> g v = h v) -> total (map g l) = total (map h l).
Proof. intros H. f_equal. now apply map_ext_in. Qed.

Lemma total_delta (g : nat -> cx) i : forall len s,
  total (map (fun k => mul (delta i k) (g k)) (seq s len))
  = if ((s <=? i) && (i <? s + len))%nat then g i else zero.
Proof.
  induction len as [|len IH]; intros s; cbn [seq map total fold_right].
  - destruct (Nat.leb_spec s i); destruct (Nat.ltb_spec i (s + 0));
      cbn [andb]; try reflexivity; lia.
  - fold (total (map (fun k => mul (delta i k) (g k)) (seq (S s) len))).
    rewrite IH. unfold delta.
    destruct (Nat.eqb_spec i s) as [->|Hne].
    + rewrite mul_1_l.
      destruct (Nat.leb_spec (S s) s); [lia|]. cbn [andb]. rewrite add_0_r.
      destruct (Nat.leb_spec s s); [|lia].
      destruct (Nat.ltb_spec s (s + S len)); [reflexivity|lia].
    + rewrite mul_0_l, add_0_l.
      destruct (Nat.leb_spec (S s) i); destruct (Nat.ltb_spec i (S s + len));
        destruct (Nat.leb_spec s i); destruct (Nat.ltb_spec i (s + S len));
        cbn [andb]; try reflexivity; lia.
Qed.

(** A product of a row and a vector of one length, as a sum over the
    indices. *)
Lemma combine_by_index (row v : list cx) : forall n,
  length row = n -> length v = n ->
  map (fun av => mul (fst av) (snd av)) (combine row v)
  = map (fun k => mul (nth k row zero) (nth k v zero)) (seq 0 n).
Proof.
  revert v. induction row as [|x row IH]; intros v n Hr Hv.
  - cbn in Hr. subst n. reflexivity.
  - destruct v as [|y v]; [cbn in Hr, Hv; lia|].
    destruct n as [|n]; [discriminate Hr|].
    cbn [length] in Hr, Hv. cbn [combine map seq fst snd nth].
    f_equal. rewrite (IH v n) by lia.
    rewrite <- seq_shift, map_map. reflexivity.
Qed.

Lemma row_dot_total (row v : list cx) n :
  length row = n -> length v = n ->
  row_dot row v = total (map (fun k => mul (nth k row zero) (nth k v zero)) (seq 0 n)).
Proof.
  intros Hr Hv. unfold row_dot.
  rewrite (fold_left_total (fun av => mul (fst av) (snd av))), add_0_l.
  now rewrite (combine_by_index row v n).
Qed.

Lemma square_rows n (m : list (list cx)) i :
  square n m = true -> (i < n)%nat -> length (nth i m []) = n.
Proof.
  unfold square. intros H Hi. apply andb_prop in H. destruct H as [Hl Hr].
  apply Nat.eqb_eq in Hl. rewrite forallb_forall in Hr.
  apply Nat.eqb_eq. apply Hr. apply nth_In. lia.
Qed.

Lemma square_length n (m : list (list cx)) : square n m = true -> length m = n.
Proof.
  unfold square. intros H. apply andb_prop in H. destruct H as [Hl _].
  now apply Nat.eqb_eq.
Qed.

Lemma nth_column k (w : list (list cx)) i :
  (i < length w)%nat -> nth i (column k w) zero = nth k (nth i w []) zero.
Proof.
  intros Hi. unfold column.
  rewrite (nth_indep _ zero (nth k [] zero)) by now rewrite length_map.
  apply (map_nth (fun row => nth k row zero)).
Qed.

(** What [is_inverse] has checked. *)
Lemma is_inverse_spec (m w : list (list cx)) :
  is_inverse m w = true ->
  let n := length m in
  square n m = true /\ square n w = true
  /\ forall i k, (i < n)%nat -> (k < n)%nat ->
       row_dot (nth i m []) (column k w) = delta i k.
Proof.
  unfold is_inverse. intros H. cbv zeta.
  apply andb_prop in H. destruct H as [H Hall].
  apply andb_prop in H. destruct H as [Hm Hw].
  split; [exact Hm|]. split; [exact Hw|].
  intros i k Hi Hk. rewrite forallb_forall in Hall.
  specialize (Hall i ltac:(apply in_seq; lia)).
  rewrite forallb_forall in Hall.
  apply eqb_eq. apply Hall. apply in_seq. lia.
Qed.

(** A checked inverse solves every system of its matrix. *)
Lemma inverse_solves (m w : list (list cx)) (rhs : list cx) :
  is_inverse m w = true -> length rhs = length m ->
  map (fun row => row_dot row (map (solution_entry w rhs) (seq 0 (length rhs)))) m
  = rhs.
Proof.
  intros Hinv Hlen. apply is_inverse_spec in Hinv. cbv zeta in Hinv.
  destruct Hinv as (Hm & Hw & Hone).
  set (n := length m) in *. rewrite Hlen.
  set (x := map (solution_entry w rhs) (seq 0 n)).
  assert (Hx : length x = n) by (unfold x; now rewrite length_map, length_seq).
  assert (Hwl : length w = n) by now apply square_length.
  apply (nth_ext _ _ zero zero); [now rewrite length_map|].
  intros i Hi. rewrite length_map in Hi. fold n in Hi.
  rewrite (nth_indep _ zero (row_dot [] x)) by now rewrite length_map.
  rewrite (map_nth (fun row => row_dot row x)).
  set (mi := nth i m []).
  assert (Hmi : length mi = n) by (unfold mi; now apply square_rows).
  rewrite (row_dot_total mi x n Hmi Hx).
  (* each entry of [x] is a sum over the entries of [rhs] *)
  rewrite (total_ext _
             (fun k => total (map (fun l => mul (nth k mi zero)
                                              (mul (nth l (nth k w []) zero)
                                                   (nth l rhs zero)))
                                  (seq 0 n)))).
  2:{ intros k Hk. apply in_seq in Hk.
      unfold x. rewrite (nth_map_seq _ n k zero) by lia.
      unfold solution_entry.
      rewrite (row_dot_total (nth k w []) rhs n)
        by (try apply square_rows; try assumption; lia).
      now rewrite <- total_scale_l. }
  rewrite total_swap.
  rewrite (total_ext _ (fun l => mul (delta i l) (nth l rhs zero))).
  2:{ intros l Hl. apply in_seq in Hl.
      rewrite (total_ext _ (fun k => mul (mul (nth k mi zero)
                                              (nth k (column l w) zero))
                                         (nth l rhs zero))).
      2:{ intros k Hk. apply in_seq in Hk.
          rewrite nth_column by lia. apply mul_assoc. }
      rewrite (total_scale_r (nth l rhs zero)
                 (fun k => mul (nth k mi zero) (nth k (column l w) zero))).
      f_equal.
      rewrite <- (row_dot_total mi (column l w) n Hmi)
        by (unfold column; now rewrite length_map).
      apply Hone; lia. }
  rewrite total_delta. cbn [Nat.leb Nat.add].
  destruct (Nat.ltb_spec i n); [reflexivity|lia].
Qed.

Lemma solver_exact : exact_solver (num := numerics).
Proof.
  intros m f Hf rhs Hlen.
  change (checked_inverse m = OK f) in Hf. unfold checked_inverse in Hf.
  destruct (is_inverse m (invert m)) eqn:E; [|discriminate Hf].
  injection Hf as <-.
  exact (inverse_solves m (invert m) rhs E Hlen).
Qed.

(** The grid of three points is constructed on this instance. *)
Lemma three_point_init :
  exists f, __init__ (num := numerics) three_point_params 0%nat
            = OK (built three_point_params 3 3000 f, 1%nat).
Proof.
  destruct (checked_inverse (A_of (num := numerics) three_point_params 3))
    as [f|err] eqn:E.
  - exists f. apply (init_ok (num := numerics) three_point_params 3 3000 f).
    + vm_compute. reflexivity.
    + vm_compute. reflexivity.
    + vm_compute. reflexivity.
    + rewrite max_float64_eq. lia.
    + rewrite max_float64_eq. lia.
    + exact E.
  - exfalso. vm_compute in E. discriminate E.
Qed.

End ExactFacts.

(** * The claims on concrete parameters *)

Lemma default_init :
  __init__ (num := Sym.numerics) default_params 0 = OK (default_instance, 1).
Proof.
  apply (init_ok (num := Sym.numerics) default_params 4200 3000).
  - vm_compute. reflexivity.
  - exact default_division_x.
  - exact default_division_time.
  - rewrite max_float64_eq. lia.
  - rewrite max_float64_eq. lia.
  - reflexivity.
Defined.

Lemma system_matrices_witness :
  __init__ (num := Sym.numerics) coarse_params 0 = OK (coarse_instance, 1)
  /\ length (b coarse_instance) = 3.
Proof.
  assert (H : __init__ (num := Sym.numerics) coarse_params 0
              = OK (coarse_instance, 1)) by (vm_compute; reflexivity).
  split; [exact H|].
  pose proof (system_matrices coarse_params 0 coarse_instance 1 H) as P.
  cbv zeta in P. destruct P as (_ & _ & _ & _ & _ & Hb & _). exact Hb.
Defined.

Lemma step_and_cache_witness :
  c_is_zero (Numerics := Exact.numerics) c0 = true
  /\ exact_solver (num := Exact.numerics)
  /\ exists self self_2 self_3,
      __init__ (num := Exact.numerics) three_point_params 0 = OK (self, 1)
      /\ division_x self = 3%Z
      /\ advance 2 self 1 = OK (self_2, 1)
      /\ calculate_timestep self_2 1 = OK (self_3, 1)
      /\ mat_vec (A self_2) (interior (packet self_3)) = rhs_eq self_2
      /\ length (rhs_eq self_3) = 1.
Proof.
  assert (Hz : c_is_zero (Numerics := Exact.numerics) c0 = true)
    by (vm_compute; reflexivity).
  split; [exact Hz|]. split; [exact ExactFacts.solver_exact|].
  destruct ExactFacts.three_point_init as (f & H).
  destruct (step_and_cache three_point_params 0 _ 1 2 H)
    as (s2 & R2 & _ & _ & _ & s3 & R3 & _ & _ & _ & Hx & _ & _ & _ & Hc).
  exists (@built Exact.numerics three_point_params 3 3000 f), s2, s3.
  split; [exact H|]. split; [reflexivity|].
  split; [exact R2|]. split; [exact R3|].
  split; [exact (Hx ExactFacts.solver_exact)|].
  rewrite (Hc Hz). reflexivity.
Defined.

Lemma factorized_once_and_frozen_witness :
  __init__ (num := Sym.numerics) coarse_params 0 = OK (coarse_instance, 1)
  /\ exists self_2,
      advance 2 coarse_instance 1 = OK (self_2, 1)
      /\ A self_2 = A coarse_instance /\ lu self_2 = lu coarse_instance.
Proof.
  assert (H : __init__ (num := Sym.numerics) coarse_params 0
              = OK (coarse_instance, 1)) by (vm_compute; reflexivity).
  split; [exact H|].
  destruct (factorized_once_and_frozen coarse_params 0 coarse_instance 1 2 H)
    as (_ & _ & s2 & R2 & _ & _ & _ & _ & _ & _ & _ & EA & _ & _ & El).
  exists s2. split; [exact R2|]. split; [exact EA | exact El].
Defined.

Lemma boundary_entries_pinned_witness :
  __init__ (num := Sym.numerics) coarse_params 0 = OK (coarse_instance, 1)
  /\ exists self_2,
      advance 2 coarse_instance 1 = OK (self_2, 1)
      /\ nth 0 (get_packet self_2) c0 = nth 0 (get_packet coarse_instance) c0
      /\ nth 4 (get_packet self_2) c0 = nth 4 (get_packet coarse_instance) c0.
Proof.
  assert (H : __init__ (num := Sym.numerics) coarse_params 0
              = OK (coarse_instance, 1)) by (vm_compute; reflexivity).
  split; [exact H|].
  pose proof (boundary_entries_pinned coarse_params 0 coarse_instance 1 2 H) as P.
  cbv zeta in P. destruct P as (s2 & R2 & _ & F0 & Fl & _).
  exists s2. split; [exact R2|]. split; [exact F0 | exact Fl].
Defined.

Lemma spatial_grid_witness :
  __init__ (num := Sym.numerics) coarse_params 0 = OK (coarse_instance, 1)
  /\ Py.floor ((x_max coarse_instance - x_min coarse_instance)
               / dx coarse_instance) = Some 5%Z
  /\ length (x coarse_instance) = 5
  /\ nth 0 (x coarse_instance) 0%float = 0%float
  /\ nth 4 (x coarse_instance) 0%float = x_max coarse_instance.
Proof.
  assert (H : __init__ (num := Sym.numerics) coarse_params 0
              = OK (coarse_instance, 1)) by (vm_compute; reflexivity).
  split; [exact H|].
  pose proof (spatial_grid coarse_params 0 coarse_instance 1 H) as P.
  cbv zeta in P.
  destruct P as (_ & _ & _ & _ & _ & Hfl & _ & Hlen & _ & Hfirst & Hlast).
  split; [exact Hfl|]. split; [exact Hlen|].
  split; [rewrite Hfirst; vm_compute; reflexivity | exact Hlast].
Defined.

Lemma initial_packet_witness :
  __init__ (num := Sym.numerics) coarse_params 0 = OK (coarse_instance, 1)
  /\ nth 0 (get_packet coarse_instance) c0
     = gauss_value (x_packet coarse_instance) (size_packet coarse_instance)
                   (k coarse_instance) (nth 0 (x coarse_instance) 0%float).
Proof.
  assert (H : __init__ (num := Sym.numerics) coarse_params 0
              = OK (coarse_instance, 1)) by (vm_compute; reflexivity).
  split; [exact H|].
  pose proof (initial_packet coarse_params 0 coarse_instance 1 H) as P.
  cbv zeta in P. destruct P as (_ & _ & _ & _ & _ & _ & _ & H0 & _).
  exact H0.
Defined.

Lemma potential_profile_witness :
  __init__ (num := Sym.numerics) coarse_params 0 = OK (coarse_instance, 1)
  /\ length (V coarse_instance) = 5
  /\ exists self_2,
      advance 2 coarse_instance 1 = OK (self_2, 1)
      /\ V self_2 = V coarse_instance.
Proof.
  assert (H : __init__ (num := Sym.numerics) coarse_params 0
              = OK (coarse_instance, 1)) by (vm_compute; reflexivity).
  split; [exact H|].
  destruct (potential_profile coarse_params 0 coarse_instance 1 2 H)
    as (Hlen & _ & _ & Hfr).
  split; [exact Hlen | exact Hfr].
Defined.

Lemma grid_step_is_not_dx_witness :
  __init__ (num := Sym.numerics) coarse_params 0 = OK (coarse_instance, 1)
  /\ nth 4 (x coarse_instance) 0%float = x_max coarse_instance.
Proof.
  assert (H : __init__ (num := Sym.numerics) coarse_params 0
              = OK (coarse_instance, 1)) by (vm_compute; reflexivity).
  split; [exact H|].
  pose proof (grid_step_is_not_dx coarse_params 0 coarse_instance 1 H) as P.
  cbv zeta in P. destruct P as (_ & _ & Hl & _). exact Hl.
Defined.

Lemma default_scenario_witness :
  __init__ (num := Sym.numerics) default_params 0 = OK (default_instance, 1)
  /\ division_time default_instance = 3000%Z
  /\ division_x default_instance = 4200%Z.
Proof.
  split; [exact default_init|].
  destruct (default_scenario 0 default_instance 1 default_init)
    as (HT & HN & _).
  split; [exact HT | exact HN].
Defined.

(** C9, as the spec states it: the default parameters do not give
    3,000,000 time points. *)
Lemma default_time_points_counterexample :
  exists self,
    __init__ (num := Sym.numerics) default_params 0 = OK (self, 1)
    /\ division_time self = 3000%Z
    /\ division_time self <> 3000000%Z.
Proof.
  exists default_instance. split; [exact default_init|].
  split; [reflexivity|]. intros E. discriminate E.
Qed.

Lemma degenerate_grid_raises_witness :
  division_x_of two_point_params = Some 2%Z
  /\ exists err, __init__ (num := Sym.numerics) two_point_params 0 = Raise err.
Proof.
  split; [vm_compute; reflexivity|].
  apply (degenerate_grid_raises (num := Sym.numerics) two_point_params 0).
  intros N T HN _. vm_compute in HN. injection HN as <-. left. lia.
Defined.

(** C4, as the spec states it: a construction with no time point at all
    ([T = 0], from positive parameters) returns an instance, and so does one
    with negative energy, barrier height and barrier size. *)
Lemma accepted_degenerate_counterexample :
  (exists self,
      __init__ (num := Sym.numerics) short_params 0 = OK (self, 1)
      /\ division_time self = 0%Z /\ t self = [])
  /\ (exists self,
         __init__ (num := Sym.numerics) negative_params 0 = OK (self, 1)
         /\ (PrimFloat.ltb (energy_packet self) 0
             && PrimFloat.ltb (potential_barrier_height self) 0
             && PrimFloat.ltb (size_barrier self) 0 = true)).
Proof.
  split.
  - exists (@built Sym.numerics short_params 5 0 (@A_of Sym.numerics short_params 5)).
    split; [vm_compute; reflexivity|]. split; reflexivity.
  - exists (@built Sym.numerics negative_params 5 3000
                   (@A_of Sym.numerics negative_params 5)).
    split; vm_compute; reflexivity.
Qed.

(** * Further properties of the constructor *)

Lemma bind_raise {T U} (m : M T) (f : T -> M U) c err :
  m c = Raise err -> bind m f c = Raise err.
Proof. unfold bind. intros ->. reflexivity. Qed.

Section ConstructorErrors.
Context {num : Numerics}.

Variable a : params.
Variable c : nat.

(** Unfolds the constructor and names its SI values. *)
Ltac open_init :=
  unfold __init__;
  fold (si_size_packet a) (si_size_barrier a) (si_time_duration a)
       (si_energy_packet a) (si_barrier_height a) (si_dx a) (si_dt a);
  fold (sigma_of a); fold (x_packet_of a); fold (x_barrier_of a);
  fold (x_max_of a); fold (k_of a).

(** X1: a spatial step that is zero in SI units ([dx = 0], or so small that
    [dx * 1e-12] underflows) makes the constructor raise
    [ZeroDivisionError], whatever the other parameters are. *)
Theorem zero_dx_raises :
  Py.is_zero (si_dx a) = true -> __init__ a c = Raise ZeroDivisionError.
Proof.
  intros Hz. open_init. apply bind_raise.
  unfold Py.truediv. now rewrite Hz.
Qed.

(** X2: with a spatial step that is not zero and a grid size [N >= 0] that
    numpy accepts for the spatial grid (at most [np.max_float64] points; a
    larger one makes [np.linspace] raise [ValueError] first), a time step
    that is zero in SI units makes the constructor raise
    [ZeroDivisionError]. *)
Theorem zero_dt_raises N :
  Py.is_zero (si_dx a) = false -> division_x_of a = Some N ->
  (0 <= N <= np.max_float64)%Z ->
  Py.is_zero (si_dt a) = true ->
  __init__ a c = Raise ZeroDivisionError.
Proof.
  intros Zdx HN HN0 Zdt. open_init.
  rewrite (bind_ret _ _ c _ (truediv_ok _ _ c Zdx)).
  rewrite (bind_ret _ _ c _ (int_ok _ c N HN)).
  rewrite (bind_ret _ _ c _ (linspace_ok _ _ N c HN0)).
  apply bind_raise. unfold Py.truediv. now rewrite Zdt.
Qed.

(** X3: when both steps are not zero and both grid sizes are defined, not
    negative and accepted by numpy (at most [np.max_float64] points each; a
    larger one makes [np.linspace] raise [ValueError] first), a domain
    without extent ([x_max - x_min] is zero, as for a packet size of zero)
    makes the constructor raise [ZeroDivisionError], from the wavenumber
    step [2 * pi / (x_max - x_min)]. *)
Theorem zero_extent_raises N T :
  Py.is_zero (si_dx a) = false -> division_x_of a = Some N ->
  (0 <= N <= np.max_float64)%Z ->
  Py.is_zero (si_dt a) = false -> division_time_of a = Some T ->
  (0 <= T <= np.max_float64)%Z ->
  Py.is_zero (x_max_of a - 0) = true ->
  __init__ a c = Raise ZeroDivisionError.
Proof.
  intros Zdx HN HN0 Zdt HT HT0 Zx. open_init.
  rewrite (bind_ret _ _ c _ (truediv_ok _ _ c Zdx)).
  rewrite (bind_ret _ _ c _ (int_ok _ c N HN)).
  rewrite (bind_ret _ _ c _ (linspace_ok _ _ N c HN0)).
  rewrite (bind_ret _ _ c _ (truediv_ok _ _ c Zdt)).
  rewrite (bind_ret _ _ c _ (int_ok _ c T HT)).
  rewrite (bind_ret _ _ c _ (linspace_ok _ _ T c HT0)).
  apply bind_raise. unfold Py.truediv. now rewrite Zx.
Qed.

(** X4: when the quotient [(x_max - x_min) / dx] is not a finite number,
    [int] raises and so does the constructor: [ValueError] for a NaN,
    [OverflowError] for an infinity. *)
Theorem non_finite_grid_size_raises :
  Py.is_zero (si_dx a) = false -> division_x_of a = None ->
  __init__ a c
  = Raise (match Prim2SF ((x_max_of a - 0) / si_dx a) with
           | S754_nan => ValueError
           | _ => OverflowError
           end).
Proof.
  intros Zdx HN. open_init.
  rewrite (bind_ret _ _ c _ (truediv_ok _ _ c Zdx)).
  apply bind_raise. unfold division_x_of, Py.trunc in HN. unfold Py.int.
  destruct (Prim2SF ((x_max_of a - 0) / si_dx a)); try discriminate HN;
    reflexivity.
Qed.

(** X5: when the arithmetic up to there raises nothing, a grid size below
    two or a negative number of time points makes the constructor raise
    [ValueError]: from [np.linspace] for a negative size, from [np.zeros]
    for a grid of no or one point. *)
Theorem too_few_points_raises N T :
  Py.is_zero (si_dx a) = false -> division_x_of a = Some N ->
  Py.is_zero (si_dt a) = false -> division_time_of a = Some T ->
  Py.is_zero (x_max_of a - 0) = false ->
  (N < 2 \/ T < 0)%Z ->
  __init__ a c = Raise ValueError.
Proof.
  intros Zdx HN Zdt HT Zx Hlow. open_init.
  rewrite (bind_ret _ _ c _ (truediv_ok _ _ c Zdx)).
  rewrite (bind_ret _ _ c _ (int_ok _ c N HN)).
  destruct (Z.ltb_spec N 0) as [Hneg|HN0].
  { apply bind_raise. now apply linspace_negative. }
  destruct (Z.ltb_spec np.max_float64 N) as [Hbig|HNm].
  { apply bind_raise. now apply linspace_too_big. }
  rewrite (bind_ret _ _ c _ (linspace_ok _ _ N c (conj HN0 HNm))).
  rewrite (bind_ret _ _ c _ (truediv_ok _ _ c Zdt)).
  rewrite (bind_ret _ _ c _ (int_ok _ c T HT)).
  destruct (Z.ltb_spec T 0) as [Hneg|HT0].
  { apply bind_raise. now apply linspace_negative. }
  destruct (Z.ltb_spec np.max_float64 T) as [Hbig|HTm].
  { apply bind_raise. now apply linspace_too_big. }
  rewrite (bind_ret _ _ c _ (linspace_ok _ _ T c (conj HT0 HTm))).
  rewrite (bind_ret _ _ c _ (truediv_ok _ _ c Zx)).
  rewrite (bind_ret _ _ c _ (linspace_ok _ _ N c (conj HN0 HNm))).
  apply bind_raise. unfold _get_numerical_parameters.
  apply bind_raise. unfold zeros2.
  destruct (Z.ltb_spec (N - 2) 0); [reflexivity | lia].
Qed.

(** X6: with a number of time points that is not negative and that numpy
    accepts for the temporal grid (at most [np.max_float64] points; a larger
    one makes [np.linspace] raise [ValueError] first), a grid of exactly two
    points passes every check before it and then makes the constructor raise
    [IndexError], from [self.b[0] = 0] on the empty boundary vector. *)
Theorem two_points_raise T :
  arithmetic_ok a = true ->
  division_x_of a = Some 2%Z -> division_time_of a = Some T ->
  (0 <= T <= np.max_float64)%Z ->
  __init__ a c = Raise IndexError.
Proof.
  intros Hok HN HT HT0.
  assert (H2 : (0 <= 2 <= np.max_float64)%Z) by (rewrite max_float64_eq; lia).
  apply arithmetic_ok_iff in Hok.
  destruct Hok as (Zdx & Zdt & Zx & Pdx & Zdx2 & Zm & Zh & _ & _).
  open_init.
  rewrite (bind_ret _ _ c _ (truediv_ok _ _ c Zdx)).
  rewrite (bind_ret _ _ c _ (int_ok _ c 2%Z HN)).
  rewrite (bind_ret _ _ c _ (linspace_ok _ _ 2%Z c H2)).
  rewrite (bind_ret _ _ c _ (truediv_ok _ _ c Zdt)).
  rewrite (bind_ret _ _ c _ (int_ok _ c T HT)).
  rewrite (bind_ret _ _ c _ (linspace_ok _ _ T c HT0)).
  rewrite (bind_ret _ _ c _ (truediv_ok _ _ c Zx)).
  rewrite (bind_ret _ _ c _ (linspace_ok _ _ 2%Z c H2)).
  fold (x_of a 2). fold (V_of a 2).
  apply bind_raise. unfold _get_numerical_parameters.
  change (2 - 2)%Z with 0%Z.
  rewrite (bind_ret _ _ c _ (zeros2_ok 0 c ltac:(lia))).
  rewrite (bind_ret _ _ c _ (zeros2_ok 0 c ltac:(lia))).
  rewrite (bind_ret _ _ c _ (zeros1_ok 0 c ltac:(lia))).
  rewrite (bind_ret _ _ c _ (r_coeff_ok _ _ c Pdx Zdx2 Zm)).
  rewrite (bind_ret _ _ c _ (q_coeff_ok _ _ _ c Zh)).
  assert (Hq : interior (V_of a 2) = []).
  { apply length_zero_iff_nil. rewrite length_interior, length_V_of. reflexivity. }
  rewrite Hq. reflexivity.
Qed.

(** A number of time points beyond the largest size numpy accepts makes the
    constructor raise [ValueError], from [np.linspace], before anything
    later is reached. *)
Lemma oversized_time_grid_raises N T :
  Py.is_zero (si_dx a) = false -> division_x_of a = Some N ->
  (0 <= N <= np.max_float64)%Z ->
  Py.is_zero (si_dt a) = false -> division_time_of a = Some T ->
  (np.max_float64 < T)%Z ->
  __init__ a c = Raise ValueError.
Proof.
  intros Zdx HN HN0 Zdt HT HTbig. open_init.
  rewrite (bind_ret _ _ c _ (truediv_ok _ _ c Zdx)).
  rewrite (bind_ret _ _ c _ (int_ok _ c N HN)).
  rewrite (bind_ret _ _ c _ (linspace_ok _ _ N c HN0)).
  rewrite (bind_ret _ _ c _ (truediv_ok _ _ c Zdt)).
  rewrite (bind_ret _ _ c _ (int_ok _ c T HT)).
  apply bind_raise. now apply linspace_too_big.
Qed.

End ConstructorErrors.

(** * Further properties of a constructed instance *)

Section ConstructedInstance.
Context {num : Numerics}.

Tactic Notation "from_init" hyp(H) "as" ident(N) ident(T) ident(f) :=
  let Hok := fresh "Hok" in
  let HN := fresh "HN" in
  let HT := fresh "HT" in
  let H3 := fresh "H3" in
  let H0 := fresh "H0" in
  let Hf := fresh "Hf" in
  apply init_inv in H;
  destruct H as (N & T & f & Hok & HN & HT & H3 & H0 & Hf & -> & ->).

(** X7: the temporal grid of a successful construction is
    [np.linspace(0, time_duration, T)] for [T = int(time_duration / dt)],
    which is not negative: [T] points; none at all for [T = 0]; for
    [T >= 2] the last one is [time_duration], so that the points lie
    [time_duration / (T - 1)] apart. *)
Theorem temporal_grid a c self c' :
  __init__ a c = OK (self, c') ->
  Py.trunc (time_duration self / dt self) = Some (division_time self)
  /\ (0 <= division_time self)%Z
  /\ length (t self) = Z.to_nat (division_time self)
  /\ (division_time self = 0%Z -> t self = [])
  /\ ((1 < division_time self)%Z ->
      nth (Z.to_nat (division_time self) - 1) (t self) 0%float = time_duration self
      /\ forall i, (Z.of_nat i < division_time self - 1)%Z ->
           nth i (t self) 0%float
           = ((if Py.is_zero (linspace_step 0 (time_duration self) (division_time self))
               then (Py.float_of_Z (Z.of_nat i)
                     / Py.float_of_Z (division_time self - 1))
                    * (time_duration self - 0)
               else Py.float_of_Z (Z.of_nat i)
                    * linspace_step 0 (time_duration self) (division_time self))
              + 0)%float).
Proof.
  intros H. from_init H as N T f.
  cbn [time_duration dt division_time t built].
  split; [exact HT|]. split; [exact H0|].
  split; [apply length_linspace_array|]. split.
  - intros ->. reflexivity.
  - intros H1. split; [now apply nth_linspace_last|].
    intros i Hi. now apply nth_linspace_array.
Qed.

(** X8: the two system matrices of a successful construction are
    symmetric. *)
Theorem system_matrices_symmetric a c self c' i j :
  __init__ a c = OK (self, c') ->
  (Z.of_nat i < division_x self - 2)%Z -> (Z.of_nat j < division_x self - 2)%Z ->
  get (A self) i j = get (A self) j i /\ get (B self) i j = get (B self) j i.
Proof.
  intros H. from_init H as N T f. cbn [division_x A B built]. intros Hi Hj.
  unfold A_of, B_of, A_value, B_value.
  rewrite !get_tridiag by lia.
  split; case_nat; subst; reflexivity.
Qed.

(** X9: where the barrier height is zero, the potential of a successful
    construction is zero at every grid point and the main diagonal of [B]
    is constant: [-1j * dt / hbar * 0 + 1 - 2r] in every row. *)
Theorem no_barrier_constant_diagonal a c self c' :
  __init__ a c = OK (self, c') ->
  potential_barrier_height self = 0%float ->
  (forall i, nth i (V self) 0%float = 0%float)
  /\ forall i, (Z.of_nat i < division_x self - 2)%Z ->
       get (B self) i i
       = q_value (dt self) (r_value (dt self) (dx self)) 0%float.
Proof.
  intros H. from_init H as N T f.
  cbn [potential_barrier_height V division_x B dt dx built]. intros Hh.
  assert (HV : forall i, nth i (V_of a N) 0%float = 0%float).
  { intros i. unfold V_of, np.where_. rewrite map_map, Hh.
    set (g := fun xi : float =>
                if ((x_barrier_of a <=? xi)
                    && (xi <=? x_barrier_of a + si_size_barrier a))%float
                then 0%float else 0%float).
    destruct (Nat.lt_ge_cases i (length (map g (x_of a N)))) as [Hi|Hi].
    - rewrite (nth_indep _ 0%float (g 0%float)) by exact Hi.
      rewrite (map_nth g). unfold g. now destruct (_ && _).
    - now apply nth_overflow. }
  split; [exact HV|]. intros i Hi.
  unfold B_of, B_value. rewrite get_tridiag by lia. rewrite Nat.eqb_refl.
  rewrite nth_q_values by (rewrite length_V_of; lia).
  now rewrite HV.
Qed.

(** X10: after a successful construction and any number [m] of steps, entry
    [i] of the cache [rhs_eq] is the three-point sum of row [i] of [B] over
    the state vector [p], plus the zero of [b]: [r * p[i]] (not in the first
    row), [q_i * p[i+1]], [r * p[i+2]] (not in the last row), each term
    present only if its coefficient is not zero.  The two boundary entries
    [p[0]] and [p[N-1]] enter no entry of the cache. *)
Theorem cache_is_three_point_sum a c self c' m i :
  c_is_zero c0 = true ->
  __init__ a c = OK (self, c') ->
  (Z.of_nat i < division_x self - 2)%Z ->
  let r := r_value (dt self) (dx self) in
  let q := fun j => q_value (dt self) r (nth (S j) (V self) 0%float) in
  exists self_m,
    advance m self c' = OK (self_m, c')
    /\ nth i (rhs_eq self_m) c0
       = cadd (three_point (Z.to_nat (division_x self - 2)) r q (packet self_m) i) c0.
Proof.
  intros Hz H. from_init H as N T f. cbn [division_x dt dx V built]. intros Hi.
  destruct (advance_ok (built a N T f) (S c) m
              (consistent_built a N T f H3) (cache_valid_built a N T f H3))
    as (sm & Rm & Em & Lm & _ & _ & _ & Vm).
  exists sm. split; [exact Rm|].
  set (n := Z.to_nat (N - 2)).
  assert (HB : B sm = B_of a N) by (rewrite Em; reflexivity).
  assert (Hb : b sm = repeat c0 n) by (rewrite Em; reflexivity).
  cbn [packet built] in Lm. rewrite length_packet_of in Lm.
  assert (Hlen : length (interior (packet sm)) = n)
    by (rewrite length_interior, Lm; unfold n; lia).
  assert (Erhs : rhs_eq sm = rhs_value (B_of a N) (interior (packet sm)) (repeat c0 n)).
  { pose proof (Vm 0) as Hv. rewrite HB, Hb in Hv.
    rewrite rhs_ok in Hv.
    - now injection Hv.
    - now rewrite length_B_of.
    - now rewrite repeat_length, length_B_of. }
  rewrite Erhs.
  rewrite nth_rhs_value
    by (rewrite ?repeat_length, length_B_of; unfold n in *; lia).
  rewrite nth_repeat_lt by (unfold n; lia). f_equal.
  unfold B_of, B_value. fold n.
  rewrite (sparse_dot_tridiag n _ _ _ i Hz Hlen) by (unfold n; lia).
  unfold three_point. cbv zeta.
  rewrite nth_q_values by (rewrite length_V_of; lia).
  rewrite (nth_interior (packet sm) i) by (rewrite Lm; lia).
  assert (Eleft : (if 0 <? i
                   then add_term c0 (r_value (si_dt a) (si_dx a))
                          (nth (i - 1) (interior (packet sm)) c0)
                   else c0)
                  = (if 0 <? i
                     then add_term c0 (r_value (si_dt a) (si_dx a))
                            (nth i (packet sm) c0)
                     else c0)).
  { destruct i as [|k]; [reflexivity|]. cbn [Nat.ltb Nat.leb].
    replace (S k - 1) with k by lia.
    now rewrite (nth_interior (packet sm) k) by (rewrite Lm; lia). }
  rewrite Eleft.
  destruct (Nat.ltb_spec (S i) n) as [Hlt|Hge]; [|reflexivity].
  now rewrite (nth_interior (packet sm) (S i)) by (rewrite Lm; unfold n in Hlt; lia).
Qed.

End ConstructedInstance.

(** * The further properties on concrete parameters *)

Lemma zero_dx_raises_witness :
  Py.is_zero (si_dx zero_dx_params) = true
  /\ __init__ (num := Sym.numerics) zero_dx_params 0 = Raise ZeroDivisionError.
Proof.
  assert (H : Py.is_zero (si_dx zero_dx_params) = true) by (vm_compute; reflexivity).
  split; [exact H|].
  exact (zero_dx_raises (num := Sym.numerics) zero_dx_params 0 H).
Defined.

Lemma zero_dt_raises_witness :
  division_x_of zero_dt_params = Some 5%Z
  /\ Py.is_zero (si_dt zero_dt_params) = true
  /\ __init__ (num := Sym.numerics) zero_dt_params 0 = Raise ZeroDivisionError.
Proof.
  assert (HN : division_x_of zero_dt_params = Some 5%Z) by (vm_compute; reflexivity).
  assert (Hz : Py.is_zero (si_dt zero_dt_params) = true) by (vm_compute; reflexivity).
  split; [exact HN|]. split; [exact Hz|].
  apply (zero_dt_raises (num := Sym.numerics) zero_dt_params 0 5%Z);
    [vm_compute; reflexivity | exact HN | rewrite max_float64_eq; lia | exact Hz].
Defined.

Lemma zero_extent_raises_witness :
  division_x_of zero_size_params = Some 0%Z
  /\ Py.is_zero (x_max_of zero_size_params - 0) = true
  /\ __init__ (num := Sym.numerics) zero_size_params 0 = Raise ZeroDivisionError.
Proof.
  assert (HN : division_x_of zero_size_params = Some 0%Z) by (vm_compute; reflexivity).
  assert (Hz : Py.is_zero (x_max_of zero_size_params - 0) = true)
    by (vm_compute; reflexivity).
  split; [exact HN|]. split; [exact Hz|].
  apply (zero_extent_raises (num := Sym.numerics) zero_size_params 0 0%Z 3000%Z);
    [vm_compute; reflexivity | exact HN | rewrite max_float64_eq; lia
     | vm_compute; reflexivity | vm_compute; reflexivity
     | rewrite max_float64_eq; lia | exact Hz].
Defined.

Lemma non_finite_grid_size_raises_witness :
  __init__ (num := Sym.numerics) nan_dx_params 0 = Raise ValueError
  /\ __init__ (num := Sym.numerics) inf_size_params 0 = Raise OverflowError.
Proof.
  split.
  - apply (non_finite_grid_size_raises (num := Sym.numerics) nan_dx_params 0);
      vm_compute; reflexivity.
  - apply (non_finite_grid_size_raises (num := Sym.numerics) inf_size_params 0);
      vm_compute; reflexivity.
Defined.

Lemma too_few_points_raises_witness :
  division_x_of one_point_params = Some 1%Z
  /\ __init__ (num := Sym.numerics) one_point_params 0 = Raise ValueError
  /\ division_time_of negative_dt_params = Some (-3000)%Z
  /\ __init__ (num := Sym.numerics) negative_dt_params 0 = Raise ValueError.
Proof.
  assert (H1 : division_x_of one_point_params = Some 1%Z) by (vm_compute; reflexivity).
  assert (H2 : division_time_of negative_dt_params = Some (-3000)%Z)
    by (vm_compute; reflexivity).
  split; [exact H1|]. split; [|split; [exact H2|]].
  - apply (too_few_points_raises (num := Sym.numerics) one_point_params 0 1%Z 3000%Z);
      [vm_compute; reflexivity | exact H1 | vm_compute; reflexivity
       | vm_compute; reflexivity | vm_compute; reflexivity | left; lia].
  - apply (too_few_points_raises (num := Sym.numerics) negative_dt_params 0
             5%Z (-3000)%Z);
      [vm_compute; reflexivity | vm_compute; reflexivity | vm_compute; reflexivity
       | exact H2 | vm_compute; reflexivity | right; lia].
Defined.

Lemma two_points_raise_witness :
  division_x_of two_point_params = Some 2%Z
  /\ __init__ (num := Sym.numerics) two_point_params 0 = Raise IndexError.
Proof.
  assert (HN : division_x_of two_point_params = Some 2%Z) by (vm_compute; reflexivity).
  split; [exact HN|].
  apply (two_points_raise (num := Sym.numerics) two_point_params 0 3000%Z);
    [vm_compute; reflexivity | exact HN | vm_compute; reflexivity
     | rewrite max_float64_eq; lia].
Defined.

Lemma oversized_time_grid_example :
  division_x_of tiny_dt_params = Some 2%Z
  /\ (exists T, division_time_of tiny_dt_params = Some T /\ (10 ^ 24 < T)%Z)
  /\ __init__ (num := Sym.numerics) tiny_dt_params 0 = Raise ValueError.
Proof.
  split; [vm_compute; reflexivity|]. split.
  - eexists. split; [vm_compute; reflexivity|]. vm_compute. reflexivity.
  - vm_compute. reflexivity.
Qed.

Lemma temporal_grid_witness :
  __init__ (num := Sym.numerics) coarse_params 0 = OK (coarse_instance, 1)
  /\ length (t coarse_instance) = 3000
  /\ nth 2999 (t coarse_instance) 0%float = time_duration coarse_instance.
Proof.
  assert (H : __init__ (num := Sym.numerics) coarse_params 0
              = OK (coarse_instance, 1)) by (vm_compute; reflexivity).
  split; [exact H|].
  destruct (temporal_grid coarse_params 0 coarse_instance 1 H)
    as (_ & _ & Hlen & _ & Hlast).
  split; [exact Hlen|].
  exact (proj1 (Hlast ltac:(cbn; lia))).
Defined.

Lemma system_matrices_symmetric_witness :
  __init__ (num := Sym.numerics) coarse_params 0 = OK (coarse_instance, 1)
  /\ get (B coarse_instance) 0 1 = get (B coarse_instance) 1 0.
Proof.
  assert (H : __init__ (num := Sym.numerics) coarse_params 0
              = OK (coarse_instance, 1)) by (vm_compute; reflexivity).
  split; [exact H|].
  apply (system_matrices_symmetric coarse_params 0 coarse_instance 1 0 1 H);
    cbn; lia.
Defined.

Lemma no_barrier_constant_diagonal_witness :
  (exists self,
      __init__ (num := Sym.numerics) free_params 0 = OK (self, 1)
      /\ potential_barrier_height self = 0%float
      /\ get (B self) 1 1 = get (B self) 0 0).
Proof.
  exists (@built Sym.numerics free_params 5 3000 (@A_of Sym.numerics free_params 5)).
  assert (H : __init__ (num := Sym.numerics) free_params 0
              = OK (@built Sym.numerics free_params 5 3000
                           (@A_of Sym.numerics free_params 5), 1))
    by (vm_compute; reflexivity).
  assert (Hh : potential_barrier_height
                 (@built Sym.numerics free_params 5 3000
                         (@A_of Sym.numerics free_params 5)) = 0%float)
    by (vm_compute; reflexivity).
  split; [exact H|]. split; [exact Hh|].
  destruct (no_barrier_constant_diagonal free_params 0 _ 1 H Hh) as (_ & Hd).
  rewrite (Hd 1) by (cbn; lia). rewrite (Hd 0) by (cbn; lia). reflexivity.
Defined.

Lemma cache_is_three_point_sum_witness :
  c_is_zero (Numerics := Sym.numerics) c0 = true
  /\ __init__ (num := Sym.numerics) coarse_params 0 = OK (coarse_instance, 1)
  /\ exists self_2,
      advance 2 coarse_instance 1 = OK (self_2, 1)
      /\ nth 0 (rhs_eq self_2) c0
         = cadd (three_point 3 (r_value (dt coarse_instance) (dx coarse_instance))
                   (fun j => q_value (dt coarse_instance)
                               (r_value (dt coarse_instance) (dx coarse_instance))
                               (nth (S j) (V coarse_instance) 0%float))
                   (packet self_2) 0) c0.
Proof.
  assert (Hz : c_is_zero (Numerics := Sym.numerics) c0 = true)
    by (vm_compute; reflexivity).
  assert (H : __init__ (num := Sym.numerics) coarse_params 0
              = OK (coarse_instance, 1)) by (vm_compute; reflexivity).
  split; [exact Hz|]. split; [exact H|].
  apply (cache_is_three_point_sum coarse_params 0 coarse_instance 1 2 0 Hz H).
  cbn. lia.
Defined.

(** * The simulation loop *)

Section WorkerProperties.
Context {num : Numerics}.

Lemma advance_snoc : forall n self c s c2 s' c3,
  advance n self c = OK (s, c2) ->
  calculate_timestep s c2 = OK (s', c3) ->
  advance (S n) self c = OK (s', c3).
Proof.
  induction n as [|n IH]; intros self c s c2 s' c3 Hn Hs.
  - cbn [advance] in Hn. apply ret_OK in Hn. destruct Hn as [<- <-].
    cbn [advance]. now rewrite (bind_step _ _ c _ _ Hs).
  - cbn [advance] in Hn. apply bind_OK in Hn.
    destruct Hn as (s1 & c1 & H1 & Hn).
    change (advance (S (S n)) self c)
      with (bind (calculate_timestep self) (fun s1 => advance (S n) s1) c).
    rewrite (bind_step _ _ c _ _ H1). exact (IH s1 c1 s c2 s' c3 Hn Hs).
Qed.

Lemma frames_app (l1 l2 : list event) : frames (l1 ++ l2) = frames l1 ++ frames l2.
Proof. apply flat_map_app. Qed.

Lemma percentages_app (l1 l2 : list event) :
  percentages (l1 ++ l2) = percentages l1 ++ percentages l2.
Proof. apply flat_map_app. Qed.

Lemma emit_progress_ok i T p c :
  T <> 0%Z -> percent_of i T = Some p ->
  _emit_progress i T c = OK (Progress p, c).
Proof.
  intros HT Hp. unfold _emit_progress, py_int_truediv.
  destruct (Z.eqb_spec T 0) as [|_]; [contradiction|].
  unfold bind at 1. unfold ret at 1.
  now rewrite (bind_ret _ _ c _ (int_ok _ c p Hp)).
Qed.

(** The loop while the flag reads true: [len] iterations after [done]
    earlier ones, each with one step, a frame at the multiples of the
    export interval and one percentage. *)
Lemma run_loop_prefix running k T calc0 c :
  k <> 0%Z -> T <> 0%Z ->
  forall len done calc log rest,
    advance done calc0 c = OK (calc, c) -> consistent calc ->
    (forall r, done <= r < done + len -> running r = true) ->
    (forall j, done < j <= done + len -> percent_of (Z.of_nat j) T <> None) ->
    exists calc' new,
      run_loop running k T (map Z.of_nat (seq (S done) len) ++ rest) done calc log c
      = run_loop running k T rest (done + len) calc' (log ++ new) c
      /\ advance (done + len) calc0 c = OK (calc', c) /\ consistent calc'
      /\ map fst (frames new)
         = filter (fun i => (i mod k =? 0)%Z) (map Z.of_nat (seq (S done) len))
      /\ (forall i p, In (i, p) (frames new) ->
            exists s, advance (Z.to_nat i) calc0 c = OK (s, c) /\ p = get_packet s)
      /\ map Some (percentages new)
         = map (fun i => percent_of i T) (map Z.of_nat (seq (S done) len))
      /\ ~ In Finished new /\ ~ In Interrupted new.
Proof.
  intros Hk HT. induction len as [|len IH]; intros done calc log rest Hadv Hc Hrun Hper.
  - exists calc, []. cbn [seq map app]. rewrite Nat.add_0_r, app_nil_r.
    repeat split; try assumption; try reflexivity; intros; auto; contradiction.
  - destruct (step_ok calc c Hc) as (s1 & R1 & _ & _ & _ & _ & _ & C1 & _).
    pose proof (advance_snoc done calc0 c calc c s1 c Hadv R1) as Hadv1.
    destruct (percent_of (Z.of_nat (S done)) T) as [p|] eqn:Hp;
      [|exfalso; apply (Hper (S done)); [lia | exact Hp]].
    set (log1 := if (Z.of_nat (S done) mod k =? 0)%Z
                 then log ++ [PlotWavePacket (get_packet s1) (Z.of_nat (S done))]
                 else log).
    destruct (IH (S done) s1 (log1 ++ [Progress p]) rest Hadv1 C1)
      as (calc' & new & Eq & Hadv' & Hc' & Hfr & Hin & Hpc & HnF & HnI).
    { intros r Hr. apply Hrun. lia. }
    { intros j Hj. apply Hper. lia. }
    set (here := (if (Z.of_nat (S done) mod k =? 0)%Z
                  then [PlotWavePacket (get_packet s1) (Z.of_nat (S done))]
                  else []) ++ [Progress p]).
    assert (Elog : log1 ++ [Progress p] = log ++ here).
    { unfold log1, here. destruct (_ =? 0)%Z; now rewrite <- ?app_assoc. }
    exists calc', (here ++ new).
    split; [|split; [|split; [|split; [|split; [|split; [|split]]]]]].
    + cbn [seq map app run_loop]. rewrite (Hrun done) by lia. cbn [negb].
      rewrite (bind_ret _ _ c _ R1).
      unfold py_mod. destruct (Z.eqb_spec k 0) as [|_]; [contradiction|].
      unfold bind at 1. unfold ret at 1.
      rewrite (bind_ret _ _ c _ (emit_progress_ok _ T p c HT Hp)).
      fold log1. rewrite Eq, Elog, <- app_assoc.
      now replace (S done + len) with (done + S len) by lia.
    + now replace (done + S len) with (S done + len) by lia.
    + exact Hc'.
    + rewrite frames_app, map_app, Hfr. cbn [seq map filter]. unfold here.
      destruct (_ =? 0)%Z; reflexivity.
    + intros i q Hiq. rewrite frames_app in Hiq. apply in_app_or in Hiq.
      destruct Hiq as [Hiq|Hiq]; [|now apply Hin].
      unfold here, frames in Hiq.
      destruct (_ =? 0)%Z; cbn [flat_map app In] in Hiq; [|contradiction].
      destruct Hiq as [Hiq|[]]. injection Hiq as <- <-.
      exists s1. split; [|reflexivity].
      change (Z.pos (Pos.of_succ_nat done)) with (Z.of_nat (S done)).
      rewrite Nat2Z.id. exact Hadv1.
    + rewrite percentages_app, map_app, Hpc. cbn [seq map]. unfold here.
      destruct (_ =? 0)%Z; cbn [percentages flat_map app map]; now rewrite Hp.
    + intros HF. apply in_app_or in HF. destruct HF as [HF|HF]; [|now apply HnF].
      unfold here in HF. destruct (_ =? 0)%Z; cbn [app In] in HF;
        repeat (destruct HF as [HF|HF]; try discriminate HF); exact HF.
    + intros HF. apply in_app_or in HF. destruct HF as [HF|HF]; [|now apply HnI].
      unfold here in HF. destruct (_ =? 0)%Z; cbn [app In] in HF;
        repeat (destruct HF as [HF|HF]; try discriminate HF); exact HF.
Qed.

Lemma range_from_one T :
  np.arange 1 (T + 1) = map Z.of_nat (seq 1 (Z.to_nat T)).
Proof.
  unfold np.arange. replace (T + 1 - 1)%Z with T by lia.
  rewrite <- seq_shift, map_map. apply map_ext. intros i. lia.
Qed.

Lemma percentages_defined_spec T j :
  percentages_defined T = true -> 0 < j <= Z.to_nat T ->
  percent_of (Z.of_nat j) T <> None.
Proof.
  unfold percentages_defined. rewrite range_from_one, forallb_forall.
  intros Hall Hj Hnone.
  specialize (Hall (Z.of_nat j)). rewrite Hnone in Hall.
  assert (Hin : In (Z.of_nat j) (map Z.of_nat (seq 1 (Z.to_nat T)))).
  { apply in_map. apply in_seq. lia. }
  specialize (Hall Hin). discriminate Hall.
Qed.

Lemma multiples_up_to k : (0 < k)%Z -> forall n,
  length (filter (fun i => (i mod k =? 0)%Z) (map Z.of_nat (seq 1 n)))
  = Z.to_nat (Z.of_nat n / k).
Proof.
  intros Hk. induction n as [|n IH]; [now rewrite Z.div_0_l by lia|].
  rewrite seq_S, map_app, filter_app, length_app, IH. cbn [map filter Nat.add].
  assert (Hq : (0 <= Z.of_nat n / k)%Z) by (apply Z.div_pos; lia).
  pose proof (Z.mod_pos_bound (Z.of_nat (S n)) k Hk) as Hr.
  pose proof (Z.div_mod (Z.of_nat (S n)) k ltac:(lia)) as Hdm.
  destruct (Z.eqb_spec (Z.of_nat (S n) mod k) 0) as [E|E].
  - assert (Ediv : (Z.of_nat n / k = Z.of_nat (S n) / k - 1)%Z).
    { symmetry. apply (Z.div_unique_pos _ _ _ (k - 1)); lia. }
    cbn [length]. lia.
  - assert (Ediv : (Z.of_nat n / k = Z.of_nat (S n) / k)%Z).
    { symmetry. apply (Z.div_unique_pos _ _ _ (Z.of_nat (S n) mod k - 1)); lia. }
    cbn [length]. lia.
Qed.

(** A run on a constructed instance whose flag reads true [j <= T] times,
    and false from then on if it is read again. *)
Lemma run_spec a c self c' running k j :
  __init__ a c = OK (self, c') ->
  k <> 0%Z -> percentages_defined (division_time self) = true ->
  j <= Z.to_nat (division_time self) ->
  (forall r, r < j -> running r = true) ->
  (j < Z.to_nat (division_time self) ->
   running j = false /\ running (S j) = false) ->
  exists calc log0,
    run running k self c'
    = OK ((calc, PlotWavePacket (get_packet self) 0 :: log0
                 ++ (if running j then [Finished; Progress 100] else [Interrupted])),
          c')
    /\ advance j self c' = OK (calc, c')
    /\ map fst (frames log0)
       = filter (fun i => (i mod k =? 0)%Z) (map Z.of_nat (seq 1 j))
    /\ (forall i p, In (i, p) (frames log0) ->
          exists s, advance (Z.to_nat i) self c' = OK (s, c') /\ p = get_packet s)
    /\ map Some (percentages log0)
       = map (fun i => percent_of i (division_time self)) (map Z.of_nat (seq 1 j))
    /\ ~ In Finished log0 /\ ~ In Interrupted log0.
Proof.
  intros H Hk Hpd Hj Htrue Hfalse.
  apply init_inv in H.
  destruct H as (N & T & f & Hok & HN & HT & H3 & H0 & Hf & -> & ->).
  cbn [division_time built] in *.
  set (self := built a N T f).
  assert (Hc : consistent self) by now apply consistent_built.
  assert (HT0 : j = 0 \/ T <> 0%Z) by lia.
  assert (Hloop : exists calc' new,
             run_loop running k T
               (map Z.of_nat (seq 1 j) ++ map Z.of_nat (seq (S j) (Z.to_nat T - j)))
               0 self [PlotWavePacket (get_packet self) 0] (S c)
             = run_loop running k T (map Z.of_nat (seq (S j) (Z.to_nat T - j)))
                 j calc' ([PlotWavePacket (get_packet self) 0] ++ new) (S c)
             /\ advance j self (S c) = OK (calc', S c) /\ consistent calc'
             /\ map fst (frames new)
                = filter (fun i => (i mod k =? 0)%Z) (map Z.of_nat (seq 1 j))
             /\ (forall i p, In (i, p) (frames new) ->
                   exists s, advance (Z.to_nat i) self (S c) = OK (s, S c)
                             /\ p = get_packet s)
             /\ map Some (percentages new)
                = map (fun i => percent_of i T) (map Z.of_nat (seq 1 j))
             /\ ~ In Finished new /\ ~ In Interrupted new).
  { destruct HT0 as [->|HTn].
    - exists self, []. cbn [seq map app]. repeat split; auto.
      + intros i p [].
    - apply (run_loop_prefix running k T self (S c) Hk HTn j 0 self);
        [reflexivity | exact Hc | intros r Hr; apply Htrue; lia |].
      intros m Hm. apply (percentages_defined_spec T m Hpd). lia. }
  destruct Hloop as (calc' & new & Eq & Hadv & _ & Hfr & Hin & Hpc & HnF & HnI).
  exists calc', new.
  split; [|repeat split; assumption].
  unfold run. change (division_time self) with T.
  rewrite range_from_one.
  replace (Z.to_nat T) with (j + (Z.to_nat T - j)) at 1 by lia.
  rewrite seq_app, map_app. cbn [Nat.add]. unfold bind. rewrite Eq.
  destruct (Nat.eq_dec j (Z.to_nat T)) as [E|E].
  - replace (Z.to_nat T - j) with 0 by lia. cbn [seq map run_loop].
    unfold ret. destruct (running j); reflexivity.
  - destruct (Hfalse ltac:(lia)) as [Hj0 Hj1].
    replace (Z.to_nat T - j) with (S (Z.to_nat T - S j)) by lia.
    cbn [seq map run_loop]. rewrite Hj0. cbn [negb].
    unfold ret. rewrite Hj1. reflexivity.
Qed.

(** X11: on a constructed instance, with an export interval that is not
    zero and when [stop] is never called, [run] returns after exactly
    [division_time] calls of [calculate_timestep]; it has emitted one
    percentage per step, [int(i / t_steps * 100)] for step [i], then
    [finished] and a last percentage of 100, and never [interrupted]. *)
Theorem run_completes a c self c' running k :
  __init__ a c = OK (self, c') ->
  k <> 0%Z -> percentages_defined (division_time self) = true ->
  (forall r, running r = true) ->
  exists calc log0,
    run running k self c'
    = OK ((calc, PlotWavePacket (get_packet self) 0 :: log0
                 ++ [Finished; Progress 100]), c')
    /\ advance (Z.to_nat (division_time self)) self c' = OK (calc, c')
    /\ map Some (percentages log0)
       = map (fun i => percent_of i (division_time self))
             (np.arange 1 (division_time self + 1))
    /\ ~ In Finished log0 /\ ~ In Interrupted log0.
Proof.
  intros H Hk Hpd Hrun.
  destruct (run_spec a c self c' running k (Z.to_nat (division_time self))
              H Hk Hpd (Nat.le_refl _) (fun r _ => Hrun r) ltac:(lia))
    as (calc & log0 & R & Hadv & _ & _ & Hpc & HnF & HnI).
  rewrite Hrun in R. exists calc, log0. rewrite range_from_one.
  repeat split; assumption.
Qed.

(** X12: in such a run the frames handed to [plot_wave_packet] are the
    initial state with index 0 and, in order, the states after [i] steps
    for the multiples [i] of the export interval among [1 .. division_time],
    each with its index; for a positive interval [k] that makes
    [1 + division_time // k] frames. *)
Theorem run_frames a c self c' running k :
  __init__ a c = OK (self, c') ->
  k <> 0%Z -> percentages_defined (division_time self) = true ->
  (forall r, running r = true) ->
  exists calc log,
    run running k self c' = OK ((calc, log), c')
    /\ map fst (frames log)
       = 0%Z :: filter (fun i => (i mod k =? 0)%Z)
                       (np.arange 1 (division_time self + 1))
    /\ (forall i p, In (i, p) (frames log) ->
          exists s, advance (Z.to_nat i) self c' = OK (s, c') /\ p = get_packet s)
    /\ ((0 < k)%Z ->
        Z.of_nat (length (frames log)) = (1 + division_time self / k)%Z).
Proof.
  intros H Hk Hpd Hrun.
  destruct (run_spec a c self c' running k (Z.to_nat (division_time self))
              H Hk Hpd (Nat.le_refl _) (fun r _ => Hrun r) ltac:(lia))
    as (calc & log0 & R & _ & Hfr & Hin & _).
  rewrite Hrun in R.
  assert (HT : (0 <= division_time self)%Z).
  { apply init_inv in H.
    destruct H as (N & T & f & _ & _ & _ & _ & H0 & _ & -> & _). exact H0. }
  exists calc, (PlotWavePacket (get_packet self) 0 :: log0 ++ [Finished; Progress 100]).
  assert (Efr : frames (PlotWavePacket (get_packet self) 0
                          :: log0 ++ [Finished; Progress 100])
                = (0%Z, get_packet self) :: frames log0).
  { change (PlotWavePacket (get_packet self) 0 :: log0 ++ [Finished; Progress 100])
      with ([PlotWavePacket (get_packet self) 0] ++ log0 ++ [Finished; Progress 100]).
    rewrite !frames_app. cbn [frames flat_map app]. now rewrite app_nil_r. }
  rewrite Efr, range_from_one.
  split; [exact R|]. split; [cbn [map fst]; now rewrite Hfr|]. split.
  - intros i p [Hi|Hi]; [|now apply Hin].
    injection Hi as <- <-. exists self. split; reflexivity.
  - intros Hpos. cbn [length].
    rewrite <- (length_map fst), Hfr, (multiples_up_to k Hpos).
    rewrite Z2Nat.id by exact HT.
    assert (0 <= division_time self / k)%Z by (apply Z.div_pos; lia). lia.
Qed.

(** X13: when [stop] clears the flag so that the first [j] reads of it find
    it set and every later read finds it cleared, with
    [j <= division_time], [run] returns after exactly [j] calls of
    [calculate_timestep] and its last signal is [interrupted]; it never
    emits [finished].  That holds for [j = division_time] too: a stop that
    arrives after the last step still reports the run as interrupted. *)
Theorem run_interrupted a c self c' running k j :
  __init__ a c = OK (self, c') ->
  k <> 0%Z -> percentages_defined (division_time self) = true ->
  j <= Z.to_nat (division_time self) ->
  (forall r, r < j -> running r = true) ->
  (forall r, j <= r -> running r = false) ->
  exists calc log0,
    run running k self c' = OK ((calc, log0 ++ [Interrupted]), c')
    /\ advance j self c' = OK (calc, c')
    /\ ~ In Finished log0
    /\ length (percentages log0) = j.
Proof.
  intros H Hk Hpd Hj Htrue Hfalse.
  destruct (run_spec a c self c' running k j H Hk Hpd Hj Htrue)
    as (calc & log0 & R & Hadv & _ & _ & Hpc & HnF & _).
  { intros _. split; apply Hfalse; lia. }
  rewrite (Hfalse j (Nat.le_refl j)) in R.
  exists calc, (PlotWavePacket (get_packet self) 0 :: log0).
  split; [exact R|]. split; [exact Hadv|]. split.
  - intros [HF|HF]; [discriminate HF | now apply HnF].
  - change (PlotWavePacket (get_packet self) 0 :: log0)
      with ([PlotWavePacket (get_packet self) 0] ++ log0).
    rewrite percentages_app. cbn [percentages flat_map app length].
    rewrite <- (length_map Some), Hpc, !length_map. apply length_seq.
Qed.

(** X14: with an export interval of zero, and at least one time step to do,
    [run] on a constructed instance raises [ZeroDivisionError], from
    [i % self.export_ith_image] in the first iteration, after one call of
    [calculate_timestep]. *)
Theorem run_zero_interval_raises a c self c' running :
  __init__ a c = OK (self, c') ->
  (1 <= division_time self)%Z -> running 0 = true ->
  run running 0 self c' = Raise ZeroDivisionError.
Proof.
  intros H HT Hr.
  apply init_inv in H.
  destruct H as (N & T & f & _ & _ & _ & H3 & _ & _ & -> & ->).
  cbn [division_time built] in HT.
  destruct (step_ok (built a N T f) (S c) (consistent_built a N T f H3))
    as (s1 & R1 & _).
  unfold run. cbn [division_time built]. rewrite range_from_one.
  replace (Z.to_nat T) with (S (Z.to_nat T - 1)) by lia.
  cbn [seq map]. apply bind_raise. cbn [run_loop]. rewrite Hr. cbn [negb].
  rewrite (bind_ret _ _ (S c) _ R1). reflexivity.
Qed.

End WorkerProperties.

(** * The simulation loop on concrete parameters *)

Lemma run_completes_witness :
  __init__ (num := Sym.numerics) brief_params 0 = OK (brief_instance, 1)
  /\ percentages_defined (division_time brief_instance) = true
  /\ exists calc log0,
      run never_stopped 2 brief_instance 1
      = OK ((calc, PlotWavePacket (get_packet brief_instance) 0 :: log0
                   ++ [Finished; Progress 100]), 1)
      /\ advance 4 brief_instance 1 = OK (calc, 1).
Proof.
  assert (H : __init__ (num := Sym.numerics) brief_params 0
              = OK (brief_instance, 1)) by (vm_compute; reflexivity).
  assert (Hp : percentages_defined (division_time brief_instance) = true)
    by (vm_compute; reflexivity).
  split; [exact H|]. split; [exact Hp|].
  destruct (run_completes brief_params 0 brief_instance 1 never_stopped 2 H
              ltac:(discriminate) Hp (fun _ => eq_refl))
    as (calc & log0 & R & Hadv & _).
  exists calc, log0. split; [exact R | exact Hadv].
Defined.

Lemma run_frames_witness :
  __init__ (num := Sym.numerics) brief_params 0 = OK (brief_instance, 1)
  /\ exists calc log,
      run never_stopped 2 brief_instance 1 = OK ((calc, log), 1)
      /\ map fst (frames log) = [0; 2; 4]%Z
      /\ Z.of_nat (length (frames log)) = 3%Z.
Proof.
  assert (H : __init__ (num := Sym.numerics) brief_params 0
              = OK (brief_instance, 1)) by (vm_compute; reflexivity).
  split; [exact H|].
  destruct (run_frames brief_params 0 brief_instance 1 never_stopped 2 H
              ltac:(discriminate) ltac:(vm_compute; reflexivity) (fun _ => eq_refl))
    as (calc & log & R & Hidx & _ & Hcount).
  exists calc, log. split; [exact R|]. split; [exact Hidx|].
  exact (Hcount eq_refl).
Defined.

Lemma run_interrupted_witness :
  __init__ (num := Sym.numerics) brief_params 0 = OK (brief_instance, 1)
  /\ exists calc log0,
      run stopped_at_third_read 2 brief_instance 1
      = OK ((calc, log0 ++ [Interrupted]), 1)
      /\ advance 2 brief_instance 1 = OK (calc, 1).
Proof.
  assert (H : __init__ (num := Sym.numerics) brief_params 0
              = OK (brief_instance, 1)) by (vm_compute; reflexivity).
  split; [exact H|].
  destruct (run_interrupted brief_params 0 brief_instance 1
              stopped_at_third_read 2 2 H ltac:(discriminate)
              ltac:(vm_compute; reflexivity) ltac:(cbn; lia))
    as (calc & log0 & R & Hadv & _).
  - intros r Hr. unfold stopped_at_third_read. now apply Nat.ltb_lt.
  - intros r Hr. unfold stopped_at_third_read. apply Nat.ltb_ge. exact Hr.
  - exists calc, log0. split; [exact R | exact Hadv].
Defined.

Lemma run_zero_interval_raises_witness :
  __init__ (num := Sym.numerics) brief_params 0 = OK (brief_instance, 1)
  /\ run never_stopped 0 brief_instance 1 = Raise ZeroDivisionError.
Proof.
  assert (H : __init__ (num := Sym.numerics) brief_params 0
              = OK (brief_instance, 1)) by (vm_compute; reflexivity).
  split; [exact H|].
  apply (run_zero_interval_raises brief_params 0 brief_instance 1 never_stopped H);
    [cbn; lia | reflexivity].
Defined.

(** * Frame files *)

Module StrFacts.
Import Ascii.
Local Open Scope char_scope.
Import Str.

Lemma split_nonempty sep s : split sep s <> [].
Proof.
  destruct s as [|ch s]; cbn [split]; [discriminate|].
  destruct (Ascii.eqb ch sep); [discriminate|].
  destruct (split sep s); discriminate.
Qed.

Lemma split_without sep (s : str) :
  Forall (fun ch => Ascii.eqb ch sep = false) s -> split sep s = [s].
Proof.
  induction 1 as [|ch s Hch _ IH]; [reflexivity|].
  cbn [split]. now rewrite Hch, IH.
Qed.

Lemma split_at sep (s rest : str) :
  Forall (fun ch => Ascii.eqb ch sep = false) s ->
  split sep (s ++ sep :: rest) = s :: split sep rest.
Proof.
  induction 1 as [|ch s Hch _ IH]; cbn [split app].
  - now rewrite Ascii.eqb_refl.
  - now rewrite Hch, IH.
Qed.

Lemma digit_is_no_separator ch :
  is_digit_char ch = true ->
  Ascii.eqb ch "_" = false /\ Ascii.eqb ch "." = false.
Proof.
  destruct ch as [[] [] [] [] [] [] [] []]; cbn; intros H;
    try discriminate H; split; reflexivity.
Qed.

Lemma digits_of_uint_digits u : forallb is_digit_char (digits_of_uint u) = true.
Proof. induction u; cbn; auto. Qed.

Lemma uint_of_digits_of_uint u : uint_of_digits (digits_of_uint u) = Some u.
Proof. induction u; cbn [digits_of_uint uint_of_digits digit_of_char]; try rewrite IHu; reflexivity. Qed.

Lemma uint_of_zeros k (s : str) u :
  uint_of_digits s = Some u ->
  exists v, uint_of_digits (repeat "0" k ++ s) = Some v /\ N.of_uint v = N.of_uint u.
Proof.
  intros Hs. induction k as [|k (v & Hv & Ev)]; [now exists u|].
  exists (Decimal.D0 v). cbn [repeat app uint_of_digits digit_of_char].
  rewrite Hv. split; [reflexivity | exact Ev].
Qed.

Lemma startswith_frame (f : str) :
  startswith ["f"; "r"; "a"; "m"; "e"; "_"] f = true ->
  exists rest, f = ["f"; "r"; "a"; "m"; "e"; "_"] ++ rest.
Proof.
  intros H.
  do 6 (destruct f as [|? f]; [discriminate H|];
        cbn [startswith] in H; apply andb_prop in H; destruct H as [E H];
        apply Ascii.eqb_eq in E; subst).
  now exists f.
Qed.

Lemma split_frame (rest : str) :
  split "_" (["f"; "r"; "a"; "m"; "e"; "_"] ++ rest)
  = ["f"; "r"; "a"; "m"; "e"] :: split "_" rest.
Proof.
  apply (split_at "_" ["f"; "r"; "a"; "m"; "e"] rest).
  repeat constructor.
Qed.

(** The filter raises nothing: a name that starts with [frame_] has a
    second part. *)
Lemma is_frame_ok f c : is_frame f c = OK (looks_like_frame f, c).
Proof.
  unfold is_frame, looks_like_frame.
  destruct (startswith _ f) eqn:Hs; [|reflexivity].
  destruct (startswith_frame f Hs) as (rest & ->).
  unfold number_part, number_text. rewrite split_frame.
  destruct (split "_" rest) as [|second parts] eqn:E;
    [now apply split_nonempty in E|].
  unfold bind, getitem, ret. cbn [nth_error nth].
  destruct (split "." second) as [|part parts'] eqn:E';
    [now apply split_nonempty in E'|].
  reflexivity.
Qed.

Lemma frame_number_ok f c :
  looks_like_frame f = true -> frame_number f c = OK (number_value f, c).
Proof.
  unfold looks_like_frame. intros H. apply andb_prop in H. destruct H as [Hs Hd].
  destruct (startswith_frame f Hs) as (rest & ->).
  unfold frame_number, number_part, number_value, number_text in *.
  rewrite split_frame in *.
  destruct (split "_" rest) as [|second parts] eqn:E;
    [now apply split_nonempty in E|].
  unfold bind, getitem, ret. cbn [nth_error nth] in *.
  destruct (split "." second) as [|part parts'] eqn:E';
    [now apply split_nonempty in E'|].
  cbn [nth_error nth] in *. unfold int, ret. rewrite Hd.
  destruct (uint_of_digits part) eqn:Eu; [reflexivity|].
  exfalso. clear - Hd Eu. unfold isdigit in Hd. destruct part as [|ch part]; [discriminate|].
  revert Eu Hd. generalize (ch :: part). intros l. induction l as [|x l IH]; [discriminate|].
  cbn [uint_of_digits forallb]. unfold is_digit_char at 1.
  destruct (digit_of_char x); [|discriminate].
  destruct (uint_of_digits l); [discriminate|]. cbn [andb]. intros _ H. now apply IH.
Qed.

Lemma filterM_is_frame l c :
  filterM is_frame l c = OK (filter looks_like_frame l, c).
Proof.
  induction l as [|f l IH]; [reflexivity|].
  cbn [filterM filter].
  rewrite (bind_ret _ _ c _ (is_frame_ok f c)), (bind_ret _ _ c _ IH).
  reflexivity.
Qed.

Lemma mapM_frame_number l c :
  Forall (fun f => looks_like_frame f = true) l ->
  mapM frame_number l c = OK (map number_value l, c).
Proof.
  induction 1 as [|f l Hf _ IH]; [reflexivity|].
  cbn [mapM map].
  now rewrite (bind_ret _ _ c _ (frame_number_ok f c Hf)), (bind_ret _ _ c _ IH).
Qed.

Lemma Permutation_filter {T} (keep : T -> bool) (l l' : list T) :
  Permutation l l' -> Permutation (filter keep l) (filter keep l').
Proof.
  induction 1 as [|v l l' _ IH|u v l|l l' l'' _ IH1 _ IH2]; cbn [filter].
  - constructor.
  - destruct (keep v); [now constructor | exact IH].
  - destruct (keep u), (keep v); try reflexivity. constructor.
  - now transitivity (filter keep l').
Qed.

Section Sorting.
Context {T : Type}.

Lemma insert_by_key_perm (kv : Z * T) l :
  Permutation (insert_by_key kv l) (kv :: l).
Proof.
  induction l as [|kw l IH]; cbn [insert_by_key]; [reflexivity|].
  destruct (fst kv <=? fst kw)%Z; [reflexivity|].
  rewrite IH. constructor.
Qed.

Lemma sort_by_key_perm (l : list (Z * T)) : Permutation (sort_by_key l) l.
Proof.
  induction l as [|kv l IH]; cbn [sort_by_key]; [reflexivity|].
  rewrite insert_by_key_perm. now constructor.
Qed.

Lemma insert_by_key_sorted (kv : Z * T) l :
  StronglySorted Z.le (map fst l) ->
  StronglySorted Z.le (map fst (insert_by_key kv l)).
Proof.
  induction l as [|kw l IH]; cbn [insert_by_key map]; intros Hs.
  - repeat constructor.
  - apply StronglySorted_inv in Hs. destruct Hs as [Hs Hall].
    destruct (Z.leb_spec (fst kv) (fst kw)) as [Hle|Hgt]; cbn [map].
    + constructor; [now constructor|].
      constructor; [exact Hle|].
      eapply Forall_impl; [|exact Hall]. intros z Hz. cbn beta in Hz. lia.
    + constructor; [now apply IH|].
      assert (Hp : Permutation (map fst (insert_by_key kv l)) (fst kv :: map fst l))
        by (rewrite insert_by_key_perm; reflexivity).
      eapply Permutation_Forall; [symmetry; exact Hp|].
      constructor; [lia | exact Hall].
Qed.

Lemma sort_by_key_sorted (l : list (Z * T)) :
  StronglySorted Z.le (map fst (sort_by_key l)).
Proof.
  induction l as [|kv l IH]; cbn [sort_by_key]; [constructor|].
  now apply insert_by_key_sorted.
Qed.

Lemma combine_keys (g : T -> Z) (l : list T) :
  combine (map g l) l = map (fun v => (g v, v)) l.
Proof. induction l as [|v l IH]; cbn; [reflexivity | now rewrite IH]. Qed.

(** Sorting the values by a key: a permutation, in the order of the keys. *)
Lemma sorted_values (g : T -> Z) (l : list T) :
  let res := map snd (sort_by_key (combine (map g l) l)) in
  Permutation res l /\ StronglySorted Z.le (map g res).
Proof.
  cbv zeta. rewrite combine_keys.
  set (pairs := map (fun v => (g v, v)) l).
  assert (Hkeys : Forall (fun kv : Z * T => fst kv = g (snd kv)) (sort_by_key pairs)).
  { eapply Permutation_Forall; [symmetry; apply sort_by_key_perm|].
    unfold pairs. apply Forall_forall. intros kv Hin.
    apply in_map_iff in Hin. destruct Hin as (v & <- & _). reflexivity. }
  split.
  - rewrite (sort_by_key_perm pairs). unfold pairs.
    rewrite map_map. cbn [snd]. now rewrite map_id.
  - replace (map g (map snd (sort_by_key pairs))) with (map fst (sort_by_key pairs)).
    + apply sort_by_key_sorted.
    + rewrite map_map. apply map_ext_Forall.
      eapply Forall_impl; [|exact Hkeys]. intros kv E. exact E.
Qed.

End Sorting.

Lemma sorted_perm_unique (l1 : list Z) : forall l2,
  StronglySorted Z.le l1 -> StronglySorted Z.le l2 -> Permutation l1 l2 ->
  l1 = l2.
Proof.
  induction l1 as [|u l1 IH]; intros l2 H1 H2 Hp.
  - now apply Permutation_nil in Hp.
  - destruct l2 as [|v l2]; [symmetry in Hp; now apply Permutation_nil in Hp|].
    apply StronglySorted_inv in H1. destruct H1 as [H1 A1].
    apply StronglySorted_inv in H2. destruct H2 as [H2 A2].
    assert (Huv : u = v).
    { assert (Hu : In u (v :: l2)) by (eapply Permutation_in; [exact Hp | now left]).
      assert (Hv : In v (u :: l1))
        by (eapply Permutation_in; [symmetry; exact Hp | now left]).
      rewrite Forall_forall in A1, A2.
      destruct Hu as [->|Hu]; [reflexivity|]. destruct Hv as [->|Hv]; [reflexivity|].
      specialize (A1 v Hv). specialize (A2 u Hu). lia. }
    subst v. f_equal. apply IH; try assumption.
    now apply Permutation_cons_inv in Hp.
Qed.

Lemma image_names_ok listing c :
  let kept := filter looks_like_frame listing in
  image_names listing c
  = OK (map snd (sort_by_key (combine (map number_value kept) kept)), c).
Proof.
  cbv zeta. unfold image_names, sorted.
  rewrite (bind_ret _ _ c _ (filterM_is_frame listing c)).
  assert (Hall : Forall (fun f => looks_like_frame f = true)
                        (filter looks_like_frame listing)).
  { apply Forall_forall. intros f Hf. apply filter_In in Hf. apply Hf. }
  rewrite (bind_ret _ _ c _ (mapM_frame_number _ c Hall)).
  reflexivity.
Qed.

Lemma frame_file_parts i :
  (0 <= i)%Z ->
  exists body u,
    frame_file i = ["f"; "r"; "a"; "m"; "e"; "_"] ++ body ++ ["."; "p"; "n"; "g"]
    /\ body <> [] /\ forallb is_digit_char body = true
    /\ uint_of_digits body = Some u /\ Z.of_N (N.of_uint u) = i.
Proof.
  intros Hi. unfold frame_file, format_04d.
  destruct (Z.ltb_spec i 0) as [|_]; [lia|].
  set (ds := digits_of_uint (N.to_uint (Z.abs_N i))).
  destruct (uint_of_zeros (4 - length ds) ds _ (uint_of_digits_of_uint _))
    as (v & Hv & Ev).
  exists (repeat "0" (4 - length ds) ++ ds), v.
  split; [reflexivity|]. split; [|split; [|split]].
  - intros E. apply (f_equal (@length _)) in E.
    rewrite length_app, repeat_length in E. cbn [length] in E.
    destruct ds; cbn [length] in E; lia.
  - rewrite forallb_app. apply andb_true_intro. split.
    + apply forallb_forall. intros ch Hch. apply repeat_spec in Hch. now subst.
    + apply digits_of_uint_digits.
  - exact Hv.
  - rewrite Ev, DecimalN.Unsigned.of_to, N2Z.inj_abs_N. lia.
Qed.

Lemma frame_file_number_text i :
  (0 <= i)%Z ->
  exists body u,
    number_text (frame_file i) = body /\ body <> []
    /\ forallb is_digit_char body = true
    /\ uint_of_digits body = Some u /\ Z.of_N (N.of_uint u) = i
    /\ startswith ["f"; "r"; "a"; "m"; "e"; "_"] (frame_file i) = true.
Proof.
  intros Hi. destruct (frame_file_parts i Hi) as (body & u & E & Hne & Hd & Hu & Ei).
  exists body, u. rewrite E.
  assert (Hsep : Forall (fun ch => Ascii.eqb ch "_" = false
                                   /\ Ascii.eqb ch "." = false) body).
  { apply Forall_forall. intros ch Hch. apply digit_is_no_separator.
    rewrite forallb_forall in Hd. now apply Hd. }
  repeat split; try assumption.
  unfold number_text. rewrite split_frame.
  rewrite (split_without "_" (body ++ ["."; "p"; "n"; "g"])).
  - cbn [nth].
    change (body ++ ["."; "p"; "n"; "g"]) with (body ++ "." :: ["p"; "n"; "g"]).
    rewrite split_at; [reflexivity|].
    eapply Forall_impl; [|exact Hsep]. cbn beta. tauto.
  - apply Forall_app. split.
    + eapply Forall_impl; [|exact Hsep]. cbn beta. tauto.
    + repeat constructor.
Qed.

Lemma frame_file_looks_like_frame i :
  (0 <= i)%Z -> looks_like_frame (frame_file i) = true.
Proof.
  intros Hi.
  destruct (frame_file_number_text i Hi) as (body & u & E & Hne & Hd & _ & _ & Hs).
  unfold looks_like_frame. rewrite Hs, E. cbn [andb].
  unfold isdigit. destruct body; [congruence | exact Hd].
Qed.

Lemma frame_file_number_value i :
  (0 <= i)%Z -> number_value (frame_file i) = i.
Proof.
  intros Hi.
  destruct (frame_file_number_text i Hi) as (body & u & E & _ & _ & Hu & Ei & _).
  unfold number_value. now rewrite E, Hu.
Qed.

Lemma digit_is_ascii ch : is_digit_char ch = true -> is_ascii ch = true.
Proof.
  destruct ch as [[] [] [] [] [] [] [] []]; cbn; intros H;
    try discriminate H; reflexivity.
Qed.

(** The names [plot_wave_packet] writes are ASCII names. *)
Lemma frame_file_ascii i : ascii_name (frame_file i) = true.
Proof.
  assert (Hd : forall u, forallb is_ascii (digits_of_uint u) = true)
    by (induction u; cbn; auto).
  assert (Hz : forall len, forallb is_ascii (repeat "0" len) = true)
    by (induction len; cbn; auto).
  unfold ascii_name, frame_file, format_04d.
  destruct (i <? 0)%Z; cbn [app forallb]; rewrite ?forallb_app, ?Hz, ?Hd;
    reflexivity.
Qed.

(** X15: the name [plot_wave_packet] gives the frame of a time step
    [i >= 0] passes the filter of [ExportVideoWorker], and the sort key
    reads [i] back from it, whatever the number of digits. *)
Theorem frame_name_round_trip i c :
  (0 <= i)%Z ->
  is_frame (frame_file i) c = OK (true, c)
  /\ frame_number (frame_file i) c = OK (i, c).
Proof.
  intros Hi. pose proof (frame_file_looks_like_frame i Hi) as Hl.
  split.
  - now rewrite is_frame_ok, Hl.
  - now rewrite (frame_number_ok _ c Hl), frame_file_number_value.
Qed.


(** X17: in a folder of ASCII names: whatever the order in which the
    folder lists them, and whatever other files with ASCII names lie beside
    them that do not look like frames, the frames of time steps
    [i_1 < i_2 < ...] come out in the order of their time steps. *)
Theorem frames_in_time_order indices others listing c :
  StronglySorted Z.lt indices -> Forall (fun i => (0 <= i)%Z) indices ->
  Forall (fun f => ascii_name f = true) others ->
  Forall (fun f => looks_like_frame f = false) others ->
  Permutation listing (map frame_file indices ++ others) ->
  Forall (fun f => ascii_name f = true) listing
  /\ image_names listing c = OK (map frame_file indices, c).
Proof.
  intros Hsorted Hpos Hascii Hothers Hperm.
  split.
  { eapply Permutation_Forall; [symmetry; exact Hperm|].
    apply Forall_app. split; [|exact Hascii].
    apply Forall_forall. intros f Hf. apply in_map_iff in Hf.
    destruct Hf as (i & <- & _). apply frame_file_ascii. }
  rewrite image_names_ok. cbv zeta. do 2 f_equal.
  destruct (sorted_values number_value (filter looks_like_frame listing))
    as [Hp Hs]. cbv zeta in Hp, Hs.
  set (names := map snd _) in *.
  assert (Hkept : Permutation names (map frame_file indices)).
  { rewrite Hp, (Permutation_filter _ _ _ Hperm), filter_app.
    replace (filter looks_like_frame others) with (@nil str).
    - rewrite app_nil_r.
      replace (filter looks_like_frame (map frame_file indices))
        with (map frame_file indices); [reflexivity|].
      symmetry. apply forallb_filter_id. apply forallb_forall.
      intros f Hf. apply in_map_iff in Hf. destruct Hf as (i & <- & Hi).
      apply frame_file_looks_like_frame.
      rewrite Forall_forall in Hpos. now apply Hpos.
    - symmetry. clear - Hothers.
      induction Hothers as [|f l Hf _ IH]; cbn [filter]; [reflexivity|].
      now rewrite Hf. }
  assert (Hnum : map number_value (map frame_file indices) = indices).
  { rewrite map_map. rewrite <- (map_id indices) at 2.
    apply map_ext_Forall. eapply Forall_impl; [|exact Hpos].
    intros i Hi. now apply frame_file_number_value. }
  assert (Hkeys : map number_value names = indices).
  { apply sorted_perm_unique; [exact Hs | |].
    - clear - Hsorted. induction Hsorted as [|i l _ IH Hall]; constructor; auto.
      eapply Forall_impl; [|exact Hall]. intros z Hz. cbn beta in Hz. lia.
    - rewrite <- Hnum. now apply Permutation_map. }
  rewrite <- Hkeys, map_map. rewrite <- (map_id names) at 1.
  apply map_ext_Forall.
  eapply Permutation_Forall; [symmetry; exact Hkept|].
  apply Forall_forall. intros f Hf. apply in_map_iff in Hf.
  destruct Hf as (i & <- & Hi). rewrite frame_file_number_value; [reflexivity|].
  rewrite Forall_forall in Hpos. now apply Hpos.
Qed.

(** X18: in a folder of ASCII names: when no name looks like a frame (an
    empty folder among them), [ExportVideoWorker.__init__] raises
    [IndexError], from [self.image_names[0]] in [_initialize_video_writer]. *)
Theorem no_frames_raise listing c :
  Forall (fun f => ascii_name f = true) listing ->
  Forall (fun f => looks_like_frame f = false) listing ->
  first_image listing c = Raise IndexError.
Proof.
  intros _ Hnone. unfold first_image.
  rewrite (bind_ret _ _ c _ (image_names_ok listing c)).
  replace (filter looks_like_frame listing) with (@nil str); [reflexivity|].
  symmetry. induction Hnone as [|f l Hf _ IH]; cbn [filter]; [reflexivity|].
  now rewrite Hf.
Qed.

Lemma frame_name_round_trip_witness :
  (0 <= 10000)%Z
  /\ frame_file 10000
     = ["f"; "r"; "a"; "m"; "e"; "_"; "1"; "0"; "0"; "0"; "0"; "."; "p"; "n"; "g"]
  /\ frame_file 20
     = ["f"; "r"; "a"; "m"; "e"; "_"; "0"; "0"; "2"; "0"; "."; "p"; "n"; "g"]
  /\ is_frame (frame_file 10000) 0 = OK (true, 0)
  /\ frame_number (frame_file 10000) 0 = OK (10000%Z, 0).
Proof.
  assert (H : (0 <= 10000)%Z) by lia.
  split; [exact H|]. split; [vm_compute; reflexivity|].
  split; [vm_compute; reflexivity|].
  exact (frame_name_round_trip 10000 0 H).
Defined.

Lemma frames_in_time_order_witness :
  image_names (rev (map frame_file [0; 20; 10000]%Z ++ [["n"; "o"; "t"; "e"; "s"]])) 0
  = OK (map frame_file [0; 20; 10000]%Z, 0).
Proof.
  apply (frames_in_time_order [0; 20; 10000]%Z [["n"; "o"; "t"; "e"; "s"]]).
  - repeat constructor; lia.
  - repeat constructor; lia.
  - repeat constructor.
  - repeat constructor.
  - symmetry. apply Permutation_rev.
Defined.

Lemma no_frames_raise_witness :
  first_image [] 0 = Raise IndexError
  /\ first_image [["n"; "o"; "t"; "e"; "s"]; ["f"; "r"; "a"; "m"; "e"; "_"; "x"]] 0
     = Raise IndexError.
Proof.
  split.
  - apply (no_frames_raise [] 0); constructor.
  - apply (no_frames_raise _ 0); repeat constructor.
Defined.

End StrFacts.

(** * The parameter form *)

Module GuiFacts.
Import String.
Local Open Scope string_scope.
Import Gui.

Lemma initialize_entries_returns : _initialize_entries = Returns initial_window.
Proof. vm_compute. reflexivity. Qed.

Lemma entries_after_edits edits : forall win,
  entries (fold_left user_types edits win) = entries win
  /\ group_layouts (fold_left user_types edits win) = group_layouts win.
Proof.
  induction edits as [|e edits IH]; intros win; [split; reflexivity|].
  cbn [fold_left]. destruct (IH (user_types win e)) as [-> ->].
  split; reflexivity.
Qed.

Lemma nth_list_set_other {T} (l : list T) i v j d :
  j <> i -> nth j (list_set l i v) d = nth j l d.
Proof.
  revert i j. induction l as [|u l IH]; intros [|i] [|j] Hne; cbn;
    try reflexivity; try congruence.
  apply IH. congruence.
Qed.

(** Typing into other entries leaves the text of an entry as it is. *)
Lemma text_after_edits entry edits : forall win,
  Forall (fun e : nat * string => fst e <> entry) edits ->
  nth entry (line_edits (fold_left user_types edits win)) ""
  = nth entry (line_edits win) "".
Proof.
  induction edits as [|e edits IH]; intros win Hall; [reflexivity|].
  apply Forall_cons_iff in Hall. destruct Hall as [He Hall].
  cbn [fold_left]. rewrite (IH _ Hall). cbn [user_types line_edits].
  apply nth_list_set_other. congruence.
Qed.

Lemma hidden_untouched entry edits :
  displayed initial_window entry = false ->
  Forall (fun e : nat * string => displayed initial_window (fst e) = true) edits ->
  nth entry (line_edits (fold_left user_types edits initial_window)) ""
  = nth entry (line_edits initial_window) "".
Proof.
  intros Hh Hall. apply text_after_edits.
  eapply Forall_impl; [|exact Hall]. intros e He E. cbn beta in He.
  rewrite E, Hh in He. discriminate He.
Qed.

(** X19: in the window [_initialize_entries] builds, the entry registered
    in [self.entries] under a key is one the window shows only for the two
    keys of the last group, [export_ith_image] and [video_duration]; under
    the seven keys of the integrator it is an entry that is in no layout
    (every parameter gets a new entry for every group, and each one
    replaces the one registered before). *)
Theorem registered_entry_shown_only_for_export key entry :
  lookup (entries initial_window) key = Some entry ->
  _initialize_entries = Returns initial_window
  /\ displayed initial_window entry
     = member key ["export_ith_image"; "video_duration"]
  /\ (member key physics_keys = true -> displayed initial_window entry = false).
Proof.
  intros H. split; [exact initialize_entries_returns|].
  cbn [initial_window entries lookup] in H.
  repeat match type of H with
         | (if String.eqb ?u key then _ else _) = _ =>
             destruct (String.eqb_spec u key) as [<-|_];
             [injection H as <-; split; [vm_compute; reflexivity | reflexivity
                                          || (intros E; vm_compute in E; discriminate E)]|]
         end.
  discriminate H.
Qed.

Section Reading.
Variable py_float : string -> result float.

Lemma and_then_returns {T U} (r : outcome T) (f : T -> outcome U) v :
  and_then r f = Returns v -> exists u, r = Returns u /\ f u = Returns v.
Proof. destruct r as [u|err]; cbn; [eauto | discriminate]. Qed.

Lemma lift_result_returns {T} (r : result T) v :
  lift_result r = Returns v -> r = OK v.
Proof. destruct r; cbn; [now intros [= ->] | discriminate]. Qed.

Lemma read_entries_returns win items l :
  read_entries py_float win items = Returns l ->
  Forall2 (fun (item : string * nat) (kv : string * pyval) =>
             exists f, py_float (nth (snd item) (line_edits win) "") = OK f
                       /\ kv = (fst item, PyFloat f))
          items l.
Proof.
  revert l. induction items as [|[key entry] items IH]; intros l H.
  - injection H as <-. constructor.
  - cbn [read_entries] in H.
    apply and_then_returns in H. destruct H as (f & Ef & H).
    apply lift_result_returns in Ef.
    apply and_then_returns in H. destruct H as (rest & Er & H).
    injection H as <-. constructor; [|now apply IH].
    exists f. split; [exact Ef | reflexivity].
Qed.

(** What [get_parameter_values] returns after the user has typed into
    entries the window shows: the texts read for the seven keys of the
    integrator are the default texts. *)
Lemma values_after_edits edits values :
  Forall (fun e : nat * string => displayed initial_window (fst e) = true) edits ->
  get_parameter_values py_float (fold_left user_types edits initial_window)
  = Returns values ->
  exists f1 f2 f3 f4 f5 f6 f7 i8 f9,
    py_float "1" = OK f1 /\ py_float "1" = OK f2 /\ py_float "30" = OK f3
    /\ py_float "1" = OK f4 /\ py_float "1" = OK f5 /\ py_float "10" = OK f6
    /\ py_float "10" = OK f7
    /\ values = [("size_packet", PyFloat f1); ("size_barrier", PyFloat f2);
                 ("duration_time", PyFloat f3); ("energy_packet", PyFloat f4);
                 ("potential_barrier_height", PyFloat f5); ("dx", PyFloat f6);
                 ("dt", PyFloat f7); ("export_ith_image", PyInt i8);
                 ("video_duration", PyFloat f9)].
Proof.
  intros Hall H. unfold get_parameter_values in H.
  set (win := fold_left user_types edits initial_window) in *.
  assert (Hent : entries win = entries initial_window)
    by apply entries_after_edits.
  assert (Htext : forall entry, displayed initial_window entry = false ->
            nth entry (line_edits win) ""
            = nth entry (line_edits initial_window) "")
    by (intros entry Hh; now apply hidden_untouched).
  apply and_then_returns in H. destruct H as (params & H & Hrest).
  apply read_entries_returns in H.
  rewrite Hent in H. cbn [entries initial_window] in H.
  repeat match type of H with
         | Forall2 _ (_ :: _) _ =>
             let kv := fresh "kv" in
             let f := fresh "f" in
             let E := fresh "E" in
             inversion H as [|? kv ? ? (f & E & ->) H']; subst; clear H;
             rename H' into H; cbn [fst snd] in E
         | Forall2 _ [] _ => inversion H; subst; clear H
         end.
  rewrite (Htext 3) in E by reflexivity. rewrite (Htext 7) in E0 by reflexivity.
  rewrite (Htext 11) in E1 by reflexivity. rewrite (Htext 15) in E2 by reflexivity.
  rewrite (Htext 19) in E3 by reflexivity. rewrite (Htext 23) in E4 by reflexivity.
  rewrite (Htext 27) in E5 by reflexivity.
  cbn [initial_window line_edits nth] in E, E0, E1, E2, E3, E4, E5.
  cbn [fst] in Hrest.
  apply and_then_returns in Hrest. destruct Hrest as (v & _ & Hrest).
  apply and_then_returns in Hrest. destruct Hrest as (i8 & _ & Hrest).
  injection Hrest as <-.
  cbn [setitem].
  repeat match goal with
         | |- context [String.eqb ?u ?v] =>
             let b := eval vm_compute in (String.eqb u v) in
             change (String.eqb u v) with b; cbv iota
         end.
  exists f, f0, f1, f2, f3, f4, f5, i8, f7.
  repeat (split; [assumption|]). reflexivity.
Qed.

(** X20: whatever the user types into the entries the window shows, the
    values [get_parameter_values] returns for the seven parameters of the
    integrator are the default values: [float(str(default))] read from the
    entries that are registered but not shown. *)
Theorem typed_parameters_are_ignored edits values key :
  Forall (fun e : nat * string => displayed initial_window (fst e) = true) edits ->
  get_parameter_values py_float (fold_left user_types edits initial_window)
  = Returns values ->
  In key physics_keys ->
  exists default f,
    get_default_value key = Returns default
    /\ py_float (str default) = OK f
    /\ getitem values key = Returns (PyFloat f).
Proof.
  intros Hall H Hkey.
  destruct (values_after_edits edits values Hall H)
    as (f1 & f2 & f3 & f4 & f5 & f6 & f7 & i8 & f9
        & E1 & E2 & E3 & E4 & E5 & E6 & E7 & ->).
  cbn [physics_keys In] in Hkey.
  destruct Hkey as [<-|[<-|[<-|[<-|[<-|[<-|[<-|[]]]]]]]].
  - exists 1%Z, f1. split; [reflexivity|]. split; [exact E1 | reflexivity].
  - exists 1%Z, f2. split; [reflexivity|]. split; [exact E2 | reflexivity].
  - exists 30%Z, f3. split; [reflexivity|]. split; [exact E3 | reflexivity].
  - exists 1%Z, f4. split; [reflexivity|]. split; [exact E4 | reflexivity].
  - exists 1%Z, f5. split; [reflexivity|]. split; [exact E5 | reflexivity].
  - exists 10%Z, f6. split; [reflexivity|]. split; [exact E6 | reflexivity].
  - exists 10%Z, f7. split; [reflexivity|]. split; [exact E7 | reflexivity].
Qed.

(** X21: when [float] reads the default texts as the numbers they spell,
    the integrator [_initialize_numerical_calculation] constructs from the
    values read is the one of the default parameters, whatever the user has
    typed into the entries the window shows. *)
Theorem simulation_uses_default_parameters {num : Numerics} edits values c :
  py_float "1" = OK 1%float -> py_float "30" = OK 30%float ->
  py_float "10" = OK 10%float ->
  Forall (fun e : nat * string => displayed initial_window (fst e) = true) edits ->
  get_parameter_values py_float (fold_left user_types edits initial_window)
  = Returns values ->
  _initialize_numerical_calculation values c
  = lift_result (__init__ default_params c).
Proof.
  intros P1 P30 P10 Hall H.
  destruct (values_after_edits edits values Hall H)
    as (f1 & f2 & f3 & f4 & f5 & f6 & f7 & i8 & f9
        & E1 & E2 & E3 & E4 & E5 & E6 & E7 & ->).
  rewrite P1 in E1, E2, E4, E5. rewrite P30 in E3. rewrite P10 in E6, E7.
  injection E1 as <-. injection E2 as <-. injection E3 as <-.
  injection E4 as <-. injection E5 as <-. injection E6 as <-. injection E7 as <-.
  reflexivity.
Qed.

End Reading.

Lemma registered_entry_shown_only_for_export_witness :
  lookup (entries initial_window) "dx" = Some 23
  /\ displayed initial_window 23 = false
  /\ lookup (entries initial_window) "video_duration" = Some 35
  /\ displayed initial_window 35 = true.
Proof.
  assert (H1 : lookup (entries initial_window) "dx" = Some 23) by reflexivity.
  assert (H2 : lookup (entries initial_window) "video_duration" = Some 35)
    by reflexivity.
  split; [exact H1|]. split; [|split; [exact H2|]].
  - exact (proj1 (proj2 (registered_entry_shown_only_for_export "dx" 23 H1))).
  - exact (proj1 (proj2 (registered_entry_shown_only_for_export
                           "video_duration" 35 H2))).
Defined.

Lemma typed_parameters_are_ignored_witness :
  exists values,
    get_parameter_values float_of_digits
      (fold_left user_types [(0, "7"); (22, "5"); (31, "4")] initial_window)
    = Returns values
    /\ getitem values "export_ith_image" = Returns (PyInt 4)
    /\ exists default f,
        get_default_value "dx" = Returns default
        /\ float_of_digits (str default) = OK f
        /\ getitem values "dx" = Returns (PyFloat f).
Proof.
  eexists. split; [vm_compute; reflexivity|]. split; [reflexivity|].
  apply (typed_parameters_are_ignored float_of_digits
           [(0, "7"); (22, "5"); (31, "4")] _ "dx").
  - repeat constructor.
  - vm_compute. reflexivity.
  - cbn. auto 10.
Defined.

Lemma simulation_uses_default_parameters_witness :
  exists values,
    get_parameter_values float_of_digits
      (fold_left user_types [(0, "7"); (22, "5")] initial_window)
    = Returns values
    /\ _initialize_numerical_calculation (num := Sym.numerics) values 0
       = lift_result (__init__ (num := Sym.numerics) default_params 0).
Proof.
  eexists. split; [vm_compute; reflexivity|].
  apply (simulation_uses_default_parameters float_of_digits
           (num := Sym.numerics) [(0, "7"); (22, "5")]).
  - vm_compute. reflexivity.
  - vm_compute. reflexivity.
  - vm_compute. reflexivity.
  - repeat constructor.
  - vm_compute. reflexivity.
Defined.

End GuiFacts.

(** * The scales of the visualization *)

Section VisualizationProperties.
Context {num : Numerics}.
Variable cabs : C -> float.
Variable maximum : list float -> float.

(** X22: for a constructed instance whose barrier height is zero, the
    scales at the head of [Visualization.__init__] raise
    [ZeroDivisionError], from [1 / calc.potential_barrier_height]: an
    instance without barrier cannot be given to a [Visualization], and so
    not to a [SimulationWorker]. *)
Theorem zero_barrier_cannot_be_plotted a c self c' :
  __init__ a c = OK (self, c') ->
  Py.is_zero (potential_barrier_height self) = true ->
  visualization_scales cabs maximum self c' = Raise ZeroDivisionError.
Proof.
  intros H Hz. unfold visualization_scales, np_max.
  assert (Hne : exists z l, packet self = z :: l).
  { apply init_inv in H.
    destruct H as (N & T & f & _ & _ & _ & H3 & _ & _ & -> & _).
    cbn [packet built].
    destruct (packet_of a N) as [|z l] eqn:E; [|now exists z, l].
    apply (f_equal (@length _)) in E. rewrite length_packet_of in E.
    cbn [length] in E. lia. }
  destruct Hne as (z & l & ->). cbn [map].
  unfold bind at 1. unfold ret at 1.
  apply bind_raise. unfold Py.truediv. now rewrite Hz.
Qed.

End VisualizationProperties.

Lemma zero_barrier_cannot_be_plotted_witness :
  exists self,
    __init__ (num := Sym.numerics) free_params 0 = OK (self, 1)
    /\ Py.is_zero (potential_barrier_height self) = true
    /\ visualization_scales (fun _ => 1%float) (fun _ => 1%float) self 1
       = Raise ZeroDivisionError.
Proof.
  exists (@built Sym.numerics free_params 5 3000 (@A_of Sym.numerics free_params 5)).
  assert (H : __init__ (num := Sym.numerics) free_params 0
              = OK (@built Sym.numerics free_params 5 3000
                           (@A_of Sym.numerics free_params 5), 1))
    by (vm_compute; reflexivity).
  assert (Hz : Py.is_zero (potential_barrier_height
                 (@built Sym.numerics free_params 5 3000
                         (@A_of Sym.numerics free_params 5))) = true)
    by (vm_compute; reflexivity).
  split; [exact H|]. split; [exact Hz|].
  exact (zero_barrier_cannot_be_plotted (fun _ => 1%float) (fun _ => 1%float)
           free_params 0 _ 1 H Hz).
Defined.
